(** * UniverseRenderer: visibility, depth-span partitioning and view-set state

  A shallow embedding of [thirdparty/vesta/UniverseRenderer.cpp].  The
  C++ [float] is IEEE-754 binary32; it is modelled by the Standard
  Library's [spec_float] at precision 24 and maximal exponent 128, so
  that every comparison, product and quotient of the renderer is the
  correctly rounded one.  Calls into collaborators that are not part of
  this file (Eigen vector algebra, frusta, the GL driver, [std::sort])
  are taken through explicit interfaces. *)

From Stdlib Require Import ZArith List Bool Lia Permutation Sorted.
From Stdlib Require Import Floats.SpecFloat.
Import ListNotations.

Set Implicit Arguments.
Open Scope Z_scope.

(** ** Binary32 arithmetic *)

Module F32.

Definition prec : Z := 24.
Definition emax : Z := 128.

Definition float : Type := spec_float.

Definition ltb (x y : float) : bool := SFltb x y.
Definition leb (x y : float) : bool := SFleb x y.
Definition eqb (x y : float) : bool := SFeqb x y.
(** [x > y] is [y < x]. *)
Definition gtb (x y : float) : bool := SFltb y x.

Definition mul (x y : float) : float := SFmul prec emax x y.
Definition div (x y : float) : float := SFdiv prec emax x y.
Definition add (x y : float) : float := SFadd prec emax x y.
Definition sub (x y : float) : float := SFsub prec emax x y.
Definition opp (x : float) : float := SFopp x.

(** [std::max(a, b)] is [(a < b) ? b : a]; [std::min(a, b)] is
    [(b < a) ? b : a]. *)
Definition max (a b : float) : float := if ltb a b then b else a.
Definition min (a b : float) : float := if ltb b a then b else a.

(** The binary32 value nearest to the integer [n]. *)
Definition of_Z (n : Z) : float := binary_normalize prec emax n 0 false.

Definition is_nan (x : float) : bool :=
  match x with S754_nan => true | _ => false end.

Definition is_finite (x : float) : bool :=
  match x with S754_zero _ | S754_finite _ _ _ => true | _ => false end.

Definition zero : float := S754_zero false.
Definition one : float := of_Z 1.
Definition two : float := of_Z 2.
(** [0.5f] *)
Definition half : float := div one two.

End F32.



(** ** Constants of the renderer

    A decimal literal such as [0.001f] denotes the binary32 value nearest
    to the decimal; that is the correctly rounded quotient of the two
    integers, which is what [F32.div] computes. *)

(** [0.00001f] *)
Definition MinimumNearPlaneDistance : F32.float :=
  F32.div (F32.of_Z 1) (F32.of_Z 100000).
(** [1.0e12], a double literal converted to float *)
Definition MaximumFarPlaneDistance : F32.float := F32.of_Z (10 ^ 12).
(** [0.001f] *)
Definition MinimumNearFarRatio : F32.float :=
  F32.div (F32.of_Z 1) (F32.of_Z 1000).
(** [0.002f] *)
Definition PreferredNearFarRatio : F32.float :=
  F32.div (F32.of_Z 2) (F32.of_Z 1000).
(** [10000.0f], local to [renderView] *)
Definition MaxFarNearRatio : F32.float := F32.of_Z 10000.

(** ** Machine integers *)

(** [unsigned int] arithmetic wraps modulo [2^32]. *)
Definition u32 (z : Z) : Z := z mod 2 ^ 32.

(** [(int) v.size()]: the size reduced to 32 bits and read as a signed
    number. *)
Definition int_of_size (n : nat) : Z :=
  let z := u32 (Z.of_nat n) in
  if z <? 2 ^ 31 then z else z - 2 ^ 32.

(** ** Collaborators

    Eigen's vectors and quaternions, the projection, the frustum and the
    viewport are classes of other translation units.  The renderer only
    calls the operations listed here. *)

Class Collaborators : Type := {
  Time : Type;
  Vector3d : Type;
  Vector3f : Type;
  Quaterniond : Type;
  Quaternionf : Type;
  Frustum : Type;
  PlanarProjection : Type;
  Viewport : Type;
  (** [0.0], the time a new renderer starts with *)
  time_zero : Time;
  (** [Vector3d::Zero()] *)
  v3d_zero : Vector3d;
  (** [a - b] *)
  v3d_sub : Vector3d -> Vector3d -> Vector3d;
  (** [float(v.norm())] *)
  v3d_norm : Vector3d -> F32.float;
  (** [v.cast<float>()] *)
  v3d_cast : Vector3d -> Vector3f;
  (** [v *= f] on a double and on a float vector *)
  v3d_scale : Vector3d -> F32.float -> Vector3d;
  v3f_scale : Vector3f -> F32.float -> Vector3f;
  (** [v.z()] *)
  v3f_z : Vector3f -> F32.float;
  (** [q.cast<float>()] *)
  q_cast : Quaterniond -> Quaternionf;
  (** [q.conjugate().toRotationMatrix() * v] *)
  toCameraSpace : Quaternionf -> Vector3f -> Vector3f;
  (** [q.conjugate() * -v.cast<float>()] *)
  viewDirection : Quaternionf -> Vector3d -> Vector3f;
  (** [projection.nearDistance()], [projection.farDistance()],
      [projection.frustum()] *)
  proj_nearDistance : PlanarProjection -> F32.float;
  proj_farDistance : PlanarProjection -> F32.float;
  proj_frustum : PlanarProjection -> Frustum;
  (** the frustum of a renderer that has not drawn yet *)
  frustum_default : Frustum;
  (** [frustum.intersects(BoundingSphere<float>(center, radius))] *)
  frustum_intersects : Frustum -> Vector3f -> F32.float -> bool;
  (** [(float) (2 * tan(projection.fovY() / 2.0) / viewport.height())] *)
  pixelSizeOf : PlanarProjection -> Viewport -> F32.float;
  (** [(float) (cos(fovY / 2.0) / sqrt(1.0 + aspectRatio * aspectRatio))] *)
  nearPlaneFovAdjustmentOf : PlanarProjection -> Viewport -> F32.float
}.

(** [std::sort(first, last, comp)]: the result is a rearrangement of the
    input in which no element is followed by one that [comp] puts
    strictly before it.  The standard promises the second part only when
    [comp] is a strict weak ordering on the elements being sorted, and it
    promises nothing about the relative order of equivalent elements. *)

Definition strict_weak_order {A : Type} (lt : A -> A -> bool) : Prop :=
  (forall x, lt x x = false) /\
  (forall x y z, lt x y = true -> lt y z = true -> lt x z = true) /\
  (forall x y z, lt x y = false -> lt y z = false -> lt x z = false).

Definition sorted_by {A : Type} (lt : A -> A -> bool) (l : list A) : Prop :=
  StronglySorted (fun a b => lt b a = false) l.

Class StdSort : Type := {
  sort : forall A : Type, (A -> A -> bool) -> list A -> list A;
  sort_permutation :
    forall (A : Type) (lt : A -> A -> bool) (l : list A),
      Permutation l (sort lt l);
  sort_sorted :
    forall (A : Type) (lt : A -> A -> bool) (l : list A),
      strict_weak_order lt -> sorted_by lt (sort lt l)
}.

(** ** Data model *)

Inductive ClippingPolicy : Type :=
| PreserveDepthPrecision
| PreventClipping
| SplitToPreventClipping.

Definition ClippingPolicy_eqb (a b : ClippingPolicy) : bool :=
  match a, b with
  | PreserveDepthPrecision, PreserveDepthPrecision => true
  | PreventClipping, PreventClipping => true
  | SplitToPreventClipping, SplitToPreventClipping => true
  | _, _ => false
  end.

Inductive DepthAdjustment : Type :=
| NoAdjustment
| AdjustToFront.

Inductive RenderStatus : Type :=
| RenderOk
| RenderNoViewSet
| RenderViewSetAlreadyStarted
| RendererUninitialized
| RendererBadParameter.

(** A depth-only framebuffer of the shadow-map pool; [isValid()] is a
    property of the GL object. *)
Record Framebuffer : Type := {
  fb_isValid : bool
}.

(** A [counted_ptr<Framebuffer>]; [None] is the null pointer. *)
Definition FramebufferPtr : Type := option Framebuffer.

Record LightSource : Type := {
  range : F32.float;
  light_isShadowCaster : bool
}.

Record DepthBufferSpan : Type := {
  backItemIndex : Z;
  itemCount : Z;
  span_nearDistance : F32.float;
  span_farDistance : F32.float
}.

Section Scene.
Context {C : Collaborators}.

Record Geometry : Type := {
  boundingSphereRadius : F32.float;
  clippingPolicy : ClippingPolicy;
  nearPlaneDistance : Vector3f -> F32.float
}.

Record Visualizer : Type := {
  vis_isVisible : bool;
  depthAdjustment : DepthAdjustment;
  vis_geometry : Geometry;
  (** [visualizer->orientation(entity, t)] for the owning entity *)
  vis_orientation : Time -> Quaterniond
}.

Record Entity : Type := {
  isVisible : Time -> bool;
  position : Time -> Vector3d;
  orientation : Time -> Quaterniond;
  (** [None] is the null pointer *)
  geometry : option Geometry;
  lightSource : option LightSource;
  (** the visualizer table in iteration order; [hasVisualizers()] is
      its being non-empty *)
  visualizers : list Visualizer
}.

Record Universe : Type := {
  entities : list Entity
}.

Record VisibleItem : Type := {
  item_entity : Entity;
  item_geometry : Geometry;
  item_position : Vector3d;
  item_cameraRelativePosition : Vector3d;
  item_orientation : Quaternionf;
  item_boundingRadius : F32.float;
  item_nearDistance : F32.float;
  item_farDistance : F32.float;
  item_outsideFrustum : bool
}.

(** [lsi_lightSource = None] is the Sun. *)
Record LightSourceItem : Type := {
  lsi_lightSource : option LightSource;
  lsi_position : Vector3d
}.

Record VisibleLightSourceItem : Type := {
  vls_lightSource : option LightSource;
  vls_position : Vector3d;
  vls_cameraRelativePosition : Vector3d
}.

(** The part of the render context that the renderer reads back. *)
Record RenderContext : Type := {
  rc_cameraOrientation : Quaternionf;
  rc_pixelSize : F32.float
}.

(** The renderer's members.  State that only lives in the GL driver
    (viewport, colour mask, matrices, depth range) is not represented. *)
Record UniverseRenderer : Type := {
  m_renderContext : option RenderContext;
  m_universe : option Universe;
  m_currentTime : Time;
  m_shadowsEnabled : bool;
  m_visualizersEnabled : bool;
  m_skyLayersEnabled : bool;
  m_shadowMaps : list FramebufferPtr;
  m_lightSources : list LightSourceItem;
  m_visibleLightSources : list VisibleLightSourceItem;
  m_visibleItems : list VisibleItem;
  m_splittableItems : list VisibleItem;
  m_depthBufferSpans : list DepthBufferSpan;
  m_mergedDepthBufferSpans : list DepthBufferSpan;
  m_viewFrustum : Frustum
}.

(** Assignments to single members. *)

Definition set_renderContext (v : option RenderContext) (r : UniverseRenderer) :
  UniverseRenderer :=
  {| m_renderContext := v; m_universe := m_universe r;
     m_currentTime := m_currentTime r;
     m_shadowsEnabled := m_shadowsEnabled r;
     m_visualizersEnabled := m_visualizersEnabled r;
     m_skyLayersEnabled := m_skyLayersEnabled r;
     m_shadowMaps := m_shadowMaps r; m_lightSources := m_lightSources r;
     m_visibleLightSources := m_visibleLightSources r;
     m_visibleItems := m_visibleItems r;
     m_splittableItems := m_splittableItems r;
     m_depthBufferSpans := m_depthBufferSpans r;
     m_mergedDepthBufferSpans := m_mergedDepthBufferSpans r;
     m_viewFrustum := m_viewFrustum r |}.

Definition set_universe (v : option Universe) (r : UniverseRenderer) :
  UniverseRenderer :=
  {| m_renderContext := m_renderContext r; m_universe := v;
     m_currentTime := m_currentTime r;
     m_shadowsEnabled := m_shadowsEnabled r;
     m_visualizersEnabled := m_visualizersEnabled r;
     m_skyLayersEnabled := m_skyLayersEnabled r;
     m_shadowMaps := m_shadowMaps r; m_lightSources := m_lightSources r;
     m_visibleLightSources := m_visibleLightSources r;
     m_visibleItems := m_visibleItems r;
     m_splittableItems := m_splittableItems r;
     m_depthBufferSpans := m_depthBufferSpans r;
     m_mergedDepthBufferSpans := m_mergedDepthBufferSpans r;
     m_viewFrustum := m_viewFrustum r |}.

Definition set_currentTime (v : Time) (r : UniverseRenderer) :
  UniverseRenderer :=
  {| m_renderContext := m_renderContext r; m_universe := m_universe r;
     m_currentTime := v; m_shadowsEnabled := m_shadowsEnabled r;
     m_visualizersEnabled := m_visualizersEnabled r;
     m_skyLayersEnabled := m_skyLayersEnabled r;
     m_shadowMaps := m_shadowMaps r; m_lightSources := m_lightSources r;
     m_visibleLightSources := m_visibleLightSources r;
     m_visibleItems := m_visibleItems r;
     m_splittableItems := m_splittableItems r;
     m_depthBufferSpans := m_depthBufferSpans r;
     m_mergedDepthBufferSpans := m_mergedDepthBufferSpans r;
     m_viewFrustum := m_viewFrustum r |}.

Definition set_shadowsEnabled (v : bool) (r : UniverseRenderer) :
  UniverseRenderer :=
  {| m_renderContext := m_renderContext r; m_universe := m_universe r;
     m_currentTime := m_currentTime r; m_shadowsEnabled := v;
     m_visualizersEnabled := m_visualizersEnabled r;
     m_skyLayersEnabled := m_skyLayersEnabled r;
     m_shadowMaps := m_shadowMaps r; m_lightSources := m_lightSources r;
     m_visibleLightSources := m_visibleLightSources r;
     m_visibleItems := m_visibleItems r;
     m_splittableItems := m_splittableItems r;
     m_depthBufferSpans := m_depthBufferSpans r;
     m_mergedDepthBufferSpans := m_mergedDepthBufferSpans r;
     m_viewFrustum := m_viewFrustum r |}.



Definition set_shadowMaps (v : list FramebufferPtr) (r : UniverseRenderer) :
  UniverseRenderer :=
  {| m_renderContext := m_renderContext r; m_universe := m_universe r;
     m_currentTime := m_currentTime r;
     m_shadowsEnabled := m_shadowsEnabled r;
     m_visualizersEnabled := m_visualizersEnabled r;
     m_skyLayersEnabled := m_skyLayersEnabled r; m_shadowMaps := v;
     m_lightSources := m_lightSources r;
     m_visibleLightSources := m_visibleLightSources r;
     m_visibleItems := m_visibleItems r;
     m_splittableItems := m_splittableItems r;
     m_depthBufferSpans := m_depthBufferSpans r;
     m_mergedDepthBufferSpans := m_mergedDepthBufferSpans r;
     m_viewFrustum := m_viewFrustum r |}.

Definition set_lightSources (v : list LightSourceItem) (r : UniverseRenderer) :
  UniverseRenderer :=
  {| m_renderContext := m_renderContext r; m_universe := m_universe r;
     m_currentTime := m_currentTime r;
     m_shadowsEnabled := m_shadowsEnabled r;
     m_visualizersEnabled := m_visualizersEnabled r;
     m_skyLayersEnabled := m_skyLayersEnabled r;
     m_shadowMaps := m_shadowMaps r; m_lightSources := v;
     m_visibleLightSources := m_visibleLightSources r;
     m_visibleItems := m_visibleItems r;
     m_splittableItems := m_splittableItems r;
     m_depthBufferSpans := m_depthBufferSpans r;
     m_mergedDepthBufferSpans := m_mergedDepthBufferSpans r;
     m_viewFrustum := m_viewFrustum r |}.

Definition set_visibleLightSources (v : list VisibleLightSourceItem) (r : UniverseRenderer) :
  UniverseRenderer :=
  {| m_renderContext := m_renderContext r; m_universe := m_universe r;
     m_currentTime := m_currentTime r;
     m_shadowsEnabled := m_shadowsEnabled r;
     m_visualizersEnabled := m_visualizersEnabled r;
     m_skyLayersEnabled := m_skyLayersEnabled r;
     m_shadowMaps := m_shadowMaps r; m_lightSources := m_lightSources r;
     m_visibleLightSources := v; m_visibleItems := m_visibleItems r;
     m_splittableItems := m_splittableItems r;
     m_depthBufferSpans := m_depthBufferSpans r;
     m_mergedDepthBufferSpans := m_mergedDepthBufferSpans r;
     m_viewFrustum := m_viewFrustum r |}.

Definition set_visibleItems (v : list VisibleItem) (r : UniverseRenderer) :
  UniverseRenderer :=
  {| m_renderContext := m_renderContext r; m_universe := m_universe r;
     m_currentTime := m_currentTime r;
     m_shadowsEnabled := m_shadowsEnabled r;
     m_visualizersEnabled := m_visualizersEnabled r;
     m_skyLayersEnabled := m_skyLayersEnabled r;
     m_shadowMaps := m_shadowMaps r; m_lightSources := m_lightSources r;
     m_visibleLightSources := m_visibleLightSources r; m_visibleItems := v;
     m_splittableItems := m_splittableItems r;
     m_depthBufferSpans := m_depthBufferSpans r;
     m_mergedDepthBufferSpans := m_mergedDepthBufferSpans r;
     m_viewFrustum := m_viewFrustum r |}.

Definition set_splittableItems (v : list VisibleItem) (r : UniverseRenderer) :
  UniverseRenderer :=
  {| m_renderContext := m_renderContext r; m_universe := m_universe r;
     m_currentTime := m_currentTime r;
     m_shadowsEnabled := m_shadowsEnabled r;
     m_visualizersEnabled := m_visualizersEnabled r;
     m_skyLayersEnabled := m_skyLayersEnabled r;
     m_shadowMaps := m_shadowMaps r; m_lightSources := m_lightSources r;
     m_visibleLightSources := m_visibleLightSources r;
     m_visibleItems := m_visibleItems r; m_splittableItems := v;
     m_depthBufferSpans := m_depthBufferSpans r;
     m_mergedDepthBufferSpans := m_mergedDepthBufferSpans r;
     m_viewFrustum := m_viewFrustum r |}.

Definition set_depthBufferSpans (v : list DepthBufferSpan) (r : UniverseRenderer) :
  UniverseRenderer :=
  {| m_renderContext := m_renderContext r; m_universe := m_universe r;
     m_currentTime := m_currentTime r;
     m_shadowsEnabled := m_shadowsEnabled r;
     m_visualizersEnabled := m_visualizersEnabled r;
     m_skyLayersEnabled := m_skyLayersEnabled r;
     m_shadowMaps := m_shadowMaps r; m_lightSources := m_lightSources r;
     m_visibleLightSources := m_visibleLightSources r;
     m_visibleItems := m_visibleItems r;
     m_splittableItems := m_splittableItems r; m_depthBufferSpans := v;
     m_mergedDepthBufferSpans := m_mergedDepthBufferSpans r;
     m_viewFrustum := m_viewFrustum r |}.

Definition set_mergedDepthBufferSpans (v : list DepthBufferSpan) (r : UniverseRenderer) :
  UniverseRenderer :=
  {| m_renderContext := m_renderContext r; m_universe := m_universe r;
     m_currentTime := m_currentTime r;
     m_shadowsEnabled := m_shadowsEnabled r;
     m_visualizersEnabled := m_visualizersEnabled r;
     m_skyLayersEnabled := m_skyLayersEnabled r;
     m_shadowMaps := m_shadowMaps r; m_lightSources := m_lightSources r;
     m_visibleLightSources := m_visibleLightSources r;
     m_visibleItems := m_visibleItems r;
     m_splittableItems := m_splittableItems r;
     m_depthBufferSpans := m_depthBufferSpans r;
     m_mergedDepthBufferSpans := v; m_viewFrustum := m_viewFrustum r |}.

Definition set_viewFrustum (v : Frustum) (r : UniverseRenderer) :
  UniverseRenderer :=
  {| m_renderContext := m_renderContext r; m_universe := m_universe r;
     m_currentTime := m_currentTime r;
     m_shadowsEnabled := m_shadowsEnabled r;
     m_visualizersEnabled := m_visualizersEnabled r;
     m_skyLayersEnabled := m_skyLayersEnabled r;
     m_shadowMaps := m_shadowMaps r; m_lightSources := m_lightSources r;
     m_visibleLightSources := m_visibleLightSources r;
     m_visibleItems := m_visibleItems r;
     m_splittableItems := m_splittableItems r;
     m_depthBufferSpans := m_depthBufferSpans r;
     m_mergedDepthBufferSpans := m_mergedDepthBufferSpans r;
     m_viewFrustum := v |}.

(** ** Vectors as lists

    [push_back] appends at the end, [back()] and [front()] read the two
    ends.  Reading an end of an empty vector has no defined result. *)

Definition push_back {A : Type} (l : list A) (x : A) : list A := l ++ [x].

Fixpoint back {A : Type} (l : list A) : option A :=
  match l with
  | [] => None
  | [x] => Some x
  | _ :: l' => back l'
  end.

Definition front {A : Type} (l : list A) : option A :=
  match l with
  | [] => None
  | x :: _ => Some x
  end.

(** ** Construction and switches *)

Definition UniverseRenderer_new : UniverseRenderer :=
  {| m_renderContext := None; m_universe := None;
     m_currentTime := time_zero; m_shadowsEnabled := false;
     m_visualizersEnabled := true; m_skyLayersEnabled := true;
     m_shadowMaps := []; m_lightSources := [];
     m_visibleLightSources := []; m_visibleItems := [];
     m_splittableItems := []; m_depthBufferSpans := [];
     m_mergedDepthBufferSpans := []; m_viewFrustum := frustum_default |}.

(** [setShadowsEnabled]: the guard reads [m_shadowMaps[0]].  On an empty
    pool that read is outside the vector, so the call has no defined
    result ([None]). *)
Definition setShadowsEnabled (enable : bool) (r : UniverseRenderer) :
  option UniverseRenderer :=
  match m_shadowMaps r with
  | [] => None
  | Some fb :: _ =>
      if fb_isValid fb then Some (set_shadowsEnabled enable r) else Some r
  | None :: _ => Some r
  end.



(** [initializeGraphics]; [created] is what [RenderContext::Create()]
    returns. *)
Definition initializeGraphics (created : option RenderContext)
  (r : UniverseRenderer) : bool * UniverseRenderer :=
  match m_renderContext r with
  | Some _ => (true, r)
  | None =>
      (match created with Some _ => true | None => false end,
       set_renderContext created r)
  end.

(** What the GL driver answers during [initializeShadowMaps]:
    [shadowsSupported()], [GL_MAX_TEXTURE_SIZE], and the result of the
    [i]-th [Framebuffer::CreateDepthOnlyFramebuffer(size, size)]. *)
Record ShadowDriver : Type := {
  drv_shadowsSupported : bool;
  drv_maxTextureSize : Z;
  drv_createDepthOnlyFramebuffer : nat -> Z -> option Framebuffer
}.

(** The allocation loop, [i] counting up while [n] maps remain. *)
Fixpoint createShadowMaps (drv : ShadowDriver) (shadowMapSize : Z)
  (n i : nat) (pool : list FramebufferPtr) : option (list FramebufferPtr) :=
  match n with
  | O => Some pool
  | S n' =>
      match drv_createDepthOnlyFramebuffer drv i shadowMapSize with
      | None => None
      | Some fb =>
          createShadowMaps drv shadowMapSize n' (S i)
            (push_back pool (Some fb))
      end
  end.

(** [initializeShadowMaps]; the class constant [MaxShadowMaps] is
    declared in the header and is taken as a parameter. *)
Definition initializeShadowMaps (drv : ShadowDriver) (MaxShadowMaps : Z)
  (shadowMapSize shadowMapCount : Z) (r : UniverseRenderer) :
  bool * UniverseRenderer :=
  match m_renderContext r with
  | None => (false, r)
  | Some _ =>
      if negb (drv_shadowsSupported drv) then (false, r)
      else
        let shadowMapCount :=
          if MaxShadowMaps <? shadowMapCount then MaxShadowMaps
          else shadowMapCount in
        let shadowMapSize := Z.min (u32 (drv_maxTextureSize drv)) shadowMapSize in
        let r := set_shadowMaps [] (set_shadowsEnabled false r) in
        match createShadowMaps drv shadowMapSize (Z.to_nat shadowMapCount) 0 [] with
        | None => (false, set_shadowMaps [] r)
        | Some pool => (true, set_shadowMaps pool r)
        end
  end.

(** ** The view-set bracket *)

Definition collectLightSource (t : Time) (lights : list LightSourceItem)
  (entity : Entity) : list LightSourceItem :=
  match lightSource entity with
  | Some light =>
      if isVisible entity t then
        push_back lights
          {| lsi_lightSource := Some light; lsi_position := position entity t |}
      else lights
  | None => lights
  end.

Definition beginViewSet (universe : option Universe) (tsec : Time)
  (r : UniverseRenderer) : RenderStatus * UniverseRenderer :=
  match m_renderContext r with
  | None => (RendererUninitialized, r)
  | Some _ =>
      match universe with
      | None => (RendererBadParameter, r)
      | Some u =>
          match m_universe r with
          | Some _ => (RenderViewSetAlreadyStarted, r)
          | None =>
              let r := set_currentTime tsec (set_universe (Some u) r) in
              let sunItem :=
                {| lsi_lightSource := None; lsi_position := v3d_zero |} in
              let lights :=
                fold_left (collectLightSource (m_currentTime r))
                  (entities u) (push_back [] sunItem) in
              (RenderOk, set_lightSources lights r)
          end
      end
  end.

Definition endViewSet (r : UniverseRenderer) :
  RenderStatus * UniverseRenderer :=
  match m_universe r with
  | None => (RenderNoViewSet, r)
  | Some _ => (RenderOk, set_universe None r)
  end.

(** ** Depth sorting *)

Definition visibleItemPredicate (item0 item1 : VisibleItem) : bool :=
  F32.ltb (item_farDistance item0) (item_farDistance item1).

(** ** Light selection *)

(** The Sun has a null [lightSource] and casts shadows. *)
Definition castsShadows (light : VisibleLightSourceItem) : Z :=
  match vls_lightSource light with
  | None => 1
  | Some l => if light_isShadowCaster l then 1 else 0
  end.

Definition lightCastsShadowsPredicate (light0 light1 : VisibleLightSourceItem) :
  bool :=
  let shadow0 := castsShadows light0 in
  let shadow1 := castsShadows light1 in
  shadow0 >? shadow1.

(** The sub-pixel test of one light with a non-null light source. *)
Definition lightProjectedSize (rc : RenderContext)
  (cameraRelativePosition : Vector3d) (light : LightSource) : F32.float :=
  F32.div (F32.div (range light) (v3d_norm cameraRelativePosition))
    (rc_pixelSize rc).

(** The value of [cull] for one entry of the master list. *)
Definition lightCull (rc : RenderContext) (viewFrustum : Frustum)
  (cameraPosition : Vector3d) (lsi : LightSourceItem) : bool :=
  let cameraRelativePosition := v3d_sub (lsi_position lsi) cameraPosition in
  match lsi_lightSource lsi with
  | Some light =>
      let projectedSize := lightProjectedSize rc cameraRelativePosition light in
      if F32.ltb projectedSize F32.one then true
      else
        let cameraSpacePosition :=
          toCameraSpace (rc_cameraOrientation rc)
            (v3d_cast cameraRelativePosition) in
        if negb (frustum_intersects viewFrustum cameraSpacePosition
                   (range light))
        then true else false
  | None => false
  end.

Definition selectLight (rc : RenderContext) (viewFrustum : Frustum)
  (cameraPosition : Vector3d) (visible : list VisibleLightSourceItem)
  (lsi : LightSourceItem) : list VisibleLightSourceItem :=
  if negb (lightCull rc viewFrustum cameraPosition lsi) then
    push_back visible
      {| vls_lightSource := lsi_lightSource lsi;
         vls_position := lsi_position lsi;
         vls_cameraRelativePosition :=
           v3d_sub (lsi_position lsi) cameraPosition |}
  else visible.

Context {Sorter : StdSort}.

(** [buildVisibleLightSourceList]; the render context is dereferenced, so
    without one the call has no defined result. *)
Definition buildVisibleLightSourceList (cameraPosition : Vector3d)
  (r : UniverseRenderer) : option UniverseRenderer :=
  match m_renderContext r with
  | None => None
  | Some rc =>
      let visible :=
        fold_left (selectLight rc (m_viewFrustum r) cameraPosition)
          (m_lightSources r) [] in
      Some (set_visibleLightSources
              (sort lightCastsShadowsPredicate visible) r)
  end.

(** ** Visible items *)

(** The near distance once clamped by the clipping policy. *)
Definition clampNearDistance (policy : ClippingPolicy)
  (boundingRadius nearDistance : F32.float) : F32.float :=
  match policy with
  | PreserveDepthPrecision =>
      F32.max nearDistance
        (F32.mul (F32.mul boundingRadius MinimumNearFarRatio) F32.two)
  | PreventClipping
  | SplitToPreventClipping =>
      F32.max nearDistance MinimumNearPlaneDistance
  end.

Definition addVisibleItem (entity : Entity) (geometry : Geometry)
  (position cameraRelativePosition : Vector3d)
  (cameraSpacePosition : Vector3f) (orientation : Quaternionf)
  (nearAdjust : F32.float) (r : UniverseRenderer) : UniverseRenderer :=
  let boundingRadius := boundingSphereRadius geometry in
  let farDistance :=
    F32.add (F32.opp (v3f_z cameraSpacePosition)) boundingRadius in
  let nearDistance :=
    nearPlaneDistance geometry
      (viewDirection orientation cameraRelativePosition) in
  let nearDistance :=
    clampNearDistance (clippingPolicy geometry) boundingRadius nearDistance in
  let nearDistance := F32.mul nearDistance nearAdjust in
  let intersectsFrustum :=
    frustum_intersects (m_viewFrustum r) cameraSpacePosition boundingRadius in
  if F32.gtb farDistance F32.zero && F32.ltb nearDistance farDistance then
    let visibleItem :=
      {| item_entity := entity; item_geometry := geometry;
         item_position := position;
         item_cameraRelativePosition := cameraRelativePosition;
         item_orientation := orientation;
         item_boundingRadius := boundingRadius;
         item_nearDistance := nearDistance;
         item_farDistance := farDistance;
         item_outsideFrustum := negb intersectsFrustum |} in
    if ClippingPolicy_eqb (clippingPolicy geometry) SplitToPreventClipping
    then set_splittableItems (push_back (m_splittableItems r) visibleItem) r
    else set_visibleItems (push_back (m_visibleItems r) visibleItem) r
  else r.

(** The size test of [renderView] for one entity. *)
Definition entityProjectedSize (pixelSize : F32.float)
  (cameraRelativePosition : Vector3d) (g : Geometry) : F32.float :=
  F32.div (F32.div (boundingSphereRadius g) (v3d_norm cameraRelativePosition))
    pixelSize.

Definition sizeCull (pixelSize : F32.float) (cameraRelativePosition : Vector3d)
  (entity : Entity) : bool :=
  match geometry entity with
  | Some g =>
      F32.ltb (entityProjectedSize pixelSize cameraRelativePosition g) F32.half
  | None => true
  end.

Definition visitVisualizer (entity : Entity) (position : Vector3d)
  (cameraRelativePosition : Vector3d) (cameraSpacePosition : Vector3f)
  (nearPlaneFovAdjustment : F32.float) (r : UniverseRenderer)
  (visualizer : Visualizer) : UniverseRenderer :=
  if vis_isVisible visualizer then
    let f :=
      match depthAdjustment visualizer, geometry entity with
      | AdjustToFront, Some g =>
          let z := F32.sub (F32.opp (v3f_z cameraSpacePosition))
                     (boundingSphereRadius g) in
          Some (F32.div z (F32.opp (v3f_z cameraSpacePosition)))
      | _, _ => None
      end in
    let adjustedPosition :=
      match f with
      | Some f => v3d_scale cameraRelativePosition f
      | None => cameraRelativePosition
      end in
    let adjustedCameraSpacePosition :=
      match f with
      | Some f => v3f_scale cameraSpacePosition f
      | None => cameraSpacePosition
      end in
    addVisibleItem entity (vis_geometry visualizer) position adjustedPosition
      adjustedCameraSpacePosition
      (q_cast (vis_orientation visualizer (m_currentTime r)))
      nearPlaneFovAdjustment r
  else r.

(** The body of the scan over all entities. *)
Definition visitEntity (rc : RenderContext) (cameraPosition : Vector3d)
  (cameraOrientation : Quaterniond) (nearPlaneFovAdjustment : F32.float)
  (r : UniverseRenderer) (entity : Entity) : UniverseRenderer :=
  if isVisible entity (m_currentTime r) then
    let position := position entity (m_currentTime r) in
    let cameraRelativePosition := v3d_sub position cameraPosition in
    let sizeCull := sizeCull (rc_pixelSize rc) cameraRelativePosition entity in
    let cameraSpacePosition :=
      toCameraSpace (q_cast cameraOrientation)
        (v3d_cast cameraRelativePosition) in
    let r :=
      match sizeCull, geometry entity with
      | false, Some g =>
          addVisibleItem entity g position cameraRelativePosition
            cameraSpacePosition
            (q_cast (orientation entity (m_currentTime r)))
            nearPlaneFovAdjustment r
      | _, _ => r
      end in
    match visualizers entity with
    | [] => r
    | _ :: _ =>
        if m_visualizersEnabled r then
          fold_left
            (visitVisualizer entity position cameraRelativePosition
               cameraSpacePosition nearPlaneFovAdjustment)
            (visualizers entity) r
        else r
    end
  else r.

(** ** Depth-buffer spans *)

(** One iteration of the loop of [splitDepthBuffer], for the item at
    index [i]. *)
Definition splitItem (i : Z) (item : VisibleItem)
  (spans : list DepthBufferSpan) : list DepthBufferSpan :=
  let nearDistance := item_nearDistance item in
  match back spans with
  | None =>
      push_back spans
        {| backItemIndex := u32 i; itemCount := 1;
           span_nearDistance := nearDistance;
           span_farDistance := item_farDistance item |}
  | Some span =>
      let isDisjoint :=
        F32.ltb (item_farDistance item) (span_nearDistance span) in
      if isDisjoint then
        let emptySpan :=
          {| backItemIndex := u32 i; itemCount := 0;
             span_nearDistance := item_farDistance item;
             span_farDistance := span_nearDistance span |} in
        let newSpan :=
          {| backItemIndex := u32 i; itemCount := 1;
             span_nearDistance := nearDistance;
             span_farDistance := item_farDistance item |} in
        push_back (push_back spans emptySpan) newSpan
      else
        push_back (removelast spans)
          {| backItemIndex := backItemIndex span;
             itemCount := u32 (itemCount span + 1);
             span_nearDistance :=
               if F32.ltb nearDistance (span_nearDistance span)
               then nearDistance else span_nearDistance span;
             span_farDistance := span_farDistance span |}
  end.

(** The loop [for (i = n - 1; i >= 0; --i)]: [n] items remain in front
    of the ones already placed. *)
Fixpoint splitLoop (n : nat) (items : list VisibleItem)
  (spans : list DepthBufferSpan) : list DepthBufferSpan :=
  match n with
  | O => spans
  | S i =>
      match nth_error items i with
      | Some item => splitLoop i items (splitItem (Z.of_nat i) item spans)
      | None => spans
      end
  end.

Definition splitDepthBufferSpans (items : list VisibleItem) :
  list DepthBufferSpan :=
  splitLoop (Z.to_nat (int_of_size (length items))) items [].

Definition splitDepthBuffer (r : UniverseRenderer) : UniverseRenderer :=
  set_depthBufferSpans (splitDepthBufferSpans (m_visibleItems r)) r.

(** The inner loop of [coalesceDepthBuffer].  [nearJ] is the near
    distance of span [j] and [rest] holds the spans after index [j]; the
    result is the item count, the near distance of the last span taken
    in, and the spans from the next value of [i] on. *)
Fixpoint coalesceInner (farDistance : F32.float) (itemCount0 : Z)
  (nearJ : F32.float) (rest : list DepthBufferSpan) :
  Z * F32.float * list DepthBufferSpan :=
  match rest with
  | [] => (itemCount0, nearJ, [])
  | next :: rest' =>
      if F32.ltb (F32.div (span_nearDistance next) farDistance)
           PreferredNearFarRatio
      then (itemCount0, nearJ, rest)
      else
        coalesceInner farDistance (u32 (itemCount0 + itemCount next))
          (span_nearDistance next) rest'
  end.

(** The outer loop; [spans] are the spans from index [i] on.  Every
    round consumes at least one span, so as many rounds as there are
    spans are enough. *)
Fixpoint coalesceLoop (rounds : nat) (spans merged : list DepthBufferSpan) :
  list DepthBufferSpan :=
  match rounds, spans with
  | _, [] => merged
  | O, _ :: _ => merged
  | S rounds', first :: rest =>
      let '(count, near, rest') :=
        coalesceInner (span_farDistance first) (itemCount first)
          (span_nearDistance first) rest in
      coalesceLoop rounds' rest'
        (push_back merged
           {| backItemIndex := backItemIndex first; itemCount := count;
              span_nearDistance := near;
              span_farDistance := span_farDistance first |})
  end.

Definition coalesceDepthBufferSpans (spans : list DepthBufferSpan) :
  list DepthBufferSpan :=
  coalesceLoop (length spans) spans [].

Definition coalesceDepthBuffer (r : UniverseRenderer) : UniverseRenderer :=
  set_mergedDepthBufferSpans
    (coalesceDepthBufferSpans (m_depthBufferSpans r)) r.

(** A span without items, as the extension for splittable geometry
    builds them. *)
Definition syntheticSpan (nearDistance farDistance : F32.float) :
  DepthBufferSpan :=
  {| backItemIndex := 0; itemCount := 0;
     span_nearDistance := nearDistance; span_farDistance := farDistance |}.

(** The loop [while (merged.back().nearDistance > projection.nearDistance())].
    It need not terminate; [fuel] bounds the number of tests of the
    condition, and [None] is returned when it runs out (or when [back()]
    is read on an empty vector). *)
Fixpoint addFrontSpans (fuel : nat) (projNear : F32.float)
  (merged : list DepthBufferSpan) : option (list DepthBufferSpan) :=
  match fuel with
  | O => None
  | S fuel' =>
      match back merged with
      | None => None
      | Some last =>
          if F32.gtb (span_nearDistance last) projNear then
            let farDistance := span_nearDistance last in
            let nearDistance :=
              F32.max projNear (F32.div farDistance MaxFarNearRatio) in
            addFrontSpans fuel' projNear
              (push_back merged (syntheticSpan nearDistance farDistance))
          else Some merged
      end
  end.

(** The first part of the extension: the furthest span. *)
Definition addBackSpan (projNear projFar : F32.float)
  (splittable : list VisibleItem) (spans merged : list DepthBufferSpan) :
  option (list DepthBufferSpan) :=
  match front splittable with
  | None => None
  | Some firstSplittable =>
      let furthestDistance :=
        F32.min (item_farDistance firstSplittable) projFar in
      match spans with
      | [] =>
          let farDistance := projFar in
          let nearDistance :=
            F32.max projNear (F32.div farDistance MaxFarNearRatio) in
          Some (push_back merged (syntheticSpan nearDistance farDistance))
      | _ :: _ =>
          match front merged with
          | None => None
          | Some frontSpan =>
              if F32.gtb furthestDistance (span_farDistance frontSpan) then
                Some (syntheticSpan (span_farDistance frontSpan)
                        furthestDistance :: merged)
              else Some merged
          end
      end
  end.

(** The last part: one more span behind everything. *)
Definition addOuterBackSpan (merged : list DepthBufferSpan) :
  option (list DepthBufferSpan) :=
  match front merged with
  | None => None
  | Some frontSpan =>
      let nearDistance := span_farDistance frontSpan in
      Some (syntheticSpan nearDistance (F32.mul nearDistance MaxFarNearRatio)
              :: merged)
  end.

(** The block [if (!m_splittableItems.empty()) { ... }] of [renderView]. *)
Definition extendForSplittable (fuel : nat) (projNear projFar : F32.float)
  (splittable : list VisibleItem) (spans merged : list DepthBufferSpan) :
  option (list DepthBufferSpan) :=
  match splittable with
  | [] => Some merged
  | _ :: _ =>
      match addBackSpan projNear projFar splittable spans merged with
      | None => None
      | Some merged =>
          match addFrontSpans fuel projNear merged with
          | None => None
          | Some merged => addOuterBackSpan merged
          end
      end
  end.

(** ** renderView *)

(** The arguments of [renderView] that take part in visibility and
    partitioning. *)
Record View : Type := {
  cameraPosition : Vector3d;
  cameraOrientation : Quaterniond;
  projection : PlanarProjection;
  viewport : Viewport
}.

(** [renderView] up to the point where the spans are handed to the GL
    driver.  Drawing the sky layers and the spans changes driver state
    only.  [fuel] bounds the front-span loop. *)
Definition renderView (fuel : nat) (view : View) (r : UniverseRenderer) :
  option (RenderStatus * UniverseRenderer) :=
  match m_universe r with
  | None => Some (RenderNoViewSet, r)
  | Some universe =>
      match m_renderContext r with
      | None => None
      | Some rc =>
          let rc :=
            {| rc_cameraOrientation := q_cast (cameraOrientation view);
               rc_pixelSize := pixelSizeOf (projection view) (viewport view) |} in
          let r := set_renderContext (Some rc) r in
          let r := set_viewFrustum (proj_frustum (projection view)) r in
          let nearPlaneFovAdjustment :=
            nearPlaneFovAdjustmentOf (projection view) (viewport view) in
          let r := set_visibleItems [] r in
          let r := set_splittableItems [] r in
          match buildVisibleLightSourceList (cameraPosition view) r with
          | None => None
          | Some r =>
              let r :=
                fold_left
                  (visitEntity rc (cameraPosition view)
                     (cameraOrientation view) nearPlaneFovAdjustment)
                  (entities universe) r in
              let r :=
                set_visibleItems
                  (sort visibleItemPredicate (m_visibleItems r)) r in
              let r :=
                set_splittableItems
                  (sort visibleItemPredicate (m_splittableItems r)) r in
              let r := splitDepthBuffer r in
              let r := coalesceDepthBuffer r in
              match
                extendForSplittable fuel
                  (proj_nearDistance (projection view))
                  (proj_farDistance (projection view))
                  (m_splittableItems r) (m_depthBufferSpans r)
                  (m_mergedDepthBufferSpans r)
              with
              | None => None
              | Some merged =>
                  Some (RenderOk, set_mergedDepthBufferSpans merged r)
              end
          end
      end
  end.

End Scene.

(** * Properties *)

(** ** The order on binary32 values

  [SFcompare] is a lexicographic comparison of sign, exponent and
  mantissa; on values that are not NaN it is a total preorder. *)

Module F32Order.
Import F32.

Lemma pcompare_eq (m1 m2 : positive) :
  Pos.compare_cont Eq m1 m2 = Pos.compare m1 m2.
Proof. reflexivity. Qed.

#[local] Ltac order_cases :=
  repeat match goal with
         | |- context [Z.compare ?a ?b] =>
             destruct (Z.compare_spec a b)
         | |- context [Pos.compare ?a ?b] =>
             destruct (Pos.compare_spec a b)
         | H : context [Z.compare ?a ?b] |- _ =>
             destruct (Z.compare_spec a b)
         | H : context [Pos.compare ?a ?b] |- _ =>
             destruct (Pos.compare_spec a b)
         end;
  simpl in *; try congruence; try lia.

#[local] Ltac float_cases :=
  unfold ltb, leb, gtb, eqb, SFltb, SFleb, SFeqb, SFcompare, is_nan in *;
  repeat match goal with
         | x : float |- _ => destruct x
         | x : spec_float |- _ => destruct x
         | s : bool |- _ => destruct s
         end;
  simpl in *; try congruence;
  rewrite ?pcompare_eq in *; order_cases.

Lemma ltb_irrefl (x : float) : ltb x x = false.
Proof. float_cases. Qed.

Lemma ltb_asym (x y : float) : ltb x y = true -> ltb y x = false.
Proof. intros H. float_cases. Qed.

Lemma ltb_trans (x y z : float) :
  ltb x y = true -> ltb y z = true -> ltb x z = true.
Proof. intros H1 H2. float_cases. Qed.

Lemma ltb_leb (x y : float) : ltb x y = true -> leb x y = true.
Proof. intros H. float_cases. Qed.

Lemma leb_trans (x y z : float) :
  leb x y = true -> leb y z = true -> leb x z = true.
Proof. intros H1 H2. float_cases. Qed.

Lemma ltb_leb_trans (x y z : float) :
  ltb x y = true -> leb y z = true -> ltb x z = true.
Proof. intros H1 H2. float_cases. Qed.

Lemma leb_ltb_trans (x y z : float) :
  leb x y = true -> ltb y z = true -> ltb x z = true.
Proof. intros H1 H2. float_cases. Qed.

Lemma leb_not_ltb (x y : float) : leb x y = true -> ltb y x = false.
Proof. intros H. float_cases. Qed.

Lemma not_ltb_leb (x y : float) :
  is_nan x = false -> is_nan y = false -> ltb x y = false -> leb y x = true.
Proof. intros Hx Hy H. float_cases. Qed.

Lemma leb_refl (x : float) : is_nan x = false -> leb x x = true.
Proof. intros H. float_cases. Qed.

Lemma ltb_not_nan_l (x y : float) : ltb x y = true -> is_nan x = false.
Proof. intros H. float_cases. Qed.

Lemma ltb_not_nan_r (x y : float) : ltb x y = true -> is_nan y = false.
Proof. intros H. float_cases. Qed.

Lemma leb_not_nan_l (x y : float) : leb x y = true -> is_nan x = false.
Proof. intros H. float_cases. Qed.

Lemma leb_not_nan_r (x y : float) : leb x y = true -> is_nan y = false.
Proof. intros H. float_cases. Qed.

(** [std::max] and [std::min] return one of their arguments and bound
    the other one in the sense of [<]. *)
Lemma max_not_below_r (a b : float) : ltb (max a b) b = false.
Proof.
  unfold max. destruct (ltb a b) eqn:E; [apply ltb_irrefl | exact E].
Qed.

Lemma max_not_below_l (a b : float) : ltb (max a b) a = false.
Proof.
  unfold max. destruct (ltb a b) eqn:E;
    [apply ltb_asym; exact E | apply ltb_irrefl].
Qed.


Lemma min_not_above_r (a b : float) : ltb b (min a b) = false.
Proof.
  unfold min. destruct (ltb b a) eqn:E; [apply ltb_irrefl | exact E].
Qed.

End F32Order.

(** ** Dividing a binary32 number by [MaxFarNearRatio]

    The front-span loop divides a near distance by 10000 until it is no
    longer above the projection's near distance.  The quotient of a
    finite binary32 number [m * 2^e] by 10000 is zero or a finite number
    whose magnitude [digits m + e] is smaller by at least 12: the exact
    quotient is below [2^(digits m + e - 13)], and rounding to nearest
    cannot take it above that power of two. *)

Unset Implicit Arguments.

Lemma digits2_bounds (p : positive) :
  2 ^ (Zpos (digits2_pos p) - 1) <= Zpos p < 2 ^ Zpos (digits2_pos p).
Proof.
  induction p as [p IH|p IH|]; simpl digits2_pos.
  - rewrite Pos2Z.inj_succ, Pos2Z.inj_xI.
    replace (Z.succ (Zpos (digits2_pos p)) - 1) with (Z.succ (Zpos (digits2_pos p) - 1)) by lia.
    rewrite !Z.pow_succ_r by lia.
    generalize dependent (2 ^ (Zpos (digits2_pos p) - 1)).
    generalize (2 ^ Zpos (digits2_pos p)). intros; lia.
  - rewrite Pos2Z.inj_succ. change (Zpos p~0) with (2 * Zpos p).
    replace (Z.succ (Zpos (digits2_pos p)) - 1) with (Z.succ (Zpos (digits2_pos p) - 1)) by lia.
    rewrite !Z.pow_succ_r by lia.
    generalize dependent (2 ^ (Zpos (digits2_pos p) - 1)).
    generalize (2 ^ Zpos (digits2_pos p)). intros; lia.
  - simpl. lia.
Qed.

Lemma shr_1_shiftr (mrs : shr_record) :
  0 <= shr_m mrs ->
  shr_m (shr_1 mrs) = Z.shiftr (shr_m mrs) 1 /\
  shr_r (shr_1 mrs) = Z.testbit (shr_m mrs) 0.
Proof.
  destruct mrs as [m r s]. simpl. intros Hm.
  destruct m as [|p|p]; [split; reflexivity| |lia].
  destruct p; split; reflexivity.
Qed.

Lemma iter_shr_1 (p : positive) :
  forall mrs,
    0 <= shr_m mrs ->
    shr_m (iter_pos shr_1 p mrs) = Z.shiftr (shr_m mrs) (Zpos p) /\
    shr_r (iter_pos shr_1 p mrs) = Z.testbit (shr_m mrs) (Zpos p - 1).
Proof.
  assert (Hstep : forall a b mrs mrs1 mrs2,
            0 < a -> 0 < b -> 0 <= shr_m mrs ->
            shr_m mrs1 = Z.shiftr (shr_m mrs) a ->
            shr_m mrs2 = Z.shiftr (shr_m mrs1) b /\
            shr_r mrs2 = Z.testbit (shr_m mrs1) (b - 1) ->
            shr_m mrs2 = Z.shiftr (shr_m mrs) (a + b) /\
            shr_r mrs2 = Z.testbit (shr_m mrs) (a + b - 1)).
  { intros a b mrs mrs1 mrs2 Ha Hb Hm H1 [H2 H3]. rewrite H1 in H2, H3.
    rewrite Z.shiftr_shiftr in H2 by lia. split; [exact H2|].
    rewrite H3, Z.shiftr_spec by lia. f_equal. lia. }
  assert (Hnn : forall a m, 0 <= m -> 0 <= Z.shiftr m a).
  { intros a m Hm. apply Z.shiftr_nonneg. exact Hm. }
  induction p as [p IH|p IH|]; intros mrs Hm; simpl iter_pos.
  - pose proof (shr_1_shiftr mrs Hm) as [H1 H1r].
    assert (Hm1 : 0 <= shr_m (shr_1 mrs)) by (rewrite H1; apply Hnn, Hm).
    pose proof (IH _ Hm1) as H2.
    assert (Hm2 : 0 <= shr_m (iter_pos shr_1 p (shr_1 mrs)))
      by (rewrite (proj1 H2); apply Hnn, Hm1).
    pose proof (IH _ Hm2) as H3.
    pose proof (Hstep 1 (Zpos p) mrs _ _ ltac:(lia) ltac:(lia) Hm H1 H2) as H12.
    pose proof (Hstep (1 + Zpos p) (Zpos p) mrs _ _ ltac:(lia) ltac:(lia) Hm (proj1 H12) H3) as H.
    rewrite Pos2Z.inj_xI.
    replace (2 * Zpos p + 1) with (1 + Zpos p + Zpos p) by lia. exact H.
  - pose proof (IH _ Hm) as H2.
    assert (Hm2 : 0 <= shr_m (iter_pos shr_1 p mrs))
      by (rewrite (proj1 H2); apply Hnn, Hm).
    pose proof (IH _ Hm2) as H3.
    pose proof (Hstep (Zpos p) (Zpos p) mrs _ _ ltac:(lia) ltac:(lia) Hm (proj1 H2) H3) as H.
    change (Zpos p~0) with (2 * Zpos p).
    replace (2 * Zpos p) with (Zpos p + Zpos p) by lia. exact H.
  - apply shr_1_shiftr. exact Hm.
Qed.

Lemma fexp32 (z : Z) : fexp 24 128 z = Z.max (z - 24) (-149).
Proof. reflexivity. Qed.

Lemma shr_m_of_loc (m : Z) (l : location) : shr_m (shr_record_of_loc m l) = m.
Proof. destruct l as [|[]]; reflexivity. Qed.

Lemma loc_of_record_of_loc (m : Z) (l : location) :
  loc_of_shr_record (shr_record_of_loc m l) = l.
Proof. destruct l as [|[]]; reflexivity. Qed.

Lemma shr_fexp_spec (m e : Z) (l : location) :
  0 <= m ->
  let n := fexp 24 128 (Zdigits2 m + e) - e in
  (n <= 0 /\ shr_fexp 24 128 m e l = (shr_record_of_loc m l, e)) \/
  (0 < n /\
   exists mrs, shr_fexp 24 128 m e l = (mrs, e + n) /\
     shr_m mrs = Z.shiftr m n /\ shr_r mrs = Z.testbit m (n - 1)).
Proof.
  intros Hm n. unfold shr_fexp, shr. fold n.
  destruct n as [|p|p] eqn:E.
  - left. split; [lia|reflexivity].
  - right. split; [lia|]. eexists. split; [reflexivity|].
    pose proof (iter_shr_1 p (shr_record_of_loc m l)) as H.
    rewrite shr_m_of_loc in H. apply H. exact Hm.
  - left. split; [lia|reflexivity].
Qed.

Lemma round_spec (mx : Z) (lx : location) :
  round_nearest_even mx lx = mx \/
  (round_nearest_even mx lx = mx + 1 /\
   (lx = loc_Inexact Eq \/ lx = loc_Inexact Gt)).
Proof.
  destruct lx as [|[]]; simpl; auto.
  destruct (Z.even mx); auto.
Qed.

Lemma loc_round_bit (mrs : shr_record) :
  loc_of_shr_record mrs = loc_Inexact Eq \/
  loc_of_shr_record mrs = loc_Inexact Gt ->
  shr_r mrs = true.
Proof.
  destruct mrs as [m [] []]; simpl; intros [H|H]; congruence.
Qed.

(** [m] is at most [2^J]; for negative [J] it is zero. *)
Definition below_pow (J m : Z) : Prop := (0 <= J /\ m <= 2 ^ J) \/ m = 0.

Lemma shiftr_below_pow (J m n : Z) :
  0 <= m -> 0 < n -> below_pow J m -> below_pow (J - n) (Z.shiftr m n).
Proof.
  intros Hm Hn [[HJ Hle]|Hz]; [|right; rewrite Hz; apply Z.shiftr_0_l].
  rewrite Z.shiftr_div_pow2 by lia.
  destruct (Z_lt_le_dec J n) as [Hlt|Hge].
  - right. apply Z.div_small. split; [exact Hm|].
    apply Z.le_lt_trans with (m := 2 ^ J); [exact Hle|].
    apply Z.pow_lt_mono_r; lia.
  - left. split; [lia|].
    apply Z.div_le_upper_bound; [apply Z.pow_pos_nonneg; lia|].
    rewrite <- Z.pow_add_r by lia. replace (n + (J - n)) with J by lia.
    exact Hle.
Qed.

Lemma round_bit_lower (q n : Z) :
  0 <= q -> 0 < n -> Z.testbit q (n - 1) = true ->
  (2 * Z.shiftr q n + 1) * 2 ^ (n - 1) <= q.
Proof.
  intros Hq Hn Hb.
  apply Z.testbit_true in Hb; [|lia].
  rewrite Z.shiftr_div_pow2 by lia.
  set (h := q / 2 ^ (n - 1)) in *.
  assert (Hh : q / 2 ^ n = h / 2).
  { assert (Hp : 2 ^ n = 2 ^ (n - 1) * 2).
    { replace n with (Z.succ (n - 1)) at 1 by lia.
      rewrite Z.pow_succ_r by lia. lia. }
    unfold h. rewrite Z.div_div by (try apply Z.pow_pos_nonneg; lia).
    rewrite Hp. reflexivity. }
  rewrite Hh.
  assert (Hh2 : h = 2 * (h / 2) + 1).
  { pose proof (Z.div_mod h 2 ltac:(lia)) as Hdm. rewrite Hb in Hdm.
    exact Hdm. }
  rewrite <- Hh2. unfold h.
  rewrite Z.mul_comm. apply Z.mul_div_le. apply Z.pow_pos_nonneg; lia.
Qed.

Lemma odd_below_pow (J a : Z) :
  0 <= a -> 0 <= J -> 2 * a + 1 < 2 ^ (J + 1) -> a + 1 <= 2 ^ J.
Proof.
  intros Ha HJ H. replace (J + 1) with (Z.succ J) in H by lia.
  rewrite Z.pow_succ_r in H by lia. lia.
Qed.

Lemma pow2_le_inv (a b : Z) : 0 <= b -> 2 ^ a <= 2 ^ b -> a <= b.
Proof.
  intros Hb H. destruct (Z_le_gt_dec a b) as [Hle|Hgt]; [exact Hle|].
  assert (2 ^ b < 2 ^ a) by (apply Z.pow_lt_mono_r; lia). lia.
Qed.

Lemma pow2_lt_inv (a b : Z) : 0 <= b -> 2 ^ a < 2 ^ b -> a < b.
Proof.
  intros Hb H. destruct (Z_lt_ge_dec a b) as [Hlt|Hge]; [exact Hlt|].
  assert (2 ^ b <= 2 ^ a) by (apply Z.pow_le_mono_r; lia). lia.
Qed.

Lemma digits_below_pow (p : positive) (J : Z) :
  below_pow J (Zpos p) -> 0 <= J /\ Zpos (digits2_pos p) - 1 <= J.
Proof.
  intros [[HJ Hle]|H]; [|discriminate]. split; [exact HJ|].
  apply pow2_le_inv; [exact HJ|].
  pose proof (digits2_bounds p). lia.
Qed.

Lemma digits_lt_pow (p : positive) (J : Z) :
  0 <= J -> Zpos p < 2 ^ J -> Zpos (digits2_pos p) <= J.
Proof.
  intros HJ Hlt.
  assert (Zpos (digits2_pos p) - 1 < J); [|lia].
  apply pow2_lt_inv; [exact HJ|].
  pose proof (digits2_bounds p). lia.
Qed.

Lemma round_stage1 (q e' : Z) (l : location) (J : Z) :
  0 <= q ->
  ((0 <= J /\ q < 2 ^ J) \/ q = 0) ->
  (l = loc_Inexact Eq \/ l = loc_Inexact Gt ->
   0 <= J /\ 2 * q + 1 < 2 ^ (J + 1)) ->
  -149 <= e' ->
  e' <= fexp 24 128 (J + e' + 1) ->
  exists mrs e1,
    shr_fexp 24 128 q e' l = (mrs, e1) /\
    0 <= round_nearest_even (shr_m mrs) (loc_of_shr_record mrs) /\
    e' <= e1 /\ e1 <= fexp 24 128 (J + e' + 1) /\
    below_pow (J - (e1 - e'))
      (round_nearest_even (shr_m mrs) (loc_of_shr_record mrs)).
Proof.
  intros Hq HJ Hl He HF.
  destruct (shr_fexp_spec q e' l Hq) as [[Hn E1]|(Hn & mrs & E1 & Hm1 & Hr1)].
  - exists (shr_record_of_loc q l), e'. split; [exact E1|].
    rewrite shr_m_of_loc, loc_of_record_of_loc.
    replace (J - (e' - e')) with J by lia.
    destruct (round_spec q l) as [->|[-> Hup]].
    + repeat split; try lia. unfold below_pow. lia.
    + destruct (Hl Hup) as [HJ0 Hodd].
      repeat split; try lia. left. split; [exact HJ0|].
      apply odd_below_pow; assumption.
  - set (n := fexp 24 128 (Zdigits2 q + e') - e') in *.
    assert (Hqpos : 0 < q).
    { destruct (Z.eq_dec q 0) as [->|]; [|lia].
      exfalso. subst n. simpl Zdigits2 in Hn. rewrite fexp32 in Hn. lia. }
    destruct HJ as [[HJ0 HqJ]|]; [|lia].
    destruct q as [|p|p]; try lia.
    assert (Hd : Zpos (digits2_pos p) <= J) by (apply digits_lt_pow; assumption).
    assert (He1 : e' + n <= fexp 24 128 (J + e' + 1)).
    { subst n. simpl Zdigits2. rewrite !fexp32. rewrite fexp32 in HF. lia. }
    exists mrs, (e' + n). split; [exact E1|].
    replace (J - (e' + n - e')) with (J - n) by lia.
    assert (Hm1nn : 0 <= shr_m mrs)
      by (rewrite Hm1; apply Z.shiftr_nonneg; lia).
    assert (Hb1 : below_pow (J - n) (shr_m mrs)).
    { rewrite Hm1. apply shiftr_below_pow; [lia|exact Hn|].
      left. split; [exact HJ0|lia]. }
    destruct (round_spec (shr_m mrs) (loc_of_shr_record mrs)) as [->|[-> Hup]].
    + repeat split; try lia. exact Hb1.
    + apply loc_round_bit in Hup. rewrite Hr1 in Hup.
      pose proof (round_bit_lower (Zpos p) n ltac:(lia) Hn Hup) as Hlow.
      rewrite <- Hm1 in Hlow.
      repeat split; try lia. left.
      assert (Hlt : (2 * shr_m mrs + 1) * 2 ^ (n - 1) < 2 ^ J) by lia.
      assert (HnJ : n - 1 < J).
      { apply pow2_lt_inv; [exact HJ0|].
        assert (0 < 2 ^ (n - 1)) by (apply Z.pow_pos_nonneg; lia). nia. }
      split; [lia|]. apply odd_below_pow; [exact Hm1nn|lia|].
      replace (J - n + 1) with (J - (n - 1)) by lia.
      assert (Hsplit : 2 ^ J = 2 ^ (J - (n - 1)) * 2 ^ (n - 1)).
      { rewrite <- Z.pow_add_r by lia. f_equal. lia. }
      rewrite Hsplit in Hlt.
      apply Z.mul_lt_mono_pos_r in Hlt; [exact Hlt|].
      apply Z.pow_pos_nonneg; lia.
Qed.

Lemma round_stage2 (m2 e1 J1 F : Z) :
  0 <= m2 -> -149 <= e1 -> below_pow J1 m2 ->
  e1 <= F -> fexp 24 128 (J1 + e1 + 1) <= F ->
  exists mrs e3,
    shr_fexp 24 128 m2 e1 loc_Exact = (mrs, e3) /\
    0 <= shr_m mrs /\ e1 <= e3 /\ e3 <= F /\
    below_pow (J1 - (e3 - e1)) (shr_m mrs).
Proof.
  intros Hm He Hb HF1 HF2.
  destruct (shr_fexp_spec m2 e1 loc_Exact Hm)
    as [[Hn E]|(Hn & mrs & E & Hm3 & _)].
  - exists (shr_record_of_loc m2 loc_Exact), e1. split; [exact E|].
    simpl. replace (J1 - (e1 - e1)) with J1 by lia.
    repeat split; try lia. exact Hb.
  - set (n := fexp 24 128 (Zdigits2 m2 + e1) - e1) in *.
    exists mrs, (e1 + n). split; [exact E|].
    replace (J1 - (e1 + n - e1)) with (J1 - n) by lia.
    rewrite Hm3. split; [apply Z.shiftr_nonneg; exact Hm|].
    split; [lia|]. split; [|apply shiftr_below_pow; assumption].
    destruct m2 as [|p|p]; [|clear Hm|lia].
    + subst n. simpl Zdigits2 in Hn. rewrite fexp32 in Hn. lia.
    + destruct (digits_below_pow p J1 Hb) as [HJ Hd].
      subst n. simpl Zdigits2. simpl Zdigits2 in Hn.
      rewrite fexp32 in *. lia.
Qed.

Lemma round_aux_bound (s : bool) (q e' : Z) (l : location) (J : Z) :
  0 <= q ->
  ((0 <= J /\ q < 2 ^ J) \/ q = 0) ->
  (l = loc_Inexact Eq \/ l = loc_Inexact Gt ->
   0 <= J /\ 2 * q + 1 < 2 ^ (J + 1)) ->
  -149 <= e' ->
  e' <= fexp 24 128 (J + e' + 1) ->
  fexp 24 128 (J + e' + 1) <= 104 ->
  binary_round_aux 24 128 s q e' l = S754_zero s \/
  exists m3 e3,
    binary_round_aux 24 128 s q e' l = S754_finite s m3 e3 /\
    -149 <= e3 /\ Zpos (digits2_pos m3) + e3 <= J + e' + 1.
Proof.
  intros Hq HJ Hl He HF Hmax.
  destruct (round_stage1 q e' l J Hq HJ Hl He HF)
    as (mrs1 & e1 & E1 & Hm2 & He1 & HF1 & Hb2).
  set (m2 := round_nearest_even (shr_m mrs1) (loc_of_shr_record mrs1)) in *.
  destruct (round_stage2 m2 e1 (J - (e1 - e')) (fexp 24 128 (J + e' + 1))
              Hm2 ltac:(lia) Hb2 HF1)
    as (mrs3 & e3 & E3 & Hm3 & He3 & HF3 & Hb3).
  { replace (J - (e1 - e') + e1 + 1) with (J + e' + 1) by lia. lia. }
  unfold binary_round_aux. rewrite E1. fold m2. rewrite E3.
  destruct (shr_m mrs3) as [|p|p]; [left; reflexivity| |lia].
  right. exists p, e3.
  assert (Hle : (e3 <=? 128 - 24) = true) by (apply Z.leb_le; lia).
  rewrite Hle. split; [reflexivity|]. split; [lia|].
  destruct (digits_below_pow p _ Hb3) as [_ Hd]. lia.
Qed.

Lemma new_location_half (r : Z) :
  new_location 10240000 r = loc_Inexact Eq \/
  new_location 10240000 r = loc_Inexact Gt ->
  10240000 <= 2 * r.
Proof.
  unfold new_location. change (Z.even 10240000) with true.
  unfold new_location_even. destruct (r =? 0); [intros [H|H]; discriminate|].
  destruct (Z.compare_spec (2 * r) 10240000) as [H|H|H];
    intros [H'|H']; try discriminate; lia.
Qed.

Lemma div_by_ratio (s : bool) (m : positive) (e : Z) :
  -149 <= e -> Zpos (digits2_pos m) + e <= 128 ->
  SFdiv 24 128 (S754_finite s m e) (S754_finite false 10240000 (-10)) =
    S754_zero s \/
  exists m' e',
    SFdiv 24 128 (S754_finite s m e) (S754_finite false 10240000 (-10)) =
      S754_finite s m' e' /\
    -149 <= e' /\
    Zpos (digits2_pos m') + e' <= Zpos (digits2_pos m) + e - 12.
Proof.
  intros He Hmag. unfold SFdiv, SFdiv_core_binary.
  replace (xorb s false) with s by (destruct s; reflexivity).
  simpl Zdigits2. set (d := Zpos (digits2_pos m)) in *.
  change (Zpos (digits2_pos 10240000)) with 24.
  set (e' := Z.min (fexp 24 128 (d + e - (24 + -10))) (e - -10)).
  assert (He' : -149 <= e' /\ e' <= e + 10 /\
                e' <= fexp 24 128 (d + e - 14)).
  { subst e'. rewrite !fexp32. replace (d + e - (24 + -10)) with (d + e - 14) by lia. lia. }
  set (sh := e - -10 - e').
  assert (Hsh : 0 <= sh) by (subst sh; lia).
  set (m' := match sh with
             | Z0 => Zpos m
             | Zpos _ => Z.shiftl (Zpos m) sh
             | Zneg _ => 0
             end).
  assert (Hm' : m' = Zpos m * 2 ^ sh).
  { subst m'. destruct sh as [|p|p] eqn:E; [simpl; lia| |lia].
    rewrite Z.shiftl_mul_pow2 by lia. reflexivity. }
  pose proof (digits2_bounds m) as Hd. fold d in Hd.
  assert (Hlt : m' < 2 ^ (d + sh)).
  { rewrite Hm', Z.pow_add_r by (subst d; lia).
    apply Z.mul_lt_mono_pos_r; [apply Z.pow_pos_nonneg; lia|lia]. }
  pose proof (Z_div_mod m' 10240000 ltac:(lia)) as Hdiv.
  destruct (Z.div_eucl m' 10240000) as [q r]. destruct Hdiv as [Heq Hr].
  assert (Hq : 0 <= q) by nia.
  assert (H23 : 2 ^ 23 = 8388608) by reflexivity.
  assert (Hpow : forall J, 0 <= J -> 2 ^ (J + 23) = 2 ^ J * 8388608).
  { intros J HJ. rewrite Z.pow_add_r by lia. rewrite H23. reflexivity. }
  set (J := d + sh - 23).
  assert (HJe : J + e' + 1 = d + e - 12) by (subst J sh; lia).
  destruct (round_aux_bound s q e' (new_location 10240000 r) J) as [Hz|Hf].
  - exact Hq.
  - destruct (Z_le_gt_dec 0 J) as [HJ|HJ].
    + left. split; [exact HJ|].
      replace (d + sh) with (J + 23) in Hlt by (subst J; lia).
      rewrite Hpow in Hlt by exact HJ.
      assert (0 < 2 ^ J) by (apply Z.pow_pos_nonneg; lia). nia.
    + right.
      assert (2 ^ (d + sh) <= 2 ^ 22).
      { apply Z.pow_le_mono_r; [lia|subst J; lia]. }
      change (2 ^ 22) with 4194304 in *. nia.
  - intros Hl. apply new_location_half in Hl.
    assert (Hodd : (2 * q + 1) * 10240000 < 2 * 2 ^ (d + sh)) by lia.
    destruct (Z_le_gt_dec 0 J) as [HJ|HJ].
    + split; [exact HJ|].
      replace (d + sh) with (J + 23) in Hodd by (subst J; lia).
      rewrite Hpow in Hodd by exact HJ.
      replace (J + 1) with (Z.succ J) by lia. rewrite Z.pow_succ_r by lia.
      assert (0 < 2 ^ J) by (apply Z.pow_pos_nonneg; lia). nia.
    + exfalso.
      assert (2 ^ (d + sh) <= 2 ^ 22).
      { apply Z.pow_le_mono_r; [lia|subst J; lia]. }
      change (2 ^ 22) with 4194304 in *. nia.
  - lia.
  - rewrite HJe. rewrite !fexp32 in *. lia.
  - rewrite HJe. rewrite fexp32. lia.
  - left. exact Hz.
  - right. destruct Hf as (m3 & e3 & E & H1 & H2).
    exists m3, e3. split; [exact E|]. split; [exact H1|]. lia.
Qed.




Set Implicit Arguments.


(** ** Vectors as lists: the two ends *)

Lemma back_push_back {A : Type} (l : list A) (x : A) :
  back (push_back l x) = Some x.
Proof.
  unfold push_back. induction l as [|a l IH]; [reflexivity|].
  simpl. destruct (l ++ [x]) eqn:E; [destruct l; discriminate|exact IH].
Qed.

Lemma back_Some_inv {A : Type} (l : list A) (x : A) :
  back l = Some x -> exists l', l = push_back l' x.
Proof.
  unfold push_back. induction l as [|a l IH]; [discriminate|].
  destruct l as [|b l].
  - simpl. intros [= ->]. exists []. reflexivity.
  - intros H. destruct (IH H) as [l' E]. exists (a :: l'). simpl.
    now rewrite <- E.
Qed.

Lemma back_None_inv {A : Type} (l : list A) : back l = None -> l = [].
Proof.
  induction l as [|a l IH]; [reflexivity|].
  destruct l as [|b l]; [discriminate|]. intros H.
  specialize (IH H). discriminate.
Qed.

Lemma removelast_push_back {A : Type} (l : list A) (x : A) :
  removelast (push_back l x) = l.
Proof. unfold push_back. apply removelast_last. Qed.

Lemma front_push_back {A : Type} (l : list A) (x y : A) :
  front l = Some y -> front (push_back l x) = Some y.
Proof. destruct l; [discriminate|]. simpl. auto. Qed.

(** ** Properties of span lists *)

Definition sumItemCount (spans : list DepthBufferSpan) : Z :=
  fold_right (fun s acc => itemCount s + acc) 0 spans.

(** Consecutive spans share a boundary: each span ends (far side) where
    its predecessor in the list begins (near side). *)
Fixpoint chained (spans : list DepthBufferSpan) : Prop :=
  match spans with
  | s :: (t :: _) as rest =>
      span_farDistance t = span_nearDistance s /\ chained rest
  | _ => True
  end.

(** A span is a proper interval: its near distance is below its far
    distance. *)
Definition span_proper (s : DepthBufferSpan) : Prop :=
  F32.ltb (span_nearDistance s) (span_farDistance s) = true.

(** Spans later in the list lie wholly in front of earlier ones. *)
Definition back_to_front (spans : list DepthBufferSpan) : Prop :=
  ForallOrdPairs
    (fun s t => F32.leb (span_farDistance t) (span_nearDistance s) = true)
    spans.

Lemma sumItemCount_app (l1 l2 : list DepthBufferSpan) :
  sumItemCount (l1 ++ l2) = sumItemCount l1 + sumItemCount l2.
Proof. induction l1 as [|a l1 IH]; simpl; [reflexivity|]. rewrite IH. lia. Qed.

Lemma sumItemCount_push_back (l : list DepthBufferSpan) (s : DepthBufferSpan) :
  sumItemCount (push_back l s) = sumItemCount l + itemCount s.
Proof. unfold push_back. rewrite sumItemCount_app. simpl. lia. Qed.

Lemma chained_push_back (l : list DepthBufferSpan) (x : DepthBufferSpan) :
  chained (push_back l x) <->
  chained l /\
  (forall b, back l = Some b -> span_farDistance x = span_nearDistance b).
Proof.
  unfold push_back. induction l as [|a l IH].
  - simpl. split; [intros _; split; [exact I|discriminate]|intros _; exact I].
  - destruct l as [|b l].
    + simpl. split.
      * intros [H _]. split; [exact I|]. intros c [= <-]. exact H.
      * intros [_ H]. split; [apply H; reflexivity|exact I].
    + change (chained ((a :: b :: l) ++ [x]))
        with (span_farDistance b = span_nearDistance a /\
              chained ((b :: l) ++ [x])).
      change (chained (a :: b :: l))
        with (span_farDistance b = span_nearDistance a /\ chained (b :: l)).
      change (back (a :: b :: l)) with (back (b :: l)).
      rewrite IH. tauto.
Qed.

Lemma chained_back_to_front (spans : list DepthBufferSpan) :
  chained spans -> Forall span_proper spans -> back_to_front spans.
Proof.
  unfold back_to_front.
  induction spans as [|s spans IH]; intros Hc Hp; [constructor|].
  inversion Hp as [|? ? Hs Hp']; subst.
  destruct spans as [|t spans]; [constructor; constructor|].
  destruct Hc as [Hst Hc]. specialize (IH Hc Hp').
  constructor; [|exact IH].
  inversion IH as [|? ? Ht _]; subst.
  inversion Hp' as [|? ? Htp _]; subst.
  assert (Hle : F32.leb (span_farDistance t) (span_nearDistance s) = true).
  { rewrite Hst. apply F32Order.leb_refl.
    exact (F32Order.ltb_not_nan_l _ _ Hs). }
  constructor; [exact Hle|].
  rewrite Forall_forall in Ht |- *. intros u Hu.
  apply F32Order.leb_trans with (y := span_nearDistance t); [apply Ht, Hu|].
  apply F32Order.ltb_leb.
  apply F32Order.ltb_leb_trans with (y := span_farDistance t); assumption.
Qed.

(** ** splitDepthBuffer *)

Section SplitDepthBuffer.
Context {C : Collaborators}.

(** What [addVisibleItem] guarantees of every item it stores. *)
Definition item_proper (item : VisibleItem) : Prop :=
  F32.gtb (item_farDistance item) F32.zero = true /\
  F32.ltb (item_nearDistance item) (item_farDistance item) = true.

(** Ascending by [farDistance]. *)
Definition sorted_by_farDistance (items : list VisibleItem) : Prop :=
  StronglySorted
    (fun a b => F32.leb (item_farDistance a) (item_farDistance b) = true)
    items.

Lemma splitItem_cases (i : Z) (item : VisibleItem)
  (spans : list DepthBufferSpan) :
  (spans = [] /\
   splitItem i item spans =
     [{| backItemIndex := u32 i; itemCount := 1;
         span_nearDistance := item_nearDistance item;
         span_farDistance := item_farDistance item |}]) \/
  (exists l b, spans = push_back l b /\
     F32.ltb (item_farDistance item) (span_nearDistance b) = true /\
     splitItem i item spans =
       push_back (push_back spans
         {| backItemIndex := u32 i; itemCount := 0;
            span_nearDistance := item_farDistance item;
            span_farDistance := span_nearDistance b |})
         {| backItemIndex := u32 i; itemCount := 1;
            span_nearDistance := item_nearDistance item;
            span_farDistance := item_farDistance item |}) \/
  (exists l b, spans = push_back l b /\
     F32.ltb (item_farDistance item) (span_nearDistance b) = false /\
     splitItem i item spans =
       push_back l
         {| backItemIndex := backItemIndex b;
            itemCount := u32 (itemCount b + 1);
            span_nearDistance :=
              if F32.ltb (item_nearDistance item) (span_nearDistance b)
              then item_nearDistance item else span_nearDistance b;
            span_farDistance := span_farDistance b |}).
Proof.
  unfold splitItem. destruct (back spans) as [b|] eqn:Hb.
  - destruct (back_Some_inv _ Hb) as [l ->].
    destruct (F32.ltb (item_farDistance item) (span_nearDistance b)) eqn:E.
    + right; left. exists l, b. repeat split; auto.
    + right; right. exists l, b. rewrite removelast_push_back.
      repeat split; auto.
  - left. rewrite (back_None_inv _ Hb). split; reflexivity.
Qed.

Lemma Forall_push_back {A : Type} (P : A -> Prop) (l : list A) (x : A) :
  Forall P (push_back l x) <-> Forall P l /\ P x.
Proof.
  unfold push_back. rewrite Forall_app. split.
  - intros [H1 H2]. inversion H2; subst. tauto.
  - intros [H1 H2]. split; [exact H1|constructor; [exact H2|constructor]].
Qed.

Lemma splitItem_sum (i : Z) (item : VisibleItem)
  (spans : list DepthBufferSpan) :
  Forall (fun s => 0 <= itemCount s) spans ->
  sumItemCount spans + 1 < 2 ^ 32 ->
  Forall (fun s => 0 <= itemCount s) (splitItem i item spans) /\
  sumItemCount (splitItem i item spans) = sumItemCount spans + 1.
Proof.
  intros Hnn Hlt.
  assert (Hsum : 0 <= sumItemCount spans).
  { clear Hlt. induction Hnn; simpl; lia. }
  destruct (splitItem_cases i item spans)
    as [[-> ->]|[(l & b & -> & _ & ->)|(l & b & -> & _ & ->)]].
  - simpl. split; [repeat constructor; simpl; lia|lia].
  - rewrite !Forall_push_back in *. rewrite !sumItemCount_push_back in *.
    simpl. split; [intuition lia|lia].
  - rewrite !Forall_push_back in *. rewrite !sumItemCount_push_back in *.
    simpl. destruct Hnn as [Hl Hb].
    assert (Hl0 : 0 <= sumItemCount l).
    { clear - Hl. induction Hl; simpl; lia. }
    assert (E : u32 (itemCount b + 1) = itemCount b + 1).
    { unfold u32. apply Z.mod_small. lia. }
    rewrite E. split; [split; [exact Hl|lia]|lia].
Qed.

Lemma splitItem_chained (i : Z) (item : VisibleItem)
  (spans : list DepthBufferSpan) :
  chained spans -> chained (splitItem i item spans).
Proof.
  intros Hc.
  destruct (splitItem_cases i item spans)
    as [[-> ->]|[(l & b & -> & _ & ->)|(l & b & -> & _ & ->)]].
  - exact I.
  - apply chained_push_back. split.
    + apply chained_push_back. split; [exact Hc|].
      intros b'. rewrite back_push_back. intros [= <-]. reflexivity.
    + intros b'. rewrite back_push_back. intros [= <-]. reflexivity.
  - apply chained_push_back in Hc. apply chained_push_back.
    split; [apply Hc|]. simpl. apply Hc.
Qed.

Lemma splitItem_proper (i : Z) (item : VisibleItem)
  (spans : list DepthBufferSpan) :
  F32.ltb (item_nearDistance item) (item_farDistance item) = true ->
  Forall span_proper spans -> Forall span_proper (splitItem i item spans).
Proof.
  intros Hi Hp.
  destruct (splitItem_cases i item spans)
    as [[-> ->]|[(l & b & -> & Hd & ->)|(l & b & -> & _ & ->)]].
  - repeat constructor. exact Hi.
  - rewrite !Forall_push_back in *. unfold span_proper in *. simpl. tauto.
  - rewrite !Forall_push_back in *. unfold span_proper in *. simpl.
    split; [apply Hp|].
    destruct (F32.ltb (item_nearDistance item) (span_nearDistance b)) eqn:E.
    + apply F32Order.ltb_trans with (y := span_nearDistance b); tauto.
    + apply Hp.
Qed.

(** The near distance of the front-most span bounds the near distances of
    the items placed so far, and is the near distance of one of them. *)
Definition near_bound (placed : list VisibleItem)
  (spans : list DepthBufferSpan) : Prop :=
  forall b, back spans = Some b ->
    Forall (fun it => F32.leb (span_nearDistance b) (item_nearDistance it) = true)
      placed /\
    Exists (fun it => item_nearDistance it = span_nearDistance b) placed.

(** The far distance of the back-most span is the far distance of the
    item placed first. *)
Definition front_far (placed : list VisibleItem)
  (spans : list DepthBufferSpan) : Prop :=
  forall s0, front spans = Some s0 ->
    exists it, back placed = Some it /\
               span_farDistance s0 = item_farDistance it.

(** The loop invariant of [splitDepthBuffer]; [placed] are the items
    from the current index to the end of the list. *)
Record split_invariant (placed : list VisibleItem)
  (spans : list DepthBufferSpan) : Prop := {
  si_counts : Forall (fun s => 0 <= itemCount s) spans;
  si_sum : sumItemCount spans = Z.of_nat (length placed);
  si_chained : chained spans;
  si_proper : Forall span_proper spans;
  si_nonempty : spans = [] -> placed = [];
  si_near : near_bound placed spans;
  si_far : front_far placed spans
}.

Lemma near_bound_step (i : Z) (item : VisibleItem)
  (placed : list VisibleItem) (spans : list DepthBufferSpan) :
  F32.ltb (item_nearDistance item) (item_farDistance item) = true ->
  Forall span_proper spans ->
  (spans = [] -> placed = []) ->
  near_bound placed spans ->
  near_bound (item :: placed) (splitItem i item spans).
Proof.
  intros Hi Hp Hne Hnb b'.
  assert (Hin : F32.is_nan (item_nearDistance item) = false)
    by exact (F32Order.ltb_not_nan_l _ _ Hi).
  destruct (splitItem_cases i item spans)
    as [[-> ->]|[(l & b & -> & Hd & ->)|(l & b & -> & Hd & ->)]].
  - rewrite (Hne eq_refl). simpl. intros [= <-]. simpl. split.
    + constructor; [apply F32Order.leb_refl; exact Hin|constructor].
    + constructor. reflexivity.
  - rewrite back_push_back. intros [= <-]. simpl.
    destruct (Hnb b (back_push_back l b)) as [Hall _]. split.
    + constructor; [apply F32Order.leb_refl; exact Hin|].
      rewrite Forall_forall in Hall |- *. intros it Hit.
      apply F32Order.ltb_leb.
      apply F32Order.ltb_leb_trans with (y := span_nearDistance b);
        [|apply Hall, Hit].
      apply F32Order.ltb_trans with (y := item_farDistance item); assumption.
    + constructor. reflexivity.
  - rewrite back_push_back. intros [= <-]. simpl.
    destruct (Hnb b (back_push_back l b)) as [Hall Hex].
    apply Forall_push_back in Hp. destruct Hp as [_ Hb].
    assert (Hbn : F32.is_nan (span_nearDistance b) = false)
      by exact (F32Order.ltb_not_nan_l _ _ Hb).
    destruct (F32.ltb (item_nearDistance item) (span_nearDistance b)) eqn:E.
    + split.
      * constructor; [apply F32Order.leb_refl; exact Hin|].
        rewrite Forall_forall in Hall |- *. intros it Hit.
        apply F32Order.ltb_leb.
        apply F32Order.ltb_leb_trans with (y := span_nearDistance b);
          [exact E|apply Hall, Hit].
      * constructor. reflexivity.
    + split.
      * constructor; [apply F32Order.not_ltb_leb; assumption|exact Hall].
      * apply Exists_cons_tl. exact Hex.
Qed.

Lemma front_far_step (i : Z) (item : VisibleItem)
  (placed : list VisibleItem) (spans : list DepthBufferSpan) :
  (spans = [] -> placed = []) ->
  front_far placed spans ->
  front_far (item :: placed) (splitItem i item spans).
Proof.
  intros Hne Hff s0.
  assert (Hkeep : forall f, front spans = Some f ->
            exists it, back (item :: placed) = Some it /\
                       span_farDistance f = item_farDistance it).
  { intros f Hf. destruct (Hff f Hf) as (it & Hb & E). exists it.
    split; [|exact E]. destruct placed; [discriminate|exact Hb]. }
  destruct (splitItem_cases i item spans)
    as [[-> ->]|[(l & b & -> & Hd & ->)|(l & b & -> & Hd & ->)]].
  - rewrite (Hne eq_refl). simpl. intros [= <-]. exists item. split; reflexivity.
  - destruct (front (push_back l b)) as [f|] eqn:Hf;
      [|destruct l; discriminate].
    rewrite (front_push_back _ _ (front_push_back _ _ Hf)).
    intros [= <-]. apply Hkeep. reflexivity.
  - destruct l as [|a l].
    + simpl. intros [= <-]. simpl. apply Hkeep. reflexivity.
    + simpl. intros [= <-]. apply Hkeep. reflexivity.
Qed.

Lemma split_invariant_step (i : Z) (item : VisibleItem)
  (placed : list VisibleItem) (spans : list DepthBufferSpan) :
  item_proper item ->
  Z.of_nat (length placed) + 1 < 2 ^ 32 ->
  split_invariant placed spans ->
  split_invariant (item :: placed) (splitItem i item spans).
Proof.
  intros [_ Hi] Hlen [Hc Hs Hch Hp Hne Hnb Hff].
  destruct (splitItem_sum i item Hc) as [Hc' Hs']; [lia|].
  constructor.
  - exact Hc'.
  - rewrite Hs', Hs. simpl length. lia.
  - apply splitItem_chained; exact Hch.
  - apply splitItem_proper; assumption.
  - intros E. exfalso.
    destruct (splitItem_cases i item spans)
      as [[_ H]|[(l & b & _ & _ & H)|(l & b & _ & _ & H)]];
      rewrite H in E; unfold push_back in E;
      try discriminate; apply app_eq_nil in E; destruct E; discriminate.
  - apply near_bound_step; assumption.
  - apply front_far_step; assumption.
Qed.

Lemma skipn_nth_error_cons {A : Type} (l : list A) (n : nat) (x : A) :
  nth_error l n = Some x -> skipn n l = x :: skipn (S n) l.
Proof.
  revert n. induction l as [|a l IH]; intros [|n]; simpl; try discriminate.
  - intros [= ->]. reflexivity.
  - apply IH.
Qed.

Lemma splitLoop_invariant (items : list VisibleItem) (n : nat) :
  forall spans,
    (n <= length items)%nat ->
    Z.of_nat (length items) < 2 ^ 32 ->
    Forall item_proper items ->
    split_invariant (skipn n items) spans ->
    split_invariant items (splitLoop n items spans).
Proof.
  induction n as [|n IH]; intros spans Hn Hlen Hall Hinv.
  - exact Hinv.
  - simpl. destruct (nth_error items n) as [item|] eqn:E.
    + apply IH; [lia|exact Hlen|exact Hall|].
      rewrite (skipn_nth_error_cons _ _ E).
      apply split_invariant_step.
      * rewrite Forall_forall in Hall. apply Hall.
        eapply nth_error_In; exact E.
      * rewrite length_skipn. lia.
      * exact Hinv.
    + apply nth_error_None in E. lia.
Qed.

Lemma int_of_size_small (n : nat) :
  Z.of_nat n < 2 ^ 31 -> Z.to_nat (int_of_size n) = n.
Proof.
  intros H. unfold int_of_size, u32.
  rewrite Z.mod_small by lia.
  destruct (Z.ltb_spec (Z.of_nat n) (2 ^ 31)); lia.
Qed.

Lemma splitDepthBufferSpans_invariant (items : list VisibleItem) :
  Z.of_nat (length items) < 2 ^ 31 ->
  Forall item_proper items ->
  split_invariant items (splitDepthBufferSpans items).
Proof.
  intros Hlen Hall. unfold splitDepthBufferSpans.
  rewrite int_of_size_small by exact Hlen.
  apply splitLoop_invariant; [lia|lia|exact Hall|].
  rewrite skipn_all. constructor.
  - constructor.
  - reflexivity.
  - exact I.
  - constructor.
  - reflexivity.
  - intros s; discriminate.
  - intros s; discriminate.
Qed.

End SplitDepthBuffer.

(** ** coalesceDepthBuffer *)

(** The test that ends a merge: the ratio of [s]'s near distance to
    [farDistance] is below the preferred ratio. *)
Definition belowPreferred (farDistance : F32.float) (s : DepthBufferSpan) :
  bool :=
  F32.ltb (F32.div (span_nearDistance s) farDistance) PreferredNearFarRatio.

(** The span written for the raw span [first] and the raw spans
    [absorbed] merged into it. *)
Definition mergeRun (first : DepthBufferSpan)
  (absorbed : list DepthBufferSpan) : DepthBufferSpan :=
  {| backItemIndex := backItemIndex first;
     itemCount :=
       fold_left (fun c s => u32 (c + itemCount s)) absorbed (itemCount first);
     span_nearDistance :=
       fold_left (fun _ s => span_nearDistance s) absorbed
         (span_nearDistance first);
     span_farDistance := span_farDistance first |}.

(** [grouping spans merged]: the merged list is obtained by cutting the
    raw list into runs and writing one span per run.  A run takes in a
    span only if the test [belowPreferred] failed for it, and it ends
    only at the end of the list or at a span for which the test holds. *)
Inductive grouping : list DepthBufferSpan -> list DepthBufferSpan -> Prop :=
| grouping_nil : grouping [] []
| grouping_run (first : DepthBufferSpan)
    (absorbed rest merged : list DepthBufferSpan) :
    Forall (fun s => belowPreferred (span_farDistance first) s = false)
      absorbed ->
    (forall next, front rest = Some next ->
       belowPreferred (span_farDistance first) next = true) ->
    grouping rest merged ->
    grouping (first :: absorbed ++ rest) (mergeRun first absorbed :: merged).

Lemma coalesceInner_spec (farDistance : F32.float)
  (rest : list DepthBufferSpan) :
  forall (count : Z) (nearJ : F32.float),
  exists absorbed rest',
    coalesceInner farDistance count nearJ rest =
      (fold_left (fun c s => u32 (c + itemCount s)) absorbed count,
       fold_left (fun _ s => span_nearDistance s) absorbed nearJ,
       rest') /\
    rest = absorbed ++ rest' /\
    Forall (fun s => belowPreferred farDistance s = false) absorbed /\
    (forall next, front rest' = Some next ->
       belowPreferred farDistance next = true).
Proof.
  induction rest as [|next rest IH]; intros count nearJ.
  - exists [], []. simpl. repeat split; [constructor|discriminate].
  - simpl. fold (belowPreferred farDistance next).
    destruct (belowPreferred farDistance next) eqn:E.
    + exists [], (next :: rest). simpl. repeat split; [constructor|].
      intros n [= <-]. exact E.
    + destruct (IH (u32 (count + itemCount next)) (span_nearDistance next))
        as (absorbed & rest' & Heq & Hrest & Hall & Hstop).
      exists (next :: absorbed), rest'. simpl. rewrite Heq.
      repeat split; [now rewrite Hrest|constructor; assumption|exact Hstop].
Qed.

Lemma coalesceLoop_acc (rounds : nat) :
  forall spans merged,
    coalesceLoop rounds spans merged =
    merged ++ coalesceLoop rounds spans [].
Proof.
  induction rounds as [|rounds IH]; intros spans merged.
  - destruct spans; simpl; now rewrite app_nil_r.
  - destruct spans as [|first rest]; simpl; [now rewrite app_nil_r|].
    destruct (coalesceInner (span_farDistance first) (itemCount first)
                (span_nearDistance first) rest) as [[count near] rest'].
    rewrite IH. rewrite (IH rest' (push_back [] _)).
    unfold push_back. now rewrite <- app_assoc.
Qed.

Lemma coalesceLoop_grouping (rounds : nat) :
  forall spans,
    (length spans <= rounds)%nat ->
    grouping spans (coalesceLoop rounds spans []).
Proof.
  induction rounds as [|rounds IH]; intros spans Hlen.
  - destruct spans; [constructor|simpl in Hlen; lia].
  - destruct spans as [|first rest]; [constructor|]. simpl.
    destruct (coalesceInner_spec (span_farDistance first) rest
                (itemCount first) (span_nearDistance first))
      as (absorbed & rest' & Heq & Hrest & Hall & Hstop).
    rewrite Heq, coalesceLoop_acc. simpl. subst rest.
    apply (@grouping_run first absorbed rest' _ Hall Hstop).
    apply IH. simpl in Hlen. rewrite length_app in Hlen. lia.
Qed.

Lemma coalesceDepthBufferSpans_grouping (spans : list DepthBufferSpan) :
  grouping spans (coalesceDepthBufferSpans spans).
Proof. apply coalesceLoop_grouping. lia. Qed.

(** Any number of rounds that is at least the number of spans gives the
    same result: the loop always ends because the spans are used up. *)
Lemma coalesceLoop_stable (r1 : nat) :
  forall r2 spans merged,
    (length spans <= r1)%nat -> (length spans <= r2)%nat ->
    coalesceLoop r1 spans merged = coalesceLoop r2 spans merged.
Proof.
  induction r1 as [|r1 IH]; intros r2 spans merged H1 H2.
  - destruct spans; [destruct r2; reflexivity|simpl in H1; lia].
  - destruct spans as [|first rest]; [destruct r2; reflexivity|].
    destruct r2 as [|r2]; [simpl in H2; lia|]. simpl.
    destruct (coalesceInner_spec (span_farDistance first) rest
                (itemCount first) (span_nearDistance first))
      as (absorbed & rest' & Heq & Hrest & _ & _).
    rewrite Heq. simpl in H1, H2.
    assert (Hle : (length rest' <= length rest)%nat).
    { rewrite Hrest, length_app. lia. }
    apply IH; lia.
Qed.

Lemma back_cons {A : Type} (a : A) (l : list A) :
  back (a :: l) = match back l with Some b => Some b | None => Some a end.
Proof.
  destruct l as [|b l]; [reflexivity|].
  change (back (a :: b :: l)) with (back (b :: l)).
  destruct (back (b :: l)) eqn:E; [reflexivity|].
  apply back_None_inv in E. discriminate.
Qed.

Lemma back_app_cons {A : Type} (l1 l2 : list A) (x : A) :
  back (l1 ++ x :: l2) = back (x :: l2).
Proof.
  induction l1 as [|a l1 IH]; [reflexivity|].
  simpl app. rewrite back_cons, IH.
  destruct (back (x :: l2)) eqn:E; [reflexivity|].
  apply back_None_inv in E. discriminate.
Qed.

Lemma fold_near_back (absorbed : list DepthBufferSpan) (first : DepthBufferSpan) :
  exists b, back (first :: absorbed) = Some b /\
    fold_left (fun _ s => span_nearDistance s) absorbed
      (span_nearDistance first) = span_nearDistance b.
Proof.
  revert first. induction absorbed as [|a absorbed IH]; intros first.
  - exists first. split; reflexivity.
  - destruct (IH a) as (b & Hb & E). exists b. split; [|exact E].
    rewrite back_cons, Hb. reflexivity.
Qed.

Lemma fold_count_exact (absorbed : list DepthBufferSpan) :
  forall c,
    Forall (fun s => 0 <= itemCount s) absorbed ->
    0 <= c -> c + sumItemCount absorbed < 2 ^ 32 ->
    fold_left (fun c s => u32 (c + itemCount s)) absorbed c =
    c + sumItemCount absorbed.
Proof.
  induction absorbed as [|a absorbed IH]; intros c Hnn Hc Hlt; simpl in *.
  - lia.
  - inversion Hnn as [|? ? Ha Hnn']; subst.
    assert (Hs : 0 <= sumItemCount absorbed).
    { clear - Hnn'. induction Hnn'; simpl; lia. }
    assert (E : u32 (c + itemCount a) = c + itemCount a).
    { unfold u32. apply Z.mod_small. lia. }
    rewrite E, IH; [lia|assumption|lia|lia].
Qed.

Lemma sumItemCount_nonneg (spans : list DepthBufferSpan) :
  Forall (fun s => 0 <= itemCount s) spans -> 0 <= sumItemCount spans.
Proof. intros H. induction H; simpl; lia. Qed.

Lemma grouping_sum (spans merged : list DepthBufferSpan) :
  grouping spans merged ->
  Forall (fun s => 0 <= itemCount s) spans ->
  sumItemCount spans < 2 ^ 32 ->
  Forall (fun s => 0 <= itemCount s) merged /\
  sumItemCount merged = sumItemCount spans.
Proof.
  induction 1 as [|first absorbed rest merged Hall Hstop Hg IH];
    intros Hnn Hlt; [split; [constructor|reflexivity]|].
  inversion Hnn as [|? ? Hf Hnn']; subst.
  apply Forall_app in Hnn'. destruct Hnn' as [Ha Hr].
  simpl in Hlt. rewrite sumItemCount_app in Hlt.
  pose proof (sumItemCount_nonneg Ha). pose proof (sumItemCount_nonneg Hr).
  destruct (IH Hr) as [IH1 IH2]; [lia|].
  simpl. rewrite sumItemCount_app, IH2, fold_count_exact by (assumption || lia).
  split; [|lia]. constructor; [|exact IH1].
  simpl. rewrite fold_count_exact by (assumption || lia). lia.
Qed.

Lemma grouping_front (spans merged : list DepthBufferSpan) :
  grouping spans merged ->
  match spans with
  | [] => merged = []
  | s :: _ =>
      exists m merged', merged = m :: merged' /\
        span_farDistance m = span_farDistance s
  end.
Proof.
  intros H. destruct H; [reflexivity|].
  eexists _, _. split; reflexivity.
Qed.

Lemma chained_app_cons (l1 l2 : list DepthBufferSpan) (x : DepthBufferSpan) :
  chained (l1 ++ x :: l2) <->
  chained l1 /\ chained (x :: l2) /\
  (forall b, back l1 = Some b -> span_farDistance x = span_nearDistance b).
Proof.
  induction l1 as [|a l1 IH].
  - simpl. split; [intros H; repeat split; [exact H|discriminate]|tauto].
  - destruct l1 as [|b l1].
    + simpl. split.
      * intros [H1 H2]. repeat split; auto. intros c [= <-]. exact H1.
      * intros (_ & H2 & H3). split; [apply H3; reflexivity|exact H2].
    + change (chained ((a :: b :: l1) ++ x :: l2))
        with (span_farDistance b = span_nearDistance a /\
              chained ((b :: l1) ++ x :: l2)).
      change (chained (a :: b :: l1))
        with (span_farDistance b = span_nearDistance a /\ chained (b :: l1)).
      change (back (a :: b :: l1)) with (back (b :: l1)).
      rewrite IH. tauto.
Qed.

Lemma chained_near_below_far (l : list DepthBufferSpan) :
  forall first b,
    chained (first :: l) -> Forall span_proper (first :: l) ->
    back (first :: l) = Some b ->
    F32.ltb (span_nearDistance b) (span_farDistance first) = true.
Proof.
  induction l as [|t l IH]; intros first b Hc Hp Hb.
  - simpl in Hb. injection Hb as <-. inversion Hp; assumption.
  - destruct Hc as [Ht Hc]. inversion Hp as [|? ? Hf Hp']; subst.
    change (back (first :: t :: l)) with (back (t :: l)) in Hb.
    apply F32Order.ltb_trans with (y := span_farDistance t).
    + apply IH; assumption.
    + rewrite Ht. exact Hf.
Qed.

Lemma grouping_chained (spans merged : list DepthBufferSpan) :
  grouping spans merged ->
  chained spans -> Forall span_proper spans ->
  chained merged /\ Forall span_proper merged.
Proof.
  induction 1 as [|first absorbed rest merged Hall Hstop Hg IH];
    intros Hc Hp; [split; [exact I|constructor]|].
  destruct (fold_near_back absorbed first) as (b & Hb & Hnear).
  assert (Hrun : chained (first :: absorbed) /\
                 Forall span_proper (first :: absorbed)).
  { destruct rest as [|x rest].
    - rewrite app_nil_r in Hc, Hp. split; assumption.
    - change (first :: absorbed ++ x :: rest)
        with ((first :: absorbed) ++ x :: rest) in Hc, Hp.
      apply chained_app_cons in Hc. apply Forall_app in Hp. tauto. }
  assert (Hm : span_proper (mergeRun first absorbed)).
  { unfold span_proper. simpl. rewrite Hnear.
    apply chained_near_below_far with (l := absorbed); tauto. }
  destruct rest as [|x rest].
  - apply grouping_front in Hg. subst merged.
    split; [exact I|constructor; [exact Hm|constructor]].
  - change (first :: absorbed ++ x :: rest)
      with ((first :: absorbed) ++ x :: rest) in Hc, Hp.
    apply chained_app_cons in Hc. destruct Hc as (_ & Hcx & Hj).
    apply Forall_app in Hp. destruct Hp as [_ Hpx].
    destruct (IH Hcx Hpx) as [IH1 IH2].
    destruct (grouping_front Hg) as (m & merged' & -> & Hfar).
    split; [|constructor; assumption].
    split; [|exact IH1].
    rewrite Hfar. simpl. rewrite Hnear. apply Hj. exact Hb.
Qed.

Lemma grouping_back (spans merged : list DepthBufferSpan) :
  grouping spans merged ->
  forall b, back spans = Some b ->
    exists m, back merged = Some m /\
              span_nearDistance m = span_nearDistance b.
Proof.
  induction 1 as [|first absorbed rest merged Hall Hstop Hg IH];
    intros b Hb; [discriminate|].
  destruct rest as [|x rest].
  - apply grouping_front in Hg. subst merged. rewrite app_nil_r in Hb.
    destruct (fold_near_back absorbed first) as (b' & Hb' & Hnear).
    rewrite Hb in Hb'. injection Hb' as <-.
    exists (mergeRun first absorbed). split; [reflexivity|exact Hnear].
  - change (first :: absorbed ++ x :: rest)
      with ((first :: absorbed) ++ x :: rest) in Hb.
    rewrite back_app_cons in Hb.
    destruct (IH b Hb) as (m & Hm & E). exists m. split; [|exact E].
    rewrite back_cons, Hm. reflexivity.
Qed.

(** A run that takes in at least one more span has a near/far ratio that
    is not below the preferred one; a run of one span is that span. *)
Lemma mergeRun_ratio (first : DepthBufferSpan)
  (absorbed : list DepthBufferSpan) :
  Forall (fun s => belowPreferred (span_farDistance first) s = false)
    absorbed ->
  mergeRun first absorbed = first \/
  belowPreferred (span_farDistance (mergeRun first absorbed))
    (mergeRun first absorbed) = false.
Proof.
  intros Hall. destruct absorbed as [|a absorbed].
  - left. destruct first; reflexivity.
  - right. destruct (fold_near_back (a :: absorbed) first) as (b & Hb & E).
    unfold belowPreferred. simpl span_nearDistance. simpl span_farDistance.
    simpl in E. rewrite E.
    change (back (first :: a :: absorbed)) with (back (a :: absorbed)) in Hb.
    destruct (back_Some_inv _ Hb) as (l' & El). rewrite El in Hall.
    apply Forall_push_back in Hall. apply Hall.
Qed.

Lemma grouping_ratio (spans merged : list DepthBufferSpan) :
  grouping spans merged ->
  Forall (fun m => In m spans \/
                   belowPreferred (span_farDistance m) m = false) merged.
Proof.
  induction 1 as [|first absorbed rest merged Hall Hstop Hg IH];
    [constructor|].
  constructor.
  - destruct (mergeRun_ratio first Hall) as [E|E].
    + left. rewrite E. left. reflexivity.
    + right. exact E.
  - rewrite Forall_forall in IH |- *. intros m Hm.
    destruct (IH m Hm) as [Hin|Hr]; [left|right; exact Hr].
    right. apply in_or_app. right. exact Hin.
Qed.

(** ** A scene on the viewing axis

    An instance of the collaborators for concrete runs: every position is
    a coordinate on the camera's z axis (negative in front of the camera),
    rotations are trivial, a projection is given by its near and far
    distances, its pixel size and its near-plane adjustment, and the
    frustum is the depth range between near and far. *)

Record AxialProjection : Type := {
  ax_near : F32.float;
  ax_far : F32.float;
  ax_pixelSize : F32.float;
  ax_nearAdjust : F32.float
}.

Definition axial_intersects (frustum : F32.float * F32.float)
  (center radius : F32.float) : bool :=
  let depth := F32.opp center in
  F32.ltb (F32.sub depth radius) (snd frustum) &&
  F32.ltb (fst frustum) (F32.add depth radius).

#[local] Instance Axial : Collaborators := {|
  Time := unit;
  Vector3d := F32.float;
  Vector3f := F32.float;
  Quaterniond := unit;
  Quaternionf := unit;
  Frustum := F32.float * F32.float;
  PlanarProjection := AxialProjection;
  Viewport := unit;
  time_zero := tt;
  v3d_zero := F32.zero;
  v3d_sub := F32.sub;
  v3d_norm := SFabs;
  v3d_cast := fun v => v;
  v3d_scale := F32.mul;
  v3f_scale := F32.mul;
  v3f_z := fun v => v;
  q_cast := fun q => q;
  toCameraSpace := fun _ v => v;
  viewDirection := fun _ v => F32.opp v;
  proj_nearDistance := ax_near;
  proj_farDistance := ax_far;
  proj_frustum := fun p => (ax_near p, ax_far p);
  frustum_default := (F32.zero, F32.zero);
  frustum_intersects := axial_intersects;
  pixelSizeOf := fun p _ => ax_pixelSize p;
  nearPlaneFovAdjustmentOf := fun p _ => ax_nearAdjust p
|}.

(** A sphere of radius [radius]; its near-plane distance is the distance
    to the centre less the radius. *)
Definition sphere (policy : ClippingPolicy) (radius : Z) : Geometry :=
  {| boundingSphereRadius := F32.of_Z radius;
     clippingPolicy := policy;
     nearPlaneDistance :=
       fun direction => F32.sub (SFabs direction) (F32.of_Z radius) |}.

(** An entity at rest at depth [depth] in front of the origin. *)
Definition body (depth : Z) (g : option Geometry) (l : option LightSource) :
  Entity :=
  {| isVisible := fun _ => true;
     position := fun _ => F32.of_Z (- depth);
     orientation := fun _ => tt;
     geometry := g;
     lightSource := l;
     visualizers := [] |}.

(** The item that a sphere of radius [radius] at depth [depth] leaves in
    the list when seen from the origin without near-plane adjustment. *)
Definition sphereItem (policy : ClippingPolicy) (depth radius : Z) :
  VisibleItem :=
  let g := sphere policy radius in
  let e := body depth (Some g) None in
  {| item_entity := e; item_geometry := g;
     item_position := F32.of_Z (- depth);
     item_cameraRelativePosition := F32.of_Z (- depth);
     item_orientation := tt;
     item_boundingRadius := F32.of_Z radius;
     item_nearDistance := F32.of_Z (depth - radius);
     item_farDistance := F32.of_Z (depth + radius);
     item_outsideFrustum := false |}.

(** Two spheres of radius 1 at depths 9 and 99999: far distances 10 and
    100000. *)
Definition twoSpheres : list VisibleItem :=
  [sphereItem PreserveDepthPrecision 9 1;
   sphereItem PreserveDepthPrecision 99999 1].

(** ** The ratio of merged spans (C1) *)

(** The ratio property in the form "at least": for neighbours in the
    merged list and for every merged span by itself. *)
Definition adjacent_ratio_ok (merged : list DepthBufferSpan) : Prop :=
  forall (k : nat) (current next : DepthBufferSpan),
    nth_error merged k = Some current ->
    nth_error merged (S k) = Some next ->
    F32.leb PreferredNearFarRatio
      (F32.div (span_nearDistance next) (span_farDistance current)) = true.

Definition own_ratio_ok (merged : list DepthBufferSpan) : Prop :=
  Forall
    (fun m => F32.leb MinimumNearFarRatio
                (F32.div (span_nearDistance m) (span_farDistance m)) = true)
    merged.

Definition ratio_claim (merged : list DepthBufferSpan) : Prop :=
  (length merged <= 1)%nat \/
  (adjacent_ratio_ok merged /\ own_ratio_ok merged).

(** C1, as stated, fails.  For two spheres with far distances 10 and
    100000 the list is sorted and its items are as [addVisibleItem] makes
    them, three spans are left after the coalesce pass, the second of
    them begins at 10 behind a span that ends at 100000 (ratio 0.0001,
    not at least 0.002), and its own ratio 10 / 99998 is not at least
    0.001 either. *)
Lemma coalesce_ratio_counterexample :
  sorted_by_farDistance twoSpheres /\
  Forall item_proper twoSpheres /\
  ~ ratio_claim (coalesceDepthBufferSpans (splitDepthBufferSpans twoSpheres)) /\
  ~ own_ratio_ok (coalesceDepthBufferSpans (splitDepthBufferSpans twoSpheres)).
Proof.
  split; [|split; [|split]].
  - repeat constructor.
  - repeat constructor.
  - intros [Hlen|[Hadj _]].
    + vm_compute in Hlen. lia.
    + specialize (Hadj 0%nat _ _ eq_refl eq_refl).
      vm_compute in Hadj. discriminate.
  - intros Hown. inversion Hown as [|? ? _ Hown']; subst.
    inversion Hown' as [|? ? H _]; subst.
    vm_compute in H. discriminate.
Qed.

(** C1, as amended: after the coalesce pass the merged list is a cutting
    of the raw span list into runs of consecutive spans, one merged span
    per run.  A span is taken into a run only when its near distance over
    the run's far distance is not below [PreferredNearFarRatio]; a run
    ends only at the end of the list or in front of a span for which that
    ratio is below [PreferredNearFarRatio]; and every merged span is
    either a raw span taken over as it was or has a near/far ratio of its
    own that is not below [PreferredNearFarRatio]. *)
Theorem coalesce_ratio (C : Collaborators) (items : list VisibleItem) :
  let spans := splitDepthBufferSpans items in
  let merged := coalesceDepthBufferSpans spans in
  grouping spans merged /\
  Forall (fun m => In m spans \/
                   belowPreferred (span_farDistance m) m = false) merged.
Proof.
  intros spans merged.
  pose proof (coalesceDepthBufferSpans_grouping spans) as Hg.
  split; [exact Hg|apply grouping_ratio; exact Hg].
Qed.

(** Two overlapping runs do get merged: spheres of radius 1 at depths 5
    and 10 give the raw spans [9, 11], [6, 9] and [4, 6], and one merged
    span [4, 11] holding both items. *)
Example coalesce_merges :
  coalesceDepthBufferSpans
    (splitDepthBufferSpans
       [sphereItem PreserveDepthPrecision 5 1;
        sphereItem PreserveDepthPrecision 10 1]) =
  [{| backItemIndex := 1; itemCount := 2;
      span_nearDistance := F32.of_Z 4; span_farDistance := F32.of_Z 11 |}].
Proof. vm_compute. reflexivity. Qed.

(** ** Span coverage (C2) *)

Section SpanCoverage.
Context {C : Collaborators}.

(** The spans account for every item once, follow each other back to
    front without gap or overlap, and reach exactly from the smallest
    near distance to the largest far distance of the items. *)
Record span_coverage (items : list VisibleItem)
  (spans : list DepthBufferSpan) : Prop := {
  cov_count : sumItemCount spans = Z.of_nat (length items);
  cov_chained : chained spans;
  cov_proper : Forall span_proper spans;
  cov_ordered : back_to_front spans;
  cov_range :
    exists backmost frontmost,
      front spans = Some backmost /\ back spans = Some frontmost /\
      Forall
        (fun it =>
           F32.leb (span_nearDistance frontmost) (item_nearDistance it) = true /\
           F32.leb (item_farDistance it) (span_farDistance backmost) = true)
        items /\
      Exists (fun it => item_nearDistance it = span_nearDistance frontmost)
        items /\
      Exists (fun it => item_farDistance it = span_farDistance backmost)
        items
}.

Lemma sorted_back_is_farthest (items : list VisibleItem) (last : VisibleItem) :
  sorted_by_farDistance items ->
  Forall item_proper items ->
  back items = Some last ->
  Forall (fun it => F32.leb (item_farDistance it) (item_farDistance last) = true)
    items.
Proof.
  intros Hs Hp Hb. destruct (back_Some_inv _ Hb) as (l & ->).
  unfold push_back in *. apply Forall_app. split.
  - clear Hp Hb. induction l as [|a l IH]; [constructor|].
    simpl in Hs. inversion Hs as [|? ? Hs' Ha]; subst.
    constructor; [|apply IH; exact Hs'].
    rewrite Forall_forall in Ha. apply Ha. apply in_or_app. right. now left.
  - apply Forall_app in Hp. destruct Hp as [_ Hp].
    inversion Hp as [|? ? [_ Hl] _]; subst.
    constructor; [|constructor]. apply F32Order.leb_refl.
    exact (F32Order.ltb_not_nan_r _ _ Hl).
Qed.

Lemma back_In {A : Type} (l : list A) (x : A) : back l = Some x -> In x l.
Proof.
  intros H. destruct (back_Some_inv _ H) as (l' & ->).
  apply in_or_app. right. now left.
Qed.

Lemma split_coverage (items : list VisibleItem) :
  items <> [] ->
  Z.of_nat (length items) < 2 ^ 31 ->
  Forall item_proper items ->
  sorted_by_farDistance items ->
  span_coverage items (splitDepthBufferSpans items).
Proof.
  intros Hne Hlen Hp Hs.
  destruct (splitDepthBufferSpans_invariant Hlen Hp)
    as [Hc Hsum Hch Hpr Hnil Hnb Hff].
  assert (Hspans : splitDepthBufferSpans items <> []) by tauto.
  destruct (front (splitDepthBufferSpans items)) as [s0|] eqn:Hfront;
    [|destruct (splitDepthBufferSpans items); [tauto|discriminate]].
  destruct (back (splitDepthBufferSpans items)) as [b|] eqn:Hback;
    [|apply back_None_inv in Hback; tauto].
  destruct (Hff s0 Hfront) as (last & Hlast & Hfar).
  destruct (Hnb b Hback) as [Hnear Hex].
  constructor; try assumption.
  - apply chained_back_to_front; assumption.
  - exists s0, b. repeat split; try assumption.
    + pose proof (sorted_back_is_farthest Hs Hp Hlast) as Hmax.
      rewrite Forall_forall in Hnear, Hmax |- *. intros it Hit.
      rewrite Hfar. split; [apply Hnear|apply Hmax]; exact Hit.
    + apply Exists_exists. exists last. split; [|now rewrite Hfar].
      apply back_In. exact Hlast.
Qed.

Lemma coalesce_coverage (items : list VisibleItem)
  (spans : list DepthBufferSpan) :
  Z.of_nat (length items) < 2 ^ 31 ->
  Forall (fun s => 0 <= itemCount s) spans ->
  span_coverage items spans ->
  span_coverage items (coalesceDepthBufferSpans spans).
Proof.
  intros Hlen Hnn [Hsum Hch Hpr _ (s0 & b & Hf & Hb & Hall & Hn & Hx)].
  pose proof (coalesceDepthBufferSpans_grouping spans) as Hg.
  destruct (grouping_sum Hg Hnn) as [_ Hsum']; [lia|].
  destruct (grouping_chained Hg Hch Hpr) as [Hch' Hpr'].
  destruct (grouping_back Hg Hb) as (m & Hm & Hmn).
  pose proof (grouping_front Hg) as Hfr.
  destruct spans as [|s spans]; [discriminate|].
  destruct Hfr as (m0 & merged' & Em & Hm0). simpl in Hf. injection Hf as ->.
  constructor.
  - now rewrite Hsum'.
  - exact Hch'.
  - exact Hpr'.
  - apply chained_back_to_front; assumption.
  - exists m0, m. rewrite Em in *. rewrite Hmn, Hm0. auto.
Qed.

(** C2: for a non-empty list of visible items sorted ascending by
    [farDistance] (items as [addVisibleItem] stores them: far distance
    positive, near below far; fewer than [2^31] of them), after
    [splitDepthBuffer] and still after [coalesceDepthBuffer] the item
    counts of the spans add up to the number of items, the spans are
    ordered back to front, each is a proper interval that ends where the
    one in front of it begins, so that no two overlap, and together they
    reach exactly from the smallest near distance to the largest far
    distance of the items. *)
Theorem span_coverage_split_coalesce (items : list VisibleItem) :
  items <> [] ->
  Z.of_nat (length items) < 2 ^ 31 ->
  Forall item_proper items ->
  sorted_by_farDistance items ->
  span_coverage items (splitDepthBufferSpans items) /\
  span_coverage items
    (coalesceDepthBufferSpans (splitDepthBufferSpans items)).
Proof.
  intros Hne Hlen Hp Hs.
  pose proof (split_coverage Hne Hlen Hp Hs) as Hcov.
  split; [exact Hcov|].
  apply coalesce_coverage; [exact Hlen| |exact Hcov].
  apply (splitDepthBufferSpans_invariant Hlen Hp).
Qed.

End SpanCoverage.

Lemma span_coverage_witness :
  twoSpheres <> [] /\
  Z.of_nat (length twoSpheres) < 2 ^ 31 /\
  Forall item_proper twoSpheres /\
  sorted_by_farDistance twoSpheres /\
  span_coverage twoSpheres (splitDepthBufferSpans twoSpheres) /\
  span_coverage twoSpheres
    (coalesceDepthBufferSpans (splitDepthBufferSpans twoSpheres)).
Proof.
  assert (H1 : twoSpheres <> []) by discriminate.
  assert (H2 : Z.of_nat (length twoSpheres) < 2 ^ 31) by (vm_compute; reflexivity).
  assert (H3 : Forall item_proper twoSpheres) by (repeat constructor).
  assert (H4 : sorted_by_farDistance twoSpheres) by (repeat constructor).
  split; [exact H1|]. split; [exact H2|]. split; [exact H3|].
  split; [exact H4|].
  exact (span_coverage_split_coalesce H1 H2 H3 H4).
Defined.

(** ** addVisibleItem (C5) *)

Section AddVisibleItem.
Context {C : Collaborators}.









(** Every item that [addVisibleItem] leaves in either list has a
    positive far distance and a near distance below it. *)
Lemma addVisibleItem_proper (entity : Entity) (geometry : Geometry)
  (position cameraRelativePosition : Vector3d)
  (cameraSpacePosition : Vector3f) (orientation : Quaternionf)
  (nearAdjust : F32.float) (r : UniverseRenderer) :
  Forall item_proper (m_visibleItems r) ->
  Forall item_proper (m_splittableItems r) ->
  let r' :=
    addVisibleItem entity geometry position cameraRelativePosition
      cameraSpacePosition orientation nearAdjust r in
  Forall item_proper (m_visibleItems r') /\
  Forall item_proper (m_splittableItems r').
Proof.
  intros Hv Hs r'. subst r'. unfold addVisibleItem.
  match goal with
  | |- context [if ?c && ?d then _ else _] =>
      destruct c eqn:Hfar; [destruct d eqn:Hnear|]
  end; cbn [andb]; try (split; assumption).
  destruct (ClippingPolicy_eqb (clippingPolicy geometry)
              SplitToPreventClipping); simpl.
  - split; [exact Hv|]. apply Forall_push_back. split; [exact Hs|].
    split; assumption.
  - split; [|exact Hs]. apply Forall_push_back. split; [exact Hv|].
    split; assumption.
Qed.

End AddVisibleItem.

(** ** The view-set state machine (C6) *)

Section ViewSet.
Context {C : Collaborators} {Sorter : StdSort}.

Definition viewSetOpen (r : UniverseRenderer) : bool :=
  match m_universe r with Some _ => true | None => false end.

Definition graphicsInitialized (r : UniverseRenderer) : bool :=
  match m_renderContext r with Some _ => true | None => false end.

(** The status that [beginViewSet] answers, by the three tests in their
    order. *)
Definition beginViewSet_status (universe : option Universe)
  (r : UniverseRenderer) : RenderStatus :=
  if negb (graphicsInitialized r) then RendererUninitialized
  else match universe with
       | None => RendererBadParameter
       | Some _ =>
           if viewSetOpen r then RenderViewSetAlreadyStarted else RenderOk
       end.

Lemma beginViewSet_fst (universe : option Universe) (tsec : Time)
  (r : UniverseRenderer) :
  fst (beginViewSet universe tsec r) = beginViewSet_status universe r.
Proof.
  unfold beginViewSet, beginViewSet_status, graphicsInitialized, viewSetOpen.
  destruct (m_renderContext r), universe, (m_universe r); reflexivity.
Qed.

Lemma beginViewSet_failure (universe : option Universe) (tsec : Time)
  (r : UniverseRenderer) :
  fst (beginViewSet universe tsec r) <> RenderOk ->
  snd (beginViewSet universe tsec r) = r.
Proof.
  unfold beginViewSet.
  destruct (m_renderContext r), universe, (m_universe r); simpl;
    congruence.
Qed.

Lemma beginViewSet_success (universe : option Universe) (tsec : Time)
  (r : UniverseRenderer) :
  fst (beginViewSet universe tsec r) = RenderOk ->
  m_universe (snd (beginViewSet universe tsec r)) = universe /\
  universe <> None /\
  m_currentTime (snd (beginViewSet universe tsec r)) = tsec /\
  m_renderContext (snd (beginViewSet universe tsec r)) = m_renderContext r.
Proof.
  unfold beginViewSet.
  destruct (m_renderContext r) eqn:Hrc, universe, (m_universe r); simpl;
    try congruence.
  intros _. split; [reflexivity|]. split; [discriminate|].
  split; [reflexivity|exact Hrc].
Qed.

(** C6: the status codes of the view-set bracket.  [beginViewSet]
    answers [RendererUninitialized] without a render context, else
    [RendererBadParameter] for a null universe, else
    [RenderViewSetAlreadyStarted] while a view set is open, and leaves
    the renderer as it was in these three cases; otherwise it answers
    [RenderOk] and the view set is open, so that a second [beginViewSet]
    answers [RenderViewSetAlreadyStarted].  [renderView] answers
    [RenderNoViewSet] without an open view set.  [endViewSet] answers
    [RenderNoViewSet] without an open view set and otherwise clears the
    scene reference, changes nothing else, and answers [RenderOk]. *)
Theorem view_set_status_codes (r : UniverseRenderer)
  (universe : option Universe) (tsec : Time) :
  (graphicsInitialized r = false ->
   beginViewSet universe tsec r = (RendererUninitialized, r)) /\
  (graphicsInitialized r = true -> universe = None ->
   beginViewSet universe tsec r = (RendererBadParameter, r)) /\
  (graphicsInitialized r = true -> universe <> None ->
   viewSetOpen r = true ->
   beginViewSet universe tsec r = (RenderViewSetAlreadyStarted, r)) /\
  (graphicsInitialized r = true -> universe <> None ->
   viewSetOpen r = false ->
   fst (beginViewSet universe tsec r) = RenderOk /\
   m_universe (snd (beginViewSet universe tsec r)) = universe /\
   forall (universe' : Universe) (tsec' : Time),
     beginViewSet (Some universe') tsec' (snd (beginViewSet universe tsec r)) =
     (RenderViewSetAlreadyStarted, snd (beginViewSet universe tsec r))) /\
  (viewSetOpen r = false ->
   forall (fuel : nat) (view : View),
     renderView fuel view r = Some (RenderNoViewSet, r)) /\
  (viewSetOpen r = false -> endViewSet r = (RenderNoViewSet, r)) /\
  (viewSetOpen r = true ->
   endViewSet r = (RenderOk, set_universe None r) /\
   viewSetOpen (snd (endViewSet r)) = false).
Proof.
  unfold graphicsInitialized, viewSetOpen, beginViewSet, endViewSet,
    renderView.
  destruct (m_renderContext r) as [rc|] eqn:Hrc;
    destruct universe as [u|];
    destruct (m_universe r) as [u0|] eqn:Hu;
    repeat split; intros; try congruence; try reflexivity;
    simpl; rewrite ?Hrc; reflexivity.
Qed.

End ViewSet.

(** ** Two sorting routines that meet the contract of [std::sort]

    Both are insertion sorts.  [forwardSort] inserts an element in front
    of the first element that is not before it and so keeps equivalent
    elements in their order; [backwardSort] inserts it behind every
    element that it is not before and so reverses them. *)

Section Insertion.
Context {A : Type} (lt : A -> A -> bool).

Fixpoint insertFront (x : A) (l : list A) : list A :=
  match l with
  | [] => [x]
  | y :: l' => if lt y x then y :: insertFront x l' else x :: y :: l'
  end.


Definition forwardSort (l : list A) : list A := fold_right insertFront [] l.

Lemma insertFront_perm (x : A) (l : list A) :
  Permutation (x :: l) (insertFront x l).
Proof.
  induction l as [|y l IH]; simpl; [reflexivity|].
  destruct (lt y x); [|reflexivity].
  rewrite perm_swap. now apply perm_skip.
Qed.


Lemma forwardSort_perm (l : list A) : Permutation l (forwardSort l).
Proof.
  induction l as [|x l IH]; simpl; [reflexivity|].
  rewrite <- insertFront_perm. now apply perm_skip.
Qed.


Hypothesis lt_swo : strict_weak_order lt.

Lemma swo_asym (x y : A) : lt x y = true -> lt y x = false.
Proof.
  destruct lt_swo as (Hirr & Htr & _). intros H.
  destruct (lt y x) eqn:E; [|reflexivity].
  rewrite <- (Hirr x). symmetry. apply Htr with (y := y); assumption.
Qed.

Lemma insertFront_sorted (x : A) (l : list A) :
  sorted_by lt l -> sorted_by lt (insertFront x l).
Proof.
  destruct lt_swo as (Hirr & Htr & Hinc). unfold sorted_by.
  induction l as [|y l IH]; intros Hs; simpl.
  - constructor; constructor.
  - inversion Hs as [|? ? Hs' Hy]; subst.
    destruct (lt y x) eqn:E.
    + constructor; [apply IH; exact Hs'|].
      rewrite Forall_forall in Hy |- *. intros z Hz.
      apply (Permutation_in _ (Permutation_sym (insertFront_perm x l))) in Hz.
      destruct Hz as [<-|Hz]; [apply swo_asym; exact E|apply Hy, Hz].
    + constructor; [exact Hs|].
      constructor; [exact E|].
      rewrite Forall_forall in Hy |- *. intros z Hz.
      apply Hinc with (y := y); [apply Hy, Hz|exact E].
Qed.


Lemma forwardSort_sorted (l : list A) : sorted_by lt (forwardSort l).
Proof.
  induction l as [|x l IH]; simpl; [constructor|].
  apply insertFront_sorted. exact IH.
Qed.


End Insertion.

#[local] Instance ForwardSort : StdSort := {|
  sort := @forwardSort;
  sort_permutation := @forwardSort_perm;
  sort_sorted := fun A lt l H => @forwardSort_sorted A lt H l
|}.


(** ** Culling thresholds (C7) *)

Section Culling.
Context {C : Collaborators}.


End Culling.

(** A render context that sees half a unit per pixel, and the depth
    range from 1 to 100 as frustum. *)
Definition halfUnitContext : RenderContext :=
  {| rc_cameraOrientation := tt; rc_pixelSize := F32.half |}.




(** ** The visible light list (C8) *)

Section LightSelection.
Context {C : Collaborators} {Sorter : StdSort}.

(** The entry of the visible list made for an entry of the master list. *)
Definition toVisibleLight (cameraPosition : Vector3d) (lsi : LightSourceItem) :
  VisibleLightSourceItem :=
  {| vls_lightSource := lsi_lightSource lsi;
     vls_position := lsi_position lsi;
     vls_cameraRelativePosition := v3d_sub (lsi_position lsi) cameraPosition |}.

(** The lights that pass both tests, in the order of the master list. *)
Definition survivingLights (rc : RenderContext) (viewFrustum : Frustum)
  (cameraPosition : Vector3d) (lights : list LightSourceItem) :
  list VisibleLightSourceItem :=
  map (toVisibleLight cameraPosition)
    (filter (fun lsi => negb (lightCull rc viewFrustum cameraPosition lsi))
       lights).

Lemma selectLight_fold (rc : RenderContext) (viewFrustum : Frustum)
  (cameraPosition : Vector3d) (lights : list LightSourceItem) :
  forall visible,
    fold_left (selectLight rc viewFrustum cameraPosition) lights visible =
    visible ++ survivingLights rc viewFrustum cameraPosition lights.
Proof.
  unfold survivingLights.
  induction lights as [|lsi lights IH]; intros visible; simpl.
  - now rewrite app_nil_r.
  - rewrite IH. unfold selectLight.
    destruct (lightCull rc viewFrustum cameraPosition lsi); simpl;
      [reflexivity|].
    unfold push_back, toVisibleLight. now rewrite <- app_assoc.
Qed.






End LightSelection.

(** *** A scene with two lamps *)

Definition demoProjection : AxialProjection :=
  {| ax_near := F32.of_Z 1; ax_far := F32.of_Z 1000;
     ax_pixelSize := F32.half; ax_nearAdjust := F32.one |}.

Definition demoView : @View Axial :=
  {| cameraPosition := F32.zero; cameraOrientation := tt;
     projection := demoProjection; viewport := tt |}.

(** A lamp of range 50 at depth [depth]. *)
Definition lamp (depth : Z) (caster : bool) : @Entity Axial :=
  body depth None
    (Some {| range := F32.of_Z 50; light_isShadowCaster := caster |}).

Definition lampScene : @Universe Axial :=
  {| entities := [lamp 10 false; lamp 20 false] |}.

(** A renderer after [initializeGraphics] and one after [beginViewSet]. *)
Definition readyRenderer : @UniverseRenderer Axial :=
  snd (initializeGraphics (Some halfUnitContext) UniverseRenderer_new).

Definition openRenderer (scene : @Universe Axial) :
  @UniverseRenderer Axial :=
  snd (beginViewSet (Some scene) tt readyRenderer).




(** ** renderView is a function of its inputs (C9) *)

Section Determinism.
Context {C : Collaborators} {Sorter : StdSort}.

(** The members that [renderView] reads but never writes, together with
    whether a render context exists. *)
Definition settings (r : UniverseRenderer) :=
  (m_universe r, m_currentTime r, m_shadowsEnabled r, m_visualizersEnabled r,
   m_skyLayersEnabled r, m_shadowMaps r, m_lightSources r,
   graphicsInitialized r).

(** Every member except the two span lists. *)
Definition core (r : UniverseRenderer) :=
  (m_renderContext r, m_universe r, m_currentTime r, m_shadowsEnabled r,
   m_visualizersEnabled r, m_skyLayersEnabled r, m_shadowMaps r,
   m_lightSources r, m_visibleLightSources r, m_visibleItems r,
   m_splittableItems r, m_viewFrustum r).

#[local] Ltac open_core H :=
  unfold core in H; simpl in H; inversion H; subst; clear H.

Lemma addVisibleItem_core (entity : Entity) (g : Geometry)
  (position relative : Vector3d) (cameraSpace : Vector3f)
  (orientation : Quaternionf) (nearAdjust : F32.float)
  (a b : UniverseRenderer) :
  core a = core b ->
  core (addVisibleItem entity g position relative cameraSpace orientation
          nearAdjust a) =
  core (addVisibleItem entity g position relative cameraSpace orientation
          nearAdjust b).
Proof.
  intros H. destruct a, b. open_core H. unfold addVisibleItem. simpl.
  repeat match goal with |- context [if ?c then _ else _] => destruct c end;
    reflexivity.
Qed.

Lemma fold_left_core {X : Type}
  (f : UniverseRenderer -> X -> UniverseRenderer) (l : list X) :
  (forall a b x, core a = core b -> core (f a x) = core (f b x)) ->
  forall a b, core a = core b -> core (fold_left f l a) = core (fold_left f l b).
Proof.
  intros Hf. induction l as [|x l IH]; intros a b H; simpl; [exact H|].
  apply IH. apply Hf. exact H.
Qed.

Lemma visitVisualizer_core (entity : Entity) (position relative : Vector3d)
  (cameraSpace : Vector3f) (adjust : F32.float)
  (a b : UniverseRenderer) (v : Visualizer) :
  core a = core b ->
  core (visitVisualizer entity position relative cameraSpace adjust a v) =
  core (visitVisualizer entity position relative cameraSpace adjust b v).
Proof.
  intros H. unfold visitVisualizer.
  destruct (vis_isVisible v); [|exact H].
  assert (Ht : m_currentTime a = m_currentTime b)
    by (unfold core in H; congruence).
  rewrite Ht. apply addVisibleItem_core. exact H.
Qed.

Lemma visitEntity_core (rc : RenderContext) (cameraPosition : Vector3d)
  (cameraOrientation : Quaterniond) (adjust : F32.float)
  (a b : UniverseRenderer) (entity : Entity) :
  core a = core b ->
  core (visitEntity rc cameraPosition cameraOrientation adjust a entity) =
  core (visitEntity rc cameraPosition cameraOrientation adjust b entity).
Proof.
  intros H. unfold visitEntity.
  assert (Ht : m_currentTime a = m_currentTime b)
    by (unfold core in H; congruence).
  rewrite Ht. destruct (isVisible entity (m_currentTime b)); [|exact H].
  set (a1 := match sizeCull _ _ _, geometry entity with
             | false, Some g => addVisibleItem _ _ _ _ _ _ _ a
             | _, _ => a end).
  set (b1 := match sizeCull _ _ _, geometry entity with
             | false, Some g => addVisibleItem _ _ _ _ _ _ _ b
             | _, _ => b end).
  assert (H1 : core a1 = core b1).
  { subst a1 b1. destruct (sizeCull _ _ _); [exact H|].
    destruct (geometry entity); [|exact H].
    apply addVisibleItem_core. exact H. }
  destruct (visualizers entity) as [|v vs]; [exact H1|].
  assert (Hv : m_visualizersEnabled a1 = m_visualizersEnabled b1)
    by (unfold core in H1; congruence).
  rewrite Hv. destruct (m_visualizersEnabled b1); [|exact H1].
  apply fold_left_core; [|exact H1].
  intros x y w Hxy. apply visitVisualizer_core. exact Hxy.
Qed.

(** The three stages of [renderView]. *)

Definition viewContext (view : View) : RenderContext :=
  {| rc_cameraOrientation := q_cast (cameraOrientation view);
     rc_pixelSize := pixelSizeOf (projection view) (viewport view) |}.

Definition prepareView (view : View) (r : UniverseRenderer) :
  UniverseRenderer :=
  set_splittableItems []
    (set_visibleItems []
       (set_viewFrustum (proj_frustum (projection view))
          (set_renderContext (Some (viewContext view)) r))).

Definition scanEntities (view : View) (universe : Universe)
  (r : UniverseRenderer) : UniverseRenderer :=
  fold_left
    (visitEntity (viewContext view) (cameraPosition view)
       (cameraOrientation view)
       (nearPlaneFovAdjustmentOf (projection view) (viewport view)))
    (entities universe) r.

Definition finishView (fuel : nat) (view : View) (r : UniverseRenderer) :
  option (RenderStatus * UniverseRenderer) :=
  let r := set_visibleItems (sort visibleItemPredicate (m_visibleItems r)) r in
  let r :=
    set_splittableItems (sort visibleItemPredicate (m_splittableItems r)) r in
  let r := coalesceDepthBuffer (splitDepthBuffer r) in
  match
    extendForSplittable fuel (proj_nearDistance (projection view))
      (proj_farDistance (projection view)) (m_splittableItems r)
      (m_depthBufferSpans r) (m_mergedDepthBufferSpans r)
  with
  | None => None
  | Some merged => Some (RenderOk, set_mergedDepthBufferSpans merged r)
  end.

Lemma renderView_stages (fuel : nat) (view : View) (r : UniverseRenderer) :
  renderView fuel view r =
  match m_universe r with
  | None => Some (RenderNoViewSet, r)
  | Some universe =>
      match m_renderContext r with
      | None => None
      | Some _ =>
          match
            buildVisibleLightSourceList (cameraPosition view)
              (prepareView view r)
          with
          | None => None
          | Some r => finishView fuel view (scanEntities view universe r)
          end
      end
  end.
Proof.
  unfold renderView. destruct (m_universe r); [|reflexivity].
  destruct (m_renderContext r); reflexivity.
Qed.

Lemma prepared_lights (view : View) (r : UniverseRenderer) :
  buildVisibleLightSourceList (cameraPosition view) (prepareView view r) =
  Some (set_visibleLightSources
          (sort lightCastsShadowsPredicate
             (survivingLights (viewContext view)
                (proj_frustum (projection view)) (cameraPosition view)
                (m_lightSources r)))
          (prepareView view r)).
Proof.
  unfold buildVisibleLightSourceList. simpl.
  rewrite selectLight_fold. reflexivity.
Qed.

Lemma finishView_core (fuel : nat) (view : View) (a b : UniverseRenderer) :
  core a = core b -> finishView fuel view a = finishView fuel view b.
Proof.
  intros H. destruct a, b. open_core H. reflexivity.
Qed.

Lemma renderView_settings (fuel : nat) (view : View)
  (a b : UniverseRenderer) :
  settings a = settings b ->
  match m_universe a with
  | None => True
  | Some _ =>
      renderView fuel view a = renderView fuel view b
  end.
Proof.
  intros H. rewrite !renderView_stages.
  assert (Hu : m_universe a = m_universe b) by (unfold settings in H; congruence).
  assert (Hg : graphicsInitialized a = graphicsInitialized b)
    by (unfold settings in H; congruence).
  rewrite <- Hu. destruct (m_universe a) as [universe|]; [|exact I].
  unfold graphicsInitialized in Hg.
  destruct (m_renderContext a), (m_renderContext b); try discriminate;
    [|reflexivity].
  rewrite !prepared_lights. apply finishView_core.
  apply fold_left_core.
  - intros x y e Hxy. apply visitEntity_core. exact Hxy.
  - unfold settings in H. destruct a, b. simpl in *.
    inversion H; subst. reflexivity.
Qed.

Lemma addVisibleItem_settings (entity : Entity) (g : Geometry)
  (position relative : Vector3d) (cameraSpace : Vector3f)
  (orientation : Quaternionf) (nearAdjust : F32.float)
  (r : UniverseRenderer) :
  settings (addVisibleItem entity g position relative cameraSpace orientation
              nearAdjust r) = settings r.
Proof.
  unfold addVisibleItem.
  repeat match goal with |- context [if ?c then _ else _] => destruct c end;
    reflexivity.
Qed.

Lemma fold_left_settings {X : Type}
  (f : UniverseRenderer -> X -> UniverseRenderer) (l : list X) :
  (forall a x, settings (f a x) = settings a) ->
  forall a, settings (fold_left f l a) = settings a.
Proof.
  intros Hf. induction l as [|x l IH]; intros a; simpl; [reflexivity|].
  rewrite IH. apply Hf.
Qed.

Lemma visitEntity_settings (rc : RenderContext) (cameraPosition : Vector3d)
  (cameraOrientation : Quaterniond) (adjust : F32.float)
  (r : UniverseRenderer) (entity : Entity) :
  settings (visitEntity rc cameraPosition cameraOrientation adjust r entity) =
  settings r.
Proof.
  unfold visitEntity.
  destruct (isVisible entity (m_currentTime r)); [|reflexivity].
  set (r1 := match sizeCull _ _ _, geometry entity with
             | false, Some g => addVisibleItem _ _ _ _ _ _ _ r
             | _, _ => r end).
  assert (H1 : settings r1 = settings r).
  { subst r1. destruct (sizeCull _ _ _); [reflexivity|].
    destruct (geometry entity); [|reflexivity].
    apply addVisibleItem_settings. }
  destruct (visualizers entity) as [|v vs]; [exact H1|].
  destruct (m_visualizersEnabled r1); [|exact H1].
  rewrite fold_left_settings; [exact H1|].
  intros a w. unfold visitVisualizer.
  destruct (vis_isVisible w); [|reflexivity].
  apply addVisibleItem_settings.
Qed.

Lemma finishView_settings (fuel : nat) (view : View)
  (r r1 : UniverseRenderer) (status : RenderStatus) :
  finishView fuel view r = Some (status, r1) ->
  status = RenderOk /\ settings r1 = settings r.
Proof.
  unfold finishView.
  match goal with |- context [extendForSplittable ?f ?a ?b ?c ?d ?e] =>
    destruct (extendForSplittable f a b c d e) end; [|discriminate].
  intros [= <- <-]. split; reflexivity.
Qed.

Lemma renderView_keeps_settings (fuel : nat) (view : View)
  (r r1 : UniverseRenderer) (status : RenderStatus) :
  renderView fuel view r = Some (status, r1) -> settings r1 = settings r.
Proof.
  rewrite renderView_stages.
  destruct (m_universe r) as [universe|] eqn:Hu; [|now intros [= <- <-]].
  destruct (m_renderContext r) as [rc|] eqn:Hrc; [|discriminate].
  rewrite prepared_lights. intros H.
  apply finishView_settings in H. destruct H as [_ H]. rewrite H.
  unfold scanEntities. rewrite fold_left_settings.
  - unfold settings, graphicsInitialized. simpl. rewrite Hrc. reflexivity.
  - intros a e. apply visitEntity_settings.
Qed.

(** C9: a second [renderView] with the same camera position, camera
    orientation, projection and viewport, right after a first one that
    returned, with the scene and the lights as they were, returns the
    same status and leaves the renderer exactly as the first call left
    it; in particular the raw and merged span lists (bounds, back
    indices and item counts) and the order of the visible light sources
    are those of the first call. *)
Theorem renderView_deterministic (fuel : nat) (view : View)
  (r r1 : UniverseRenderer) (status : RenderStatus) :
  renderView fuel view r = Some (status, r1) ->
  exists r2,
    renderView fuel view r1 = Some (status, r2) /\
    r2 = r1 /\
    m_depthBufferSpans r2 = m_depthBufferSpans r1 /\
    m_mergedDepthBufferSpans r2 = m_mergedDepthBufferSpans r1 /\
    m_visibleLightSources r2 = m_visibleLightSources r1.
Proof.
  intros H. exists r1.
  assert (Hrun : renderView fuel view r1 = Some (status, r1)).
  { pose proof (renderView_keeps_settings _ _ _ H) as Hs.
    pose proof (renderView_settings fuel view Hs) as Hsame.
    destruct (m_universe r1) as [universe|] eqn:Hu.
    - rewrite Hsame. exact H.
    - assert (Hr : m_universe r = None)
        by (unfold settings in Hs; congruence).
      unfold renderView in H |- *. rewrite Hr in H. rewrite Hu.
      injection H as <- <-. reflexivity. }
  repeat split; try reflexivity. exact Hrun.
Qed.

End Determinism.

(** *** A scene with spheres, a trajectory and lamps *)

(** The projection of [renderView(observer, ...)]: near and far are the
    renderer's limits. *)
Definition defaultProjection : AxialProjection :=
  {| ax_near := MinimumNearPlaneDistance; ax_far := MaximumFarPlaneDistance;
     ax_pixelSize := F32.div F32.one (F32.of_Z (2 ^ 20));
     ax_nearAdjust := F32.one |}.

Definition defaultView : @View Axial :=
  {| cameraPosition := F32.zero; cameraOrientation := tt;
     projection := defaultProjection; viewport := tt |}.

Definition solarScene : @Universe Axial :=
  {| entities :=
       [body 10 (Some (sphere PreserveDepthPrecision 1)) None;
        body 100000 (Some (sphere PreserveDepthPrecision 1)) None;
        body 50 (Some (sphere SplitToPreventClipping 20)) None;
        lamp 10 false;
        lamp 20 true] |}.

Lemma renderView_deterministic_witness :
  exists r1,
    renderView (C := Axial) (Sorter := ForwardSort) 30 defaultView
      (openRenderer solarScene) = Some (RenderOk, r1) /\
    renderView (C := Axial) (Sorter := ForwardSort) 30 defaultView r1 =
      Some (RenderOk, r1) /\
    length (m_mergedDepthBufferSpans r1) = 6%nat.
Proof.
  assert (Hok :
    option_map (fun p => (fst p, length (m_mergedDepthBufferSpans (snd p))))
      (renderView (C := Axial) (Sorter := ForwardSort) 30 defaultView
         (openRenderer solarScene)) = Some (RenderOk, 6%nat))
    by (vm_compute; reflexivity).
  destruct (renderView (C := Axial) (Sorter := ForwardSort) 30 defaultView
              (openRenderer solarScene)) as [[status r1]|] eqn:E;
    [|discriminate].
  simpl in Hok. injection Hok as -> Hlen.
  exists r1. split; [reflexivity|]. split; [|exact Hlen].
  destruct (renderView_deterministic _ _ _ E) as (r2 & H2 & -> & _).
  exact H2.
Defined.

(** Scenario A of the specification: one sphere of radius 1 at distance
    10 under [PreserveDepthPrecision] gives exactly one span, from 9 to
    11. *)
Example single_sphere_single_span :
  option_map
    (fun p => (fst p, m_mergedDepthBufferSpans (snd p)))
    (renderView (C := Axial) (Sorter := ForwardSort) 30 defaultView
       (openRenderer
          {| entities :=
               [body 10 (Some (sphere PreserveDepthPrecision 1)) None] |})) =
  Some (RenderOk,
        [{| backItemIndex := 0; itemCount := 1;
            span_nearDistance := F32.of_Z 9;
            span_farDistance := F32.of_Z 11 |}]).
Proof. vm_compute. reflexivity. Qed.

(** ** Shadows and the shadow-map pool (C10) *)

Section Shadows.
Context {C : Collaborators}.

(** The first entry of the pool is a valid framebuffer. *)
Definition poolReady (r : UniverseRenderer) : Prop :=
  exists fb rest, m_shadowMaps r = Some fb :: rest /\ fb_isValid fb = true.

(** Shadows are only enabled over a ready pool. *)
Definition shadow_invariant (r : UniverseRenderer) : Prop :=
  m_shadowsEnabled r = true -> poolReady r.


Lemma createShadowMaps_nonnull (drv : ShadowDriver) (size : Z) (n : nat) :
  forall i pool pool',
    Forall (fun p => p <> None) pool ->
    createShadowMaps drv size n i pool = Some pool' ->
    Forall (fun p : FramebufferPtr => p <> None) pool' /\
    length pool' = (length pool + n)%nat.
Proof.
  induction n as [|n IH]; intros i pool pool' Hp H; simpl in H.
  - injection H as <-. split; [exact Hp|now rewrite Nat.add_0_r].
  - destruct (drv_createDepthOnlyFramebuffer drv i size) as [fb|];
      [|discriminate].
    apply IH in H.
    + destruct H as [H1 H2]. split; [exact H1|].
      rewrite H2. unfold push_back. rewrite length_app. simpl.
      rewrite <- Nat.add_assoc. reflexivity.
    + apply Forall_push_back. split; [exact Hp|discriminate].
Qed.

(** [initializeShadowMaps] either leaves the renderer as it is or leaves
    shadows disabled; either way the invariant is kept. *)
Lemma initializeShadowMaps_invariant (drv : ShadowDriver)
  (MaxShadowMaps shadowMapSize shadowMapCount : Z) (r : UniverseRenderer) :
  let r' :=
    snd (initializeShadowMaps drv MaxShadowMaps shadowMapSize shadowMapCount r)
  in
  (r' = r \/ m_shadowsEnabled r' = false) /\
  (shadow_invariant r -> shadow_invariant r').
Proof.
  unfold initializeShadowMaps.
  destruct (m_renderContext r); [|simpl; auto].
  destruct (drv_shadowsSupported drv); simpl; [|auto].
  match goal with |- context [createShadowMaps ?d ?s ?n ?i ?p] =>
    destruct (createShadowMaps d s n i p) end; simpl;
    (split; [right; reflexivity|]);
    intros _; unfold shadow_invariant; simpl; discriminate.
Qed.

(** The pool after [initializeShadowMaps] is the one before (the two
    early returns), or empty (a failed creation, or no maps asked for), or
    holds only framebuffers that were created: the pool never holds a
    null pointer unless it held one before. *)
Lemma initializeShadowMaps_pool (drv : ShadowDriver)
  (MaxShadowMaps shadowMapSize shadowMapCount : Z) (r : UniverseRenderer) :
  let '(ok, r') :=
    initializeShadowMaps drv MaxShadowMaps shadowMapSize shadowMapCount r in
  (ok = false /\ (r' = r \/ m_shadowMaps r' = [])) \/
  (ok = true /\ Forall (fun p : FramebufferPtr => p <> None) (m_shadowMaps r')).
Proof.
  unfold initializeShadowMaps.
  destruct (m_renderContext r); [|left; auto].
  destruct (drv_shadowsSupported drv); simpl; [|left; auto].
  match goal with |- context [createShadowMaps ?d ?s ?n ?i ?p] =>
    destruct (createShadowMaps d s n i p) as [pool|] eqn:E end.
  - right. split; [reflexivity|]. simpl.
    apply createShadowMaps_nonnull in E; [tauto|constructor].
  - left. split; [reflexivity|]. right. reflexivity.
Qed.

End Shadows.

(** A driver that supports shadows and fails to create the second
    framebuffer. *)
Definition failingDriver : ShadowDriver :=
  {| drv_shadowsSupported := true;
     drv_maxTextureSize := 4096;
     drv_createDepthOnlyFramebuffer :=
       fun i _ =>
         match i with
         | O => Some {| fb_isValid := true |}
         | _ => None
         end |}.

(** C10 fails on the code where the pool is empty.  On a new renderer,
    after an [initializeShadowMaps] that asked for no maps (and reported
    success), and after one that failed halfway and cleared the pool,
    the pool is empty and [setShadowsEnabled(true)] reads
    [m_shadowMaps[0]] outside the vector: the call has no defined
    result, so it is not known to leave shadows disabled. *)
Theorem setShadowsEnabled_empty_pool :
  setShadowsEnabled true (UniverseRenderer_new (C := Axial)) = None /\
  (let '(ok, r) :=
     initializeShadowMaps failingDriver 3 1024 0 readyRenderer in
   ok = true /\ m_shadowMaps r = [] /\ setShadowsEnabled true r = None) /\
  (let '(ok, r) :=
     initializeShadowMaps failingDriver 3 1024 2 readyRenderer in
   ok = false /\ m_shadowMaps r = [] /\ setShadowsEnabled true r = None).
Proof. repeat split. Qed.

(** ** Extra spans for splittable geometry (C3, C4) *)

(** The front spans that the loop of [renderView] adds in front of a span
    list whose front-most near distance is [prevNear]: none when
    [prevNear] is not above the projection's near distance, otherwise a
    span from [max(projNear, prevNear / MaxFarNearRatio)] to [prevNear]
    and then the front spans for its near distance. *)
Inductive front_spans (projNear : F32.float) :
  F32.float -> list DepthBufferSpan -> Prop :=
| front_spans_done (prevNear : F32.float) :
    F32.gtb prevNear projNear = false ->
    front_spans projNear prevNear []
| front_spans_more (prevNear : F32.float) (rest : list DepthBufferSpan) :
    F32.gtb prevNear projNear = true ->
    front_spans projNear
      (F32.max projNear (F32.div prevNear MaxFarNearRatio)) rest ->
    front_spans projNear prevNear
      (syntheticSpan (F32.max projNear (F32.div prevNear MaxFarNearRatio))
         prevNear :: rest).

Lemma addFrontSpans_sound (projNear : F32.float) (fuel : nat) :
  forall merged out b,
    back merged = Some b ->
    addFrontSpans fuel projNear merged = Some out ->
    exists fronts,
      out = merged ++ fronts /\
      front_spans projNear (span_nearDistance b) fronts.
Proof.
  induction fuel as [|fuel IH]; intros merged out b Hb H; [discriminate|].
  simpl in H. rewrite Hb in H.
  destruct (F32.gtb (span_nearDistance b) projNear) eqn:E.
  - apply IH with (b := syntheticSpan
                          (F32.max projNear
                             (F32.div (span_nearDistance b) MaxFarNearRatio))
                          (span_nearDistance b)) in H;
      [|apply back_push_back].
    destruct H as (fronts & -> & Hf). eexists. split.
    + unfold push_back. rewrite <- app_assoc. reflexivity.
    + simpl. apply front_spans_more; assumption.
  - injection H as <-. exists []. split; [now rewrite app_nil_r|].
    apply front_spans_done. exact E.
Qed.

Lemma addFrontSpans_complete (projNear : F32.float)
  (fronts : list DepthBufferSpan) :
  forall prevNear merged b fuel,
    front_spans projNear prevNear fronts ->
    back merged = Some b -> span_nearDistance b = prevNear ->
    (length fronts < fuel)%nat ->
    addFrontSpans fuel projNear merged = Some (merged ++ fronts).
Proof.
  induction fronts as [|s fronts IH]; intros prevNear merged b fuel Hf Hb Hn Hl.
  - destruct fuel as [|fuel]; [inversion Hl|]. simpl. rewrite Hb, Hn.
    inversion Hf; subst.
    match goal with H : F32.gtb _ _ = false |- _ => rewrite H end.
    now rewrite app_nil_r.
  - destruct fuel as [|fuel]; [inversion Hl|]. simpl. rewrite Hb, Hn.
    inversion Hf as [|? ? Hg Hrest]; subst. rewrite Hg.
    rewrite IH with (prevNear :=
                       F32.max projNear
                         (F32.div (span_nearDistance b) MaxFarNearRatio))
                    (b := syntheticSpan
                            (F32.max projNear
                               (F32.div (span_nearDistance b) MaxFarNearRatio))
                            (span_nearDistance b));
      [|exact Hrest|apply back_push_back|reflexivity|simpl in Hl; lia].
    unfold push_back. rewrite <- app_assoc. reflexivity.
Qed.

(** What the front spans look like: no items; each reaches from
    [max(projNear, far / MaxFarNearRatio)] to the near distance of the
    span behind it, so its near distance is below neither the
    projection's near distance nor its far distance over
    [MaxFarNearRatio]; and the front-most near distance is not above the
    projection's near distance. *)
Record front_span_shape (projNear : F32.float) (s : DepthBufferSpan) :
  Prop := {
  fs_empty : itemCount s = 0;
  fs_near :
    span_nearDistance s =
    F32.max projNear (F32.div (span_farDistance s) MaxFarNearRatio);
  fs_ratio :
    F32.ltb (span_nearDistance s)
      (F32.div (span_farDistance s) MaxFarNearRatio) = false;
  fs_above : F32.ltb (span_nearDistance s) projNear = false
}.

Lemma front_spans_shape (projNear prevNear : F32.float)
  (fronts : list DepthBufferSpan) :
  front_spans projNear prevNear fronts ->
  Forall (front_span_shape projNear) fronts /\
  chained fronts /\
  (forall first, front fronts = Some first ->
     span_farDistance first = prevNear) /\
  (fronts = [] -> F32.gtb prevNear projNear = false) /\
  (forall last, back fronts = Some last ->
     F32.gtb (span_nearDistance last) projNear = false).
Proof.
  induction 1 as [prevNear Hd|prevNear rest Hg Hrest IH].
  - split; [constructor|]. split; [exact I|].
    split; [discriminate|]. split; [intros _; exact Hd|discriminate].
  - destruct IH as (IH1 & IH2 & IH3 & IH4 & IH5).
    split; [|split; [|split; [|split]]].
    + constructor; [|exact IH1]. constructor; simpl.
      * reflexivity.
      * reflexivity.
      * apply F32Order.max_not_below_r.
      * apply F32Order.max_not_below_l.
    + destruct rest as [|t rest]; [exact I|].
      split; [apply IH3; reflexivity|exact IH2].
    + simpl. intros first [= <-]. reflexivity.
    + discriminate.
    + intros last. rewrite back_cons.
      destruct (back rest) as [b|] eqn:Hb.
      * intros [= <-]. apply IH5. reflexivity.
      * intros [= <-]. simpl. apply IH4. apply back_None_inv. exact Hb.
Qed.

(** ** Termination of the front-span loop *)

(** A zero or a finite number within the exponent range of binary32. *)
Definition representable (x : F32.float) : Prop :=
  match x with
  | S754_zero _ => True
  | S754_finite _ m e => -149 <= e /\ Zpos (digits2_pos m) + e <= 128
  | _ => False
  end.

(** A finite binary32 number in the sense of the Standard Library. *)
Definition finite_valid (x : F32.float) : bool :=
  F32.is_finite x && valid_binary F32.prec F32.emax x.

(** The magnitude above the smallest exponent; zero for zeros. *)
Definition rank (x : F32.float) : nat :=
  match x with
  | S754_finite _ m e => Z.to_nat (Zpos (digits2_pos m) + e + 149)
  | _ => O
  end.

Lemma finite_valid_representable (x : F32.float) :
  finite_valid x = true -> representable x.
Proof.
  unfold finite_valid, representable, F32.is_finite, valid_binary.
  destruct x as [s|s| |s m e]; try discriminate; [intros _; exact I|].
  unfold bounded, canonical_mantissa. intros H.
  apply andb_true_iff in H. destruct H as [_ H].
  apply andb_true_iff in H. destruct H as [Hc Hb].
  apply Z.eqb_eq in Hc. apply Z.leb_le in Hb.
  rewrite fexp32 in Hc. unfold F32.emax, F32.prec in Hb. lia.
Qed.

Lemma MaxFarNearRatio_value :
  MaxFarNearRatio = S754_finite false 10240000 (-10).
Proof. reflexivity. Qed.

Lemma div_ratio_representable (x : F32.float) :
  representable x ->
  representable (F32.div x MaxFarNearRatio) /\
  (F32.ltb F32.zero x = true ->
   F32.div x MaxFarNearRatio = F32.zero \/
   (rank (F32.div x MaxFarNearRatio) < rank x)%nat).
Proof.
  unfold F32.div, F32.prec, F32.emax. rewrite MaxFarNearRatio_value.
  destruct x as [s|s| |s m e]; try contradiction.
  - intros _. split; [exact I|]. destruct s; discriminate.
  - intros [He Hm].
    destruct (div_by_ratio s m e He Hm) as [E|(m' & e' & E & He' & Hm')];
      rewrite E.
    + split; [exact I|]. destruct s; [discriminate|]. intros _. now left.
    + split; [unfold representable; lia|]. intros _. right. unfold rank.
      pose proof (digits2_bounds m'). lia.
Qed.

Lemma not_negative_zero (projNear : F32.float) (s : bool) :
  F32.ltb projNear F32.zero = false ->
  F32.ltb projNear (S754_zero s) = false.
Proof.
  unfold F32.ltb, F32.zero, SFltb, SFcompare.
  destruct projNear as [?|[]| |[] ? ?]; congruence.
Qed.

Lemma not_negative_above (projNear x : F32.float) :
  F32.ltb projNear F32.zero = false ->
  F32.ltb projNear x = true -> F32.ltb F32.zero x = true.
Proof.
  unfold F32.ltb, F32.zero, SFltb, SFcompare.
  destruct projNear as [?|[]| |[] ? ?], x as [?|[]| |[] ? ?]; congruence.
Qed.

(** When the projection's near distance is not negative, the loop ends
    for every representable starting distance, after at most one round
    more than the rank of that distance. *)
Lemma front_spans_exist (projNear : F32.float) :
  F32.ltb projNear F32.zero = false ->
  forall (n : nat) (x : F32.float),
    (rank x <= n)%nat -> representable x ->
    exists fronts,
      front_spans projNear x fronts /\ (length fronts <= S n)%nat.
Proof.
  intros Hpn. induction n as [|n IH]; intros x Hrank Hx.
  - destruct (F32.gtb x projNear) eqn:G;
      [|exists []; split; [now constructor|simpl; lia]].
    eexists. split.
    + apply front_spans_more; [exact G|].
      apply front_spans_done. unfold F32.max.
      destruct (F32.ltb projNear (F32.div x MaxFarNearRatio)) eqn:L;
        [|apply F32Order.ltb_irrefl].
      exfalso. destruct (div_ratio_representable x Hx) as [_ Hdec].
      destruct Hdec as [Hz|Hlt]; [apply (not_negative_above _ _ Hpn G)| |lia].
      rewrite Hz in L. unfold F32.gtb in *. congruence.
    + simpl. lia.
  - destruct (F32.gtb x projNear) eqn:G;
      [|exists []; split; [now constructor|simpl; lia]].
    destruct (div_ratio_representable x Hx) as [Hy Hdec].
    unfold F32.gtb in G.
    specialize (Hdec (not_negative_above _ _ Hpn G)).
    destruct (F32.ltb projNear (F32.div x MaxFarNearRatio)) eqn:L.
    + destruct Hdec as [Hz|Hlt]; [rewrite Hz in L; congruence|].
      destruct (IH (F32.div x MaxFarNearRatio)) as (fronts & Hf & Hlen);
        [lia|exact Hy|].
      eexists. split.
      * apply front_spans_more; [exact G|].
        unfold F32.max. rewrite L. exact Hf.
      * simpl. lia.
    + eexists. split.
      * apply front_spans_more; [exact G|].
        unfold F32.max. rewrite L. apply front_spans_done.
        apply F32Order.ltb_irrefl.
      * simpl. lia.
Qed.

(** ** The extension as a whole *)

Section Extension.
Context {C : Collaborators}.

(** The front spans and the outer back span, for a span list [base]
    that already has its furthest span. *)
Lemma extension_from_base (projNear : F32.float)
  (base : list DepthBufferSpan) (backmost frontmost : DepthBufferSpan) :
  front base = Some backmost -> back base = Some frontmost ->
  F32.ltb projNear F32.zero = false ->
  representable (span_nearDistance frontmost) \/
  F32.gtb (span_nearDistance frontmost) projNear = false ->
  exists fronts,
    front_spans projNear (span_nearDistance frontmost) fronts /\
    Forall (front_span_shape projNear) fronts /\
    chained fronts /\
    (forall first, front fronts = Some first ->
       span_farDistance first = span_nearDistance frontmost) /\
    (forall last, back (base ++ fronts) = Some last ->
       F32.gtb (span_nearDistance last) projNear = false) /\
    forall fuel, (length fronts < fuel)%nat ->
      match addFrontSpans fuel projNear base with
      | Some merged => addOuterBackSpan merged
      | None => None
      end =
      Some (syntheticSpan (span_farDistance backmost)
              (F32.mul (span_farDistance backmost) MaxFarNearRatio)
            :: base ++ fronts).
Proof.
  intros Hfront Hback Hpn Hstart.
  assert (Hex : exists fronts,
            front_spans projNear (span_nearDistance frontmost) fronts).
  { destruct Hstart as [Hr|Hg].
    - destruct (front_spans_exist projNear Hpn
                  (span_nearDistance frontmost) (le_n _) Hr)
        as (fronts & Hf & _).
      exists fronts. exact Hf.
    - exists []. constructor. exact Hg. }
  destruct Hex as (fronts & Hf). exists fronts.
  destruct (front_spans_shape Hf) as (H1 & H2 & H3 & H4 & H5).
  split; [exact Hf|]. split; [exact H1|]. split; [exact H2|].
  split; [exact H3|]. split.
  - intros last. destruct fronts as [|f fronts].
    + rewrite app_nil_r, Hback. intros [= <-]. apply H4. reflexivity.
    + rewrite back_app_cons. apply H5.
  - intros fuel Hfuel.
    rewrite (addFrontSpans_complete base Hf Hback eq_refl Hfuel).
    unfold addOuterBackSpan.
    destruct base as [|b0 base]; [discriminate|].
    simpl in Hfront. injection Hfront as ->. reflexivity.
Qed.


Lemma first_span_start (projNear projFar : F32.float) :
  finite_valid projFar = true ->
  representable (F32.max projNear (F32.div projFar MaxFarNearRatio)) \/
  F32.gtb (F32.max projNear (F32.div projFar MaxFarNearRatio)) projNear =
    false.
Proof.
  intros Hpf. unfold F32.max.
  destruct (F32.ltb projNear (F32.div projFar MaxFarNearRatio)) eqn:L.
  - left. apply div_ratio_representable.
    apply finite_valid_representable. exact Hpf.
  - right. apply F32Order.ltb_irrefl.
Qed.


(** C3, as amended: with no visible items and some splittable item, for
    a projection whose near distance is not negative and whose far
    distance is a finite number, the merged span list holds spans
    without items only, and at least two of them: one behind the
    camera's range, from [projFar] to [projFar * MaxFarNearRatio]; one
    from [max(projNear, projFar / MaxFarNearRatio)] to [projFar]; and in
    front of it the front spans, each from
    [max(projNear, far / MaxFarNearRatio)] to the near distance of the
    span behind it, down to a near distance that is not above
    [projNear]. *)
Theorem splittable_only_spans (projNear projFar : F32.float)
  (splittable : list VisibleItem) :
  splittable <> [] ->
  F32.ltb projNear F32.zero = false ->
  finite_valid projFar = true ->
  let start := F32.max projNear (F32.div projFar MaxFarNearRatio) in
  exists fronts,
    front_spans projNear start fronts /\
    Forall (front_span_shape projNear) fronts /\
    (forall last,
       back (syntheticSpan start projFar :: fronts) = Some last ->
       F32.gtb (span_nearDistance last) projNear = false) /\
    forall fuel, (length fronts < fuel)%nat ->
      extendForSplittable fuel projNear projFar splittable
        (splitDepthBufferSpans [])
        (coalesceDepthBufferSpans (splitDepthBufferSpans [])) =
      Some (syntheticSpan projFar (F32.mul projFar MaxFarNearRatio)
            :: syntheticSpan start projFar :: fronts).
Proof.
  intros Hne Hpn Hpf start.
  destruct (@extension_from_base projNear [syntheticSpan start projFar]
              (syntheticSpan start projFar) (syntheticSpan start projFar)
              eq_refl eq_refl Hpn (first_span_start projNear projFar Hpf))
    as (fronts & H1 & H2 & _ & _ & H5 & H6).
  exists fronts. split; [exact H1|]. split; [exact H2|].
  split; [exact H5|].
  intros fuel Hfuel. unfold extendForSplittable.
  destruct splittable as [|i0 splittable]; [contradiction|].
  exact (H6 fuel Hfuel).
Qed.

End Extension.

(** *** Orbits around the camera *)

(** A trajectory of radius [10^9] centred on the camera, alone and with a
    sphere of radius 1 at depth 3. *)
Definition orbit : @Entity Axial :=
  body 0 (Some (sphere SplitToPreventClipping 1000000000)) None.

Definition onlyOrbit : @Universe Axial := {| entities := [orbit] |}.


(** C3, as stated, fails.  With the orbit alone and the default
    projection (near [0.00001f], far [1.0e12]) there is no visible item
    and one splittable item, and [renderView] leaves six spans, of which
    the first lies wholly behind the projection's far distance; the list
    is not the one span from the projection's near to its far
    distance. *)
Lemma single_span_counterexample :
  exists r1,
    renderView (C := Axial) (Sorter := ForwardSort) 30 defaultView
      (openRenderer onlyOrbit) = Some (RenderOk, r1) /\
    length (m_visibleItems r1) = 0%nat /\
    length (m_splittableItems r1) = 1%nat /\
    length (m_mergedDepthBufferSpans r1) = 6%nat /\
    m_mergedDepthBufferSpans r1 <>
      [syntheticSpan MinimumNearPlaneDistance MaximumFarPlaneDistance] /\
    front (m_mergedDepthBufferSpans r1) =
      Some (syntheticSpan MaximumFarPlaneDistance
              (F32.mul MaximumFarPlaneDistance MaxFarNearRatio)).
Proof.
  assert (Hok :
    option_map
      (fun p => (fst p, length (m_visibleItems (snd p)),
                 length (m_splittableItems (snd p)),
                 length (m_mergedDepthBufferSpans (snd p)),
                 front (m_mergedDepthBufferSpans (snd p))))
      (renderView (C := Axial) (Sorter := ForwardSort) 30 defaultView
         (openRenderer onlyOrbit)) =
    Some (RenderOk, 0%nat, 1%nat, 6%nat,
          Some (syntheticSpan MaximumFarPlaneDistance
                  (F32.mul MaximumFarPlaneDistance MaxFarNearRatio))))
    by (vm_compute; reflexivity).
  destruct (renderView (C := Axial) (Sorter := ForwardSort) 30 defaultView
              (openRenderer onlyOrbit)) as [[status r1]|]; [|discriminate].
  simpl in Hok. injection Hok as -> Hv Hs Hm Hf.
  exists r1. repeat split; try assumption.
  intros E. rewrite E in Hm. discriminate.
Qed.

Lemma splittable_only_spans_witness :
  [sphereItem SplitToPreventClipping 0 1000000000] <> [] /\
  F32.ltb MinimumNearPlaneDistance F32.zero = false /\
  finite_valid MaximumFarPlaneDistance = true /\
  exists fronts,
    front_spans MinimumNearPlaneDistance
      (F32.max MinimumNearPlaneDistance
         (F32.div MaximumFarPlaneDistance MaxFarNearRatio)) fronts /\
    forall fuel, (length fronts < fuel)%nat ->
      extendForSplittable fuel MinimumNearPlaneDistance
        MaximumFarPlaneDistance
        [sphereItem SplitToPreventClipping 0 1000000000]
        (splitDepthBufferSpans (C := Axial) [])
        (coalesceDepthBufferSpans (splitDepthBufferSpans (C := Axial) [])) =
      Some (syntheticSpan MaximumFarPlaneDistance
              (F32.mul MaximumFarPlaneDistance MaxFarNearRatio)
            :: syntheticSpan
                 (F32.max MinimumNearPlaneDistance
                    (F32.div MaximumFarPlaneDistance MaxFarNearRatio))
                 MaximumFarPlaneDistance
            :: fronts).
Proof.
  assert (H1 : [sphereItem SplitToPreventClipping 0 1000000000] <> [])
    by discriminate.
  assert (H2 : F32.ltb MinimumNearPlaneDistance F32.zero = false)
    by reflexivity.
  assert (H3 : finite_valid MaximumFarPlaneDistance = true) by reflexivity.
  split; [exact H1|]. split; [exact H2|]. split; [exact H3|].
  destruct (@splittable_only_spans Axial MinimumNearPlaneDistance
              MaximumFarPlaneDistance
              [sphereItem SplitToPreventClipping 0 1000000000] H1 H2 H3)
    as (fronts & Hf & _ & _ & Hrun).
  exists fronts. split; [exact Hf|exact Hrun].
Defined.






(** * The renderer between calls *)

(** ** The light list of a view set *)

Section LightList.
Context {C : Collaborators}.

(** The entry that [beginViewSet] adds for the Sun. *)
Definition sunItem : LightSourceItem :=
  {| lsi_lightSource := None; lsi_position := v3d_zero |}.

(** The entries that one entity adds to the light list at time [t]. *)
Definition entityLights (t : Time) (entity : Entity) : list LightSourceItem :=
  match lightSource entity with
  | Some light =>
      if isVisible entity t then
        [{| lsi_lightSource := Some light; lsi_position := position entity t |}]
      else []
  | None => []
  end.

Lemma collectLightSource_fold (t : Time) (es : list Entity) :
  forall lights,
    fold_left (collectLightSource t) es lights =
    lights ++ flat_map (entityLights t) es.
Proof.
  induction es as [|e es IH]; intros lights; simpl.
  - now rewrite app_nil_r.
  - rewrite IH. unfold collectLightSource, entityLights, push_back.
    destruct (lightSource e); [destruct (isVisible e t)|];
      simpl; now rewrite <- ?app_assoc.
Qed.

Lemma entityLights_not_sun (t : Time) (es : list Entity) :
  Forall (fun l => lsi_lightSource l <> None) (flat_map (entityLights t) es).
Proof.
  induction es as [|e es IH]; simpl; [constructor|].
  apply Forall_app. split; [|exact IH].
  unfold entityLights.
  destruct (lightSource e); [destruct (isVisible e t)|]; repeat constructor.
  simpl. discriminate.
Qed.

Lemma beginViewSet_ok (universe : Universe) (t : Time)
  (r r' : UniverseRenderer) :
  beginViewSet (Some universe) t r = (RenderOk, r') ->
  m_renderContext r <> None /\ m_universe r = None /\
  r' =
  set_lightSources
    (sunItem :: flat_map (entityLights t) (entities universe))
    (set_currentTime t (set_universe (Some universe) r)).
Proof.
  unfold beginViewSet.
  destruct (m_renderContext r); [|discriminate].
  destruct (m_universe r); [discriminate|].
  intros [= <-]. split; [discriminate|]. split; [reflexivity|].
  cbn [m_currentTime set_currentTime].
  rewrite collectLightSource_fold. reflexivity.
Qed.

(** X1: A successful [beginViewSet] rebuilds the light list from nothing: the
    Sun at the origin comes first, then one entry for every entity that
    has a light source and is visible at the new time, in the order of
    the universe; no other entry has a null light source, and what the
    list held before is gone. *)
Theorem beginViewSet_light_list (universe : Universe) (t : Time)
  (r r' : UniverseRenderer) :
  beginViewSet (Some universe) t r = (RenderOk, r') ->
  m_lightSources r' =
    sunItem :: flat_map (entityLights t) (entities universe) /\
  Forall (fun l => lsi_lightSource l <> None)
    (flat_map (entityLights t) (entities universe)) /\
  m_universe r' = Some universe /\ m_currentTime r' = t.
Proof.
  intros H. apply beginViewSet_ok in H. destruct H as (_ & _ & ->).
  split; [reflexivity|]. split; [apply entityLights_not_sun|].
  split; reflexivity.
Qed.

(** X2: A view set that is opened and closed leaves the renderer as it was
    but for the time and the light list; closing it once more is
    refused, and another view set can then be opened. *)
Theorem view_set_round_trip (universe : Universe) (t : Time)
  (r : UniverseRenderer) :
  m_renderContext r <> None -> m_universe r = None ->
  exists r1,
    beginViewSet (Some universe) t r = (RenderOk, r1) /\
    endViewSet r1 =
      (RenderOk, set_lightSources (m_lightSources r1) (set_currentTime t r)) /\
    fst (endViewSet (snd (endViewSet r1))) = RenderNoViewSet /\
    forall (universe' : Universe) (t' : Time),
      fst (beginViewSet (Some universe') t' (snd (endViewSet r1))) = RenderOk.
Proof.
  intros Hrc Hu.
  destruct (beginViewSet (Some universe) t r) as [status r1] eqn:E.
  assert (Hs : status = RenderOk).
  { revert E. unfold beginViewSet.
    destruct (m_renderContext r); [|contradiction]. rewrite Hu.
    now intros [= <- _]. }
  subst status. exists r1. split; [reflexivity|].
  apply beginViewSet_ok in E. destruct E as (_ & _ & ->).
  split; [|split].
  - unfold endViewSet. cbn. rewrite <- Hu. reflexivity.
  - reflexivity.
  - intros universe' t'. unfold endViewSet, beginViewSet. cbn.
    destruct (m_renderContext r); [reflexivity|contradiction].
Qed.

End LightList.

(** ** What one [renderView] leaves behind *)

Section RenderViewResult.
Context {C : Collaborators} {Sorter : StdSort}.

(** Every member except the two item lists and the two span lists. *)
Definition surroundings (r : UniverseRenderer) :=
  (m_renderContext r, m_universe r, m_currentTime r, m_shadowsEnabled r,
   m_visualizersEnabled r, m_skyLayersEnabled r, m_shadowMaps r,
   m_lightSources r, m_visibleLightSources r, m_viewFrustum r).

Lemma addVisibleItem_surroundings (entity : Entity) (g : Geometry)
  (position relative : Vector3d) (cameraSpace : Vector3f)
  (orientation : Quaternionf) (nearAdjust : F32.float)
  (r : UniverseRenderer) :
  surroundings (addVisibleItem entity g position relative cameraSpace
                  orientation nearAdjust r) = surroundings r.
Proof.
  unfold addVisibleItem.
  repeat match goal with |- context [if ?c then _ else _] => destruct c end;
    reflexivity.
Qed.

(** A property of the renderer that every [addVisibleItem] keeps is kept
    by the scan over all entities. *)
Lemma visitEntity_keeps (P : UniverseRenderer -> Prop)
  (rc : RenderContext) (cameraPosition : Vector3d)
  (cameraOrientation : Quaterniond) (adjust : F32.float) :
  (forall entity g position relative cameraSpace orientation r,
     P r ->
     P (addVisibleItem entity g position relative cameraSpace orientation
          adjust r)) ->
  forall (r : UniverseRenderer) (entity : Entity),
    P r -> P (visitEntity rc cameraPosition cameraOrientation adjust r entity).
Proof.
  intros Hadd r entity Hr. unfold visitEntity.
  destruct (isVisible entity (m_currentTime r)); [|exact Hr].
  set (r1 := match sizeCull _ _ _, geometry entity with
             | false, Some g => addVisibleItem _ _ _ _ _ _ _ r
             | _, _ => r end).
  assert (H1 : P r1).
  { subst r1. destruct (sizeCull _ _ _); [exact Hr|].
    destruct (geometry entity); [|exact Hr]. apply Hadd. exact Hr. }
  destruct (visualizers entity) as [|v vs]; [exact H1|].
  destruct (m_visualizersEnabled r1); [|exact H1].
  generalize (v :: vs). intros l. revert H1. generalize r1.
  induction l as [|w l IH]; intros a Ha; simpl; [exact Ha|].
  apply IH. unfold visitVisualizer.
  destruct (vis_isVisible w); [|exact Ha]. apply Hadd. exact Ha.
Qed.

Lemma scanEntities_keeps (P : UniverseRenderer -> Prop) (view : View)
  (universe : Universe) :
  (forall entity g position relative cameraSpace orientation r,
     P r ->
     P (addVisibleItem entity g position relative cameraSpace orientation
          (nearPlaneFovAdjustmentOf (projection view) (viewport view)) r)) ->
  forall r, P r -> P (scanEntities view universe r).
Proof.
  intros Hadd. unfold scanEntities.
  induction (entities universe) as [|e es IH]; intros r Hr; simpl;
    [exact Hr|].
  apply IH. apply visitEntity_keeps; assumption.
Qed.

Lemma scanEntities_surroundings (view : View) (universe : Universe)
  (r : UniverseRenderer) :
  surroundings (scanEntities view universe r) = surroundings r.
Proof.
  apply (scanEntities_keeps (fun a => surroundings a = surroundings r));
    [|reflexivity].
  intros. rewrite addVisibleItem_surroundings. assumption.
Qed.

(** The renderer at the point where the scan over the entities begins. *)
Definition litView (view : View) (r : UniverseRenderer) : UniverseRenderer :=
  set_visibleLightSources
    (sort lightCastsShadowsPredicate
       (survivingLights (viewContext view) (proj_frustum (projection view))
          (cameraPosition view) (m_lightSources r)))
    (prepareView view r).

(** What a [renderView] that returns has done. *)
Lemma renderView_result (fuel : nat) (view : View) (r r' : UniverseRenderer)
  (status : RenderStatus) :
  renderView fuel view r = Some (status, r') ->
  match m_universe r with
  | None => status = RenderNoViewSet /\ r' = r
  | Some universe =>
      let scanned := scanEntities view universe (litView view r) in
      status = RenderOk /\
      m_renderContext r <> None /\
      surroundings r' = surroundings (litView view r) /\
      m_visibleItems r' = sort visibleItemPredicate (m_visibleItems scanned) /\
      m_splittableItems r' =
        sort visibleItemPredicate (m_splittableItems scanned) /\
      m_depthBufferSpans r' = splitDepthBufferSpans (m_visibleItems r') /\
      extendForSplittable fuel (proj_nearDistance (projection view))
        (proj_farDistance (projection view)) (m_splittableItems r')
        (m_depthBufferSpans r')
        (coalesceDepthBufferSpans (m_depthBufferSpans r')) =
      Some (m_mergedDepthBufferSpans r')
  end.
Proof.
  rewrite renderView_stages.
  destruct (m_universe r) as [universe|]; [|now intros [= <- <-]].
  destruct (m_renderContext r) as [rc|]; [|discriminate].
  rewrite prepared_lights. fold (litView view r).
  pose proof (scanEntities_surroundings view universe (litView view r)) as Hs.
  set (scanned := scanEntities view universe (litView view r)) in *.
  unfold finishView.
  match goal with |- context [extendForSplittable ?f ?a ?b ?c ?d ?e] =>
    destruct (extendForSplittable f a b c d e) as [merged|] eqn:E end;
    [|discriminate].
  intros [= <- <-]. cbv zeta.
  split; [reflexivity|]. split; [discriminate|].
  split; [rewrite <- Hs; reflexivity|].
  split; [reflexivity|]. split; [reflexivity|]. split; [reflexivity|].
  exact E.
Qed.

End RenderViewResult.

(** ** The states a renderer can be in

    A renderer is built by its constructor and is then only changed by
    calls of its public methods.  The members of the visibility part
    are written by [initializeGraphics], [initializeShadowMaps],
    [setShadowsEnabled], [setVisualizersEnabled], [setSkyLayersEnabled],
    [beginViewSet], [endViewSet] and [renderView]; the other public
    methods either write none of them or get to them through
    [renderView].  A call whose result the language does not define
    ends the history. *)

Section Protocol.
Context {C : Collaborators} {Sorter : StdSort}.

(** The class constant [MaxShadowMaps] of the header. *)
Variable MaxShadowMaps : Z.
















End Protocol.

(** ** The items of a span

    [renderDepthBufferSpan] and the two shadow passes read the items of a
    span as [m_visibleItems[span.backItemIndex - i]] for [i] below
    [span.itemCount], in unsigned arithmetic. *)

Definition spanItemIndices (span : DepthBufferSpan) : list Z :=
  map (fun i => u32 (backItemIndex span - Z.of_nat i))
    (seq 0 (Z.to_nat (itemCount span))).

(** The indices [top], [top - 1], ... are handed out to the spans in
    list order: every span starts where the one before it stopped. *)
Fixpoint contiguous (top : Z) (spans : list DepthBufferSpan) : Prop :=
  match spans with
  | [] => True
  | s :: rest =>
      backItemIndex s = top /\ 0 <= itemCount s /\
      contiguous (top - itemCount s) rest
  end.

(** [count] indices from [top] downwards. *)
Definition downFrom (top : Z) (count : nat) : list Z :=
  map (fun j => top - Z.of_nat j) (seq 0 count).

Lemma contiguous_app (l1 l2 : list DepthBufferSpan) :
  forall top,
    contiguous top (l1 ++ l2) <->
    contiguous top l1 /\ contiguous (top - sumItemCount l1) l2.
Proof.
  induction l1 as [|s l1 IH]; intros top; simpl.
  - rewrite Z.sub_0_r. tauto.
  - rewrite IH.
    replace (top - (itemCount s + sumItemCount l1))
      with (top - itemCount s - sumItemCount l1) by lia.
    tauto.
Qed.

Lemma contiguous_counts (spans : list DepthBufferSpan) :
  forall top, contiguous top spans ->
              Forall (fun s => 0 <= itemCount s) spans.
Proof.
  induction spans as [|s spans IH]; intros top H; constructor.
  - apply H.
  - apply (IH (top - itemCount s)). apply H.
Qed.

Lemma map_seq_from {A : Type} (f : nat -> A) (len : nat) :
  forall start,
    map f (seq start len) = map (fun j => f (start + j)%nat) (seq 0 len).
Proof.
  induction len as [|len IH]; intros start; [reflexivity|]. simpl.
  rewrite Nat.add_0_r. f_equal.
  rewrite IH, <- seq_shift, map_map. apply map_ext. intros j.
  f_equal. lia.
Qed.

Lemma downFrom_app (top : Z) (a b : nat) :
  downFrom top (a + b) = downFrom top a ++ downFrom (top - Z.of_nat a) b.
Proof.
  unfold downFrom. rewrite seq_app, map_app. f_equal. simpl.
  rewrite map_seq_from. apply map_ext. intros j. lia.
Qed.

Lemma downFrom_S (top : Z) (n : nat) :
  downFrom top (S n) = top :: downFrom (top - 1) n.
Proof.
  change (S n) with (1 + n)%nat. rewrite downFrom_app.
  unfold downFrom at 1. cbn [seq map app].
  change (Z.of_nat 0) with 0. change (Z.of_nat 1) with 1.
  now rewrite Z.sub_0_r.
Qed.

Lemma downFrom_rev (n : nat) :
  downFrom (Z.of_nat n - 1) n = map Z.of_nat (rev (seq 0 n)).
Proof.
  induction n as [|n IH]; [reflexivity|].
  rewrite seq_S, rev_app_distr, downFrom_S.
  replace (Z.of_nat (S n) - 1) with (Z.of_nat n) by lia.
  cbn [rev app map Nat.add]. now rewrite IH.
Qed.

Lemma spanItemIndices_exact (s : DepthBufferSpan) :
  0 <= itemCount s -> itemCount s <= backItemIndex s + 1 ->
  backItemIndex s < 2 ^ 32 ->
  spanItemIndices s = downFrom (backItemIndex s) (Z.to_nat (itemCount s)).
Proof.
  intros H0 H1 H2. unfold spanItemIndices, downFrom.
  apply map_ext_in. intros j Hj. apply in_seq in Hj.
  unfold u32. apply Z.mod_small. lia.
Qed.

(** Under [contiguous], the indices that the spans read are the indices
    from [top] downwards, each once. *)
Lemma contiguous_indices (spans : list DepthBufferSpan) :
  forall top,
    contiguous top spans -> top < 2 ^ 32 ->
    sumItemCount spans <= top + 1 ->
    concat (map spanItemIndices spans) =
    downFrom top (Z.to_nat (sumItemCount spans)).
Proof.
  induction spans as [|s spans IH]; intros top Hc Htop Hsum;
    [reflexivity|].
  destruct Hc as (Hb & Hn & Hrest).
  pose proof (sumItemCount_nonneg (contiguous_counts _ _ Hrest)) as Hs.
  simpl in *.
  rewrite Z2Nat.inj_add by lia. rewrite downFrom_app.
  rewrite Z2Nat.id by lia.
  rewrite spanItemIndices_exact, Hb by lia.
  f_equal. apply IH; [exact Hrest|lia|lia].
Qed.

Section SpanItems.
Context {C : Collaborators}.

Lemma splitItem_contiguous (top i : Z) (item : VisibleItem)
  (spans : list DepthBufferSpan) :
  contiguous top spans ->
  i = top - sumItemCount spans -> 0 <= i < 2 ^ 32 ->
  sumItemCount spans + 1 < 2 ^ 32 ->
  contiguous top (splitItem i item spans) /\
  sumItemCount (splitItem i item spans) = sumItemCount spans + 1.
Proof.
  intros Hc Hi Hr Hlt.
  assert (Eu : u32 i = i) by (unfold u32; apply Z.mod_small; lia).
  destruct (splitItem_cases i item spans)
    as [[-> ->]|[(l & b & -> & _ & ->)|(l & b & -> & _ & ->)]].
  - simpl in *. rewrite Eu. split; [|lia]. repeat split; lia.
  - set (spans0 := push_back l b) in *. clearbody spans0.
    unfold push_back. rewrite !sumItemCount_app. simpl.
    split; [|lia].
    apply contiguous_app. split; [apply contiguous_app; split; [exact Hc|]|].
    + simpl. rewrite Eu. repeat split; lia.
    + rewrite sumItemCount_app. simpl. rewrite Eu. repeat split; lia.
  - unfold push_back in *.
    apply contiguous_app in Hc. destruct Hc as [Hl (Hb & Hn & _)].
    pose proof (sumItemCount_nonneg (contiguous_counts _ _ Hl)) as Hs.
    rewrite sumItemCount_app in *. simpl in *.
    assert (E : u32 (itemCount b + 1) = itemCount b + 1).
    { unfold u32. apply Z.mod_small. lia. }
    rewrite contiguous_app. simpl. rewrite E.
    split; [|rewrite sumItemCount_app; simpl; lia].
    split; [exact Hl|]. repeat split; lia.
Qed.

Lemma splitLoop_contiguous (items : list VisibleItem) (n : nat) :
  forall spans,
    (n <= length items)%nat ->
    Z.of_nat (length items) < 2 ^ 32 ->
    contiguous (Z.of_nat (length items) - 1) spans ->
    sumItemCount spans = Z.of_nat (length items) - Z.of_nat n ->
    contiguous (Z.of_nat (length items) - 1) (splitLoop n items spans) /\
    sumItemCount (splitLoop n items spans) = Z.of_nat (length items).
Proof.
  induction n as [|n IH]; intros spans Hn Hlen Hc Hs.
  - simpl. split; [exact Hc|lia].
  - simpl. destruct (nth_error items n) as [item|] eqn:E.
    + destruct (@splitItem_contiguous (Z.of_nat (length items) - 1)
                  (Z.of_nat n) item spans Hc) as [H1 H2]; try lia.
      apply IH; [lia|exact Hlen|exact H1|lia].
    + apply nth_error_None in E. lia.
Qed.

Lemma splitDepthBufferSpans_contiguous (items : list VisibleItem) :
  Z.of_nat (length items) < 2 ^ 31 ->
  contiguous (Z.of_nat (length items) - 1) (splitDepthBufferSpans items) /\
  sumItemCount (splitDepthBufferSpans items) = Z.of_nat (length items).
Proof.
  intros Hlen. unfold splitDepthBufferSpans.
  rewrite int_of_size_small by exact Hlen.
  apply splitLoop_contiguous; simpl; lia.
Qed.

End SpanItems.

Lemma grouping_contiguous (spans merged : list DepthBufferSpan) :
  grouping spans merged ->
  forall top,
    contiguous top spans -> sumItemCount spans < 2 ^ 32 ->
    contiguous top merged.
Proof.
  induction 1 as [|first absorbed rest merged Hall Hstop Hg IH];
    intros top Hc Hlt; [exact I|].
  destruct Hc as (Hb & Hn & Hc). apply contiguous_app in Hc.
  destruct Hc as [Ha Hr].
  pose proof (contiguous_counts _ _ Ha) as Hna.
  pose proof (sumItemCount_nonneg Hna) as Hsa.
  pose proof (sumItemCount_nonneg (contiguous_counts _ _ Hr)) as Hsr.
  simpl in Hlt. rewrite sumItemCount_app in Hlt.
  simpl. rewrite fold_count_exact by (assumption || lia).
  split; [exact Hb|]. split; [lia|].
  apply IH; [|lia].
  replace (top - (itemCount first + sumItemCount absorbed))
    with (top - itemCount first - sumItemCount absorbed) by lia.
  exact Hr.
Qed.

Section SpanPartition.
Context {C : Collaborators}.

(** X4: The raw spans of [splitDepthBuffer], and the merged spans of
    [coalesceDepthBuffer] after it, hand every index of the item list to
    exactly one span: read span by span, the indices
    [backItemIndex - i] are [n - 1], [n - 2], ..., [0].  So the span
    loops read every visible item once, from the back of the list to its
    front, and never outside the list. *)
Theorem span_items_partition (items : list VisibleItem) :
  Z.of_nat (length items) < 2 ^ 31 ->
  concat (map spanItemIndices (splitDepthBufferSpans items)) =
    map Z.of_nat (rev (seq 0 (length items))) /\
  concat (map spanItemIndices
            (coalesceDepthBufferSpans (splitDepthBufferSpans items))) =
    map Z.of_nat (rev (seq 0 (length items))).
Proof.
  intros Hlen.
  destruct (splitDepthBufferSpans_contiguous items Hlen) as [Hc Hs].
  pose proof (grouping_contiguous
                (coalesceDepthBufferSpans_grouping
                   (splitDepthBufferSpans items)) _ Hc) as Hm.
  destruct (grouping_sum
              (coalesceDepthBufferSpans_grouping
                 (splitDepthBufferSpans items))
              (contiguous_counts _ _ Hc)) as [_ Hms]; [lia|].
  rewrite <- downFrom_rev. split.
  - rewrite (contiguous_indices _ Hc) by lia.
    rewrite Hs, Nat2Z.id. reflexivity.
  - rewrite (contiguous_indices _ (Hm ltac:(lia))) by lia.
    rewrite Hms, Hs, Nat2Z.id. reflexivity.
Qed.

End SpanPartition.

(** ** Every item lies inside the span that draws it *)

Lemma StronglySorted_nth {A : Type} (R : A -> A -> Prop) (l : list A) :
  StronglySorted R l ->
  forall (i j : nat) (a b : A),
    (i < j)%nat -> nth_error l i = Some a -> nth_error l j = Some b ->
    R a b.
Proof.
  induction 1 as [|x l Hs IH Hx]; intros i j a b Hij Ha Hb.
  - destruct i; discriminate.
  - destruct j as [|j]; [lia|]. simpl in Hb. destruct i as [|i].
    + simpl in Ha. injection Ha as <-.
      rewrite Forall_forall in Hx. apply Hx.
      eapply nth_error_In; exact Hb.
    + simpl in Ha. apply (IH i j); [lia|assumption|assumption].
Qed.

Lemma contiguous_back (spans : list DepthBufferSpan) (b : DepthBufferSpan) :
  forall top,
    contiguous top spans -> back spans = Some b ->
    0 <= itemCount b /\
    backItemIndex b - itemCount b = top - sumItemCount spans.
Proof.
  intros top Hc Hb. destruct (back_Some_inv _ Hb) as (l & ->).
  unfold push_back in *. apply contiguous_app in Hc.
  destruct Hc as [_ (H1 & H2 & _)]. rewrite sumItemCount_app. simpl. lia.
Qed.

Lemma contiguous_bounds (spans : list DepthBufferSpan) :
  forall top,
    contiguous top spans -> sumItemCount spans <= top + 1 ->
    Forall (fun s => 0 <= itemCount s /\ itemCount s <= backItemIndex s + 1 /\
                     backItemIndex s <= top) spans.
Proof.
  induction spans as [|s spans IH]; intros top Hc Hs; [constructor|].
  destruct Hc as (Hb & Hn & Hc).
  pose proof (sumItemCount_nonneg (contiguous_counts _ _ Hc)) as H0.
  simpl in Hs. constructor; [lia|].
  specialize (IH _ Hc ltac:(lia)).
  eapply Forall_impl; [|exact IH]. simpl. intros t Ht. lia.
Qed.

Section ItemsWithinSpans.
Context {C : Collaborators}.

(** The depth interval of [item] lies inside that of [s]. *)
Definition item_within (s : DepthBufferSpan) (item : VisibleItem) : Prop :=
  F32.leb (span_nearDistance s) (item_nearDistance item) = true /\
  F32.leb (item_farDistance item) (span_farDistance s) = true.

(** Every item that the span loops read for [s] lies inside [s]. *)
Definition span_holds (items : list VisibleItem) (s : DepthBufferSpan) :
  Prop :=
  forall (j : Z) (item : VisibleItem),
    In j (spanItemIndices s) ->
    nth_error items (Z.to_nat j) = Some item -> item_within s item.

(** The same for the indices from [backItemIndex - itemCount + 1] to
    [backItemIndex]. *)
Definition span_encloses (items : list VisibleItem) (s : DepthBufferSpan) :
  Prop :=
  forall (j : Z) (item : VisibleItem),
    backItemIndex s - itemCount s < j <= backItemIndex s ->
    nth_error items (Z.to_nat j) = Some item -> item_within s item.

Lemma span_encloses_holds (items : list VisibleItem) (s : DepthBufferSpan) :
  0 <= itemCount s -> itemCount s <= backItemIndex s + 1 ->
  backItemIndex s < 2 ^ 32 ->
  span_encloses items s -> span_holds items s.
Proof.
  intros H0 H1 H2 He j item Hj. apply He.
  rewrite spanItemIndices_exact in Hj by assumption.
  unfold downFrom in Hj. apply in_map_iff in Hj.
  destruct Hj as (i & <- & Hi). apply in_seq in Hi. lia.
Qed.

Variable items : list VisibleItem.
Hypothesis items_proper : Forall item_proper items.
Hypothesis items_sorted : sorted_by_farDistance items.

Lemma item_at_proper (n : nat) (item : VisibleItem) :
  nth_error items n = Some item ->
  F32.is_nan (item_nearDistance item) = false /\
  F32.is_nan (item_farDistance item) = false.
Proof.
  intros E. rewrite Forall_forall in items_proper.
  destruct (items_proper item (nth_error_In _ _ E)) as [_ H].
  split; [exact (F32Order.ltb_not_nan_l _ _ H)|
          exact (F32Order.ltb_not_nan_r _ _ H)].
Qed.

(** The span that [splitDepthBuffer] starts for the item at index [n]. *)
Lemma new_span_encloses (n : nat) (item : VisibleItem) :
  nth_error items n = Some item ->
  span_encloses items
    {| backItemIndex := Z.of_nat n; itemCount := 1;
       span_nearDistance := item_nearDistance item;
       span_farDistance := item_farDistance item |}.
Proof.
  intros E j it Hj Hit. simpl in Hj.
  assert (j = Z.of_nat n) by lia. subst j. rewrite Nat2Z.id in Hit.
  rewrite E in Hit. injection Hit as <-.
  destruct (item_at_proper _ E) as [H1 H2].
  split; simpl; apply F32Order.leb_refl; assumption.
Qed.

(** The loop invariant: [n] items are still to be placed. *)
Record enclose_invariant (n : nat) (spans : list DepthBufferSpan) : Prop := {
  ei_contiguous : contiguous (Z.of_nat (length items) - 1) spans;
  ei_sum : sumItemCount spans = Z.of_nat (length items) - Z.of_nat n;
  ei_encloses : Forall (span_encloses items) spans;
  ei_last :
    forall b, back spans = Some b ->
      1 <= itemCount b /\
      exists it,
        nth_error items (Z.to_nat (backItemIndex b)) = Some it /\
        span_farDistance b = item_farDistance it /\
        Z.of_nat n <= backItemIndex b
}.

Lemma enclose_invariant_step (n : nat) (item : VisibleItem)
  (spans : list DepthBufferSpan) :
  Z.of_nat (length items) < 2 ^ 31 ->
  nth_error items n = Some item ->
  enclose_invariant (S n) spans ->
  enclose_invariant n (splitItem (Z.of_nat n) item spans).
Proof.
  intros Hlen E [Hc Hs He Hl].
  assert (Hn : (n < length items)%nat)
    by (apply nth_error_Some; congruence).
  destruct (@splitItem_contiguous C (Z.of_nat (length items) - 1)
              (Z.of_nat n) item spans Hc) as [Hc' Hs']; try lia.
  assert (Eu : u32 (Z.of_nat n) = Z.of_nat n)
    by (unfold u32; apply Z.mod_small; lia).
  destruct (item_at_proper _ E) as [Hnear Hfar].
  constructor; [exact Hc'|lia| |].
  - (* every span encloses its items *)
    destruct (splitItem_cases (Z.of_nat n) item spans)
      as [[-> ->]|[(l & b & -> & _ & ->)|(l & b & -> & Hd & ->)]].
    + rewrite Eu. constructor; [|constructor].
      apply new_span_encloses. exact E.
    + rewrite Eu. apply Forall_push_back.
      split; [|apply new_span_encloses; exact E].
      apply Forall_push_back. split; [exact He|].
      intros j it Hj. simpl in Hj. lia.
    + rewrite Forall_push_back in He |- *.
      destruct He as [Hel Heb]. split; [exact Hel|].
      destruct (Hl b (back_push_back l b)) as (Hcount & it & Hit & Hfb & Hge).
      destruct (@contiguous_back _ _ _ Hc (back_push_back l b)) as [_ Hend].
      assert (Hub : (Z.to_nat (backItemIndex b) < length items)%nat)
        by (apply nth_error_Some; congruence).
      assert (Ec : u32 (itemCount b + 1) = itemCount b + 1).
      { unfold u32. apply Z.mod_small. lia. }
      assert (Hib : item_within b it).
      { apply (Heb (backItemIndex b)); [lia|exact Hit]. }
      assert (Hnb : F32.is_nan (span_nearDistance b) = false)
        by exact (F32Order.leb_not_nan_l _ _ (proj1 Hib)).
      set (near' := if F32.ltb (item_nearDistance item) (span_nearDistance b)
                    then item_nearDistance item else span_nearDistance b).
      assert (Hlow : F32.leb near' (span_nearDistance b) = true /\
                     F32.leb near' (item_nearDistance item) = true).
      { subst near'.
        destruct (F32.ltb (item_nearDistance item) (span_nearDistance b))
          eqn:L.
        - split; [apply F32Order.ltb_leb; exact L|
                  apply F32Order.leb_refl; exact Hnear].
        - split; [apply F32Order.leb_refl; exact Hnb|].
          apply F32Order.not_ltb_leb; assumption. }
      intros j x Hj Hx. simpl in Hj. rewrite Ec in Hj.
      destruct (Z.eq_dec j (Z.of_nat n)) as [->|Hne].
      * rewrite Nat2Z.id, E in Hx. injection Hx as <-.
        split; [apply Hlow|]. simpl. rewrite Hfb.
        apply (StronglySorted_nth items_sorted
                 (i := n) (j := Z.to_nat (backItemIndex b)));
          [lia|exact E|exact Hit].
      * destruct (Heb j x) as [H1 H2]; [lia|exact Hx|].
        split; [|exact H2]. simpl.
        apply F32Order.leb_trans with (y := span_nearDistance b);
          [apply Hlow|exact H1].
  - (* the last span *)
    destruct (splitItem_cases (Z.of_nat n) item spans)
      as [[-> ->]|[(l & b & -> & _ & ->)|(l & b & -> & Hd & ->)]].
    + intros b [= <-]. simpl. rewrite Eu, Nat2Z.id.
      split; [lia|]. exists item. repeat split; [exact E|lia].
    + intros b'. rewrite back_push_back. intros [= <-]. simpl.
      rewrite Eu, Nat2Z.id.
      split; [lia|]. exists item. repeat split; [exact E|lia].
    + intros b'. rewrite back_push_back. intros [= <-]. simpl.
      destruct (Hl b (back_push_back l b)) as (Hcount & it & Hit & Hfb & Hge).
      assert (Hub : (Z.to_nat (backItemIndex b) < length items)%nat)
        by (apply nth_error_Some; congruence).
      assert (Ec : u32 (itemCount b + 1) = itemCount b + 1).
      { unfold u32. apply Z.mod_small.
        destruct (@contiguous_back _ _ _ Hc (back_push_back l b)). lia. }
      rewrite Ec. split; [lia|]. exists it. repeat split; try assumption.
      lia.
Qed.

Lemma splitLoop_encloses (n : nat) :
  forall spans,
    Z.of_nat (length items) < 2 ^ 31 ->
    (n <= length items)%nat ->
    enclose_invariant n spans ->
    enclose_invariant 0 (splitLoop n items spans).
Proof.
  induction n as [|n IH]; intros spans Hlen Hn Hinv; [exact Hinv|].
  simpl. destruct (nth_error items n) as [item|] eqn:E.
  - apply IH; [exact Hlen|lia|].
    apply enclose_invariant_step; assumption.
  - apply nth_error_None in E. lia.
Qed.

Lemma splitDepthBufferSpans_encloses :
  Z.of_nat (length items) < 2 ^ 31 ->
  enclose_invariant 0 (splitDepthBufferSpans items).
Proof.
  intros Hlen. unfold splitDepthBufferSpans.
  rewrite int_of_size_small by exact Hlen.
  apply splitLoop_encloses; [exact Hlen|lia|].
  constructor; simpl; [exact I|lia|constructor|discriminate].
Qed.

(** A run of raw spans that follow each other: an item of any of them
    lies between the near distance of the last and the far distance of
    the first. *)
Lemma run_encloses (absorbed : list DepthBufferSpan) :
  forall (first last : DepthBufferSpan) (top : Z),
    contiguous top (first :: absorbed) ->
    chained (first :: absorbed) ->
    Forall span_proper (first :: absorbed) ->
    Forall (span_encloses items) (first :: absorbed) ->
    back (first :: absorbed) = Some last ->
    forall (j : Z) (item : VisibleItem),
      top - sumItemCount (first :: absorbed) < j <= top ->
      nth_error items (Z.to_nat j) = Some item ->
      F32.leb (span_nearDistance last) (item_nearDistance item) = true /\
      F32.leb (item_farDistance item) (span_farDistance first) = true.
Proof.
  induction absorbed as [|t absorbed IH];
    intros first last top Hc Hch Hp He Hb j item Hj Hx.
  - simpl in Hb. injection Hb as <-. simpl in Hj.
    destruct Hc as (Hbk & _ & _). inversion He as [|? ? Hf _]; subst.
    apply (Hf j item); [lia|exact Hx].
  - destruct Hc as (Hbk & Hn & Hc). destruct Hch as [Hft Hch].
    inversion Hp as [|? ? Hpf Hp']; subst.
    inversion He as [|? ? Hef He']; subst.
    change (back (first :: t :: absorbed)) with (back (t :: absorbed)) in Hb.
    pose proof (chained_near_below_far Hch Hp' Hb) as Hlt.
    rewrite Hft in Hlt.
    destruct (Z_lt_le_dec (backItemIndex first - itemCount first) j)
      as [Hin|Hout].
    + destruct (Hef j item) as [H1 H2]; [lia|exact Hx|].
      split; [|exact H2].
      apply F32Order.leb_trans with (y := span_nearDistance first);
        [apply F32Order.ltb_leb; exact Hlt|exact H1].
    + destruct (IH t last (backItemIndex first - itemCount first)
                  Hc Hch Hp' He' Hb j item) as [H1 H2];
        [simpl in Hj |- *; lia|exact Hx|].
      split; [exact H1|].
      apply F32Order.leb_trans with (y := span_farDistance t); [exact H2|].
      rewrite Hft. apply F32Order.ltb_leb. exact Hpf.
Qed.

Lemma grouping_encloses (spans merged : list DepthBufferSpan) :
  grouping spans merged ->
  forall top,
    contiguous top spans -> chained spans -> Forall span_proper spans ->
    Forall (span_encloses items) spans -> sumItemCount spans < 2 ^ 32 ->
    Forall (span_encloses items) merged.
Proof.
  induction 1 as [|first absorbed rest merged Hall Hstop Hg IH];
    intros top Hc Hch Hp He Hlt; [constructor|].
  change (first :: absorbed ++ rest) with ((first :: absorbed) ++ rest)
    in Hc, Hch, Hp, He, Hlt.
  apply contiguous_app in Hc. destruct Hc as [Hc1 Hc2].
  apply Forall_app in Hp. destruct Hp as [Hp1 Hp2].
  apply Forall_app in He. destruct He as [He1 He2].
  rewrite sumItemCount_app in Hlt.
  pose proof (sumItemCount_nonneg (contiguous_counts _ _ Hc1)) as Hs1.
  pose proof (sumItemCount_nonneg (contiguous_counts _ _ Hc2)) as Hs2.
  assert (Hch1 : chained (first :: absorbed) /\ chained rest).
  { destruct rest as [|x rest].
    - rewrite app_nil_r in Hch. split; [exact Hch|exact I].
    - apply chained_app_cons in Hch. tauto. }
  destruct Hch1 as [Hch1 Hch2].
  constructor; [|apply (IH _ Hc2 Hch2 Hp2 He2); lia].
  destruct (fold_near_back absorbed first) as (last & Hlast & Hnear).
  pose proof (contiguous_counts _ _ Hc1) as Hcounts.
  inversion Hcounts as [|? ? Hf0 Ha0]; subst.
  intros j item Hj Hx. unfold item_within. cbn [mergeRun] in *.
  simpl span_nearDistance. simpl span_farDistance.
  rewrite Hnear.
  apply (run_encloses Hc1 Hch1 Hp1 He1 Hlast (j := j)); [|exact Hx].
  simpl in Hj. rewrite fold_count_exact in Hj by (assumption || simpl in *; lia).
  destruct Hc1 as (Hbk & _ & _). simpl. lia.
Qed.

(** X5: For a list of visible items sorted ascending by [farDistance] (items
    as [addVisibleItem] stores them; fewer than [2^31]), every item that
    the span loops read for a raw span of [splitDepthBuffer], and for a
    merged span of [coalesceDepthBuffer], lies inside the depth interval
    of that span: the span's near distance is at most the item's, and
    the item's far distance is at most the span's. *)
Theorem items_within_spans :
  Z.of_nat (length items) < 2 ^ 31 ->
  Forall (span_holds items) (splitDepthBufferSpans items) /\
  Forall (span_holds items)
    (coalesceDepthBufferSpans (splitDepthBufferSpans items)).
Proof.
  intros Hlen.
  destruct (splitDepthBufferSpans_encloses Hlen) as [Hc Hs He _].
  destruct (splitDepthBufferSpans_invariant Hlen items_proper)
    as [_ _ Hch Hpr _ _ _].
  pose proof (coalesceDepthBufferSpans_grouping (splitDepthBufferSpans items))
    as Hg.
  assert (Hm : Forall (span_encloses items)
                 (coalesceDepthBufferSpans (splitDepthBufferSpans items))).
  { eapply grouping_encloses;
      [exact Hg|exact Hc|exact Hch|exact Hpr|exact He|lia]. }
  assert (Hcm : contiguous (Z.of_nat (length items) - 1)
                  (coalesceDepthBufferSpans (splitDepthBufferSpans items))).
  { eapply grouping_contiguous; [exact Hg|exact Hc|lia]. }
  destruct (grouping_sum Hg (contiguous_counts _ _ Hc)) as [_ Hsm]; [lia|].
  split.
  - assert (Hb := @contiguous_bounds _ _ Hc ltac:(lia)).
    rewrite Forall_forall in *. intros s Hin.
    destruct (Hb s Hin) as (H0 & H1 & H2).
    apply span_encloses_holds; [exact H0|exact H1|lia|apply He; exact Hin].
  - assert (Hb := @contiguous_bounds _ _ Hcm ltac:(lia)).
    rewrite Forall_forall in *. intros s Hin.
    destruct (Hb s Hin) as (H0 & H1 & H2).
    apply span_encloses_holds; [exact H0|exact H1|lia|apply Hm; exact Hin].
Qed.

End ItemsWithinSpans.

(** ** How long the front-span loop runs *)

(** Dividing by [MaxFarNearRatio] lowers the rank by at least twelve. *)
Lemma div_ratio_rank (x : F32.float) :
  representable x -> F32.ltb F32.zero x = true ->
  representable (F32.div x MaxFarNearRatio) /\
  (F32.div x MaxFarNearRatio = F32.zero \/
   (rank (F32.div x MaxFarNearRatio) + 12 <= rank x)%nat).
Proof.
  unfold F32.div, F32.prec, F32.emax. rewrite MaxFarNearRatio_value.
  destruct x as [s|s| |s m e]; try contradiction.
  - intros _. destruct s; discriminate.
  - intros [He Hm] Hpos.
    assert (s = false) by (destruct s; [discriminate|reflexivity]). subst s.
    destruct (div_by_ratio false m e He Hm) as [E|(m' & e' & E & He' & Hm')];
      rewrite E.
    + split; [exact I|]. now left.
    + split; [unfold representable; lia|]. right. unfold rank.
      pose proof (digits2_bounds m'). lia.
Qed.

Lemma rank_zero (x : F32.float) :
  representable x -> rank x = O -> exists s, x = S754_zero s.
Proof.
  destruct x as [s|s| |s m e]; try contradiction.
  - intros _ _. now exists s.
  - intros [He Hm] Hr. unfold rank in Hr.
    assert (0 < Zpos (digits2_pos m)) by lia. lia.
Qed.

(** With a projection near distance that is not negative, a
    representable start of rank at most [12 * n] gets at most [n + 1]
    front spans. *)
Lemma front_spans_count (projNear : F32.float) :
  F32.ltb projNear F32.zero = false ->
  forall (n : nat) (x : F32.float),
    (rank x <= 12 * n)%nat -> representable x ->
    exists fronts,
      front_spans projNear x fronts /\ (length fronts <= S n)%nat.
Proof.
  intros Hpn. induction n as [|n IH]; intros x Hrank Hx.
  - destruct (rank_zero x Hx ltac:(lia)) as [s ->].
    exists []. split; [|simpl; lia]. constructor.
    unfold F32.gtb. apply not_negative_zero. exact Hpn.
  - destruct (F32.gtb x projNear) eqn:G;
      [|exists []; split; [now constructor|simpl; lia]].
    unfold F32.gtb in G.
    destruct (@div_ratio_rank x Hx (not_negative_above _ _ Hpn G)) as [Hy Hdec].
    destruct (F32.ltb projNear (F32.div x MaxFarNearRatio)) eqn:L.
    + destruct Hdec as [Hz|Hlt].
      { rewrite Hz in L. congruence. }
      destruct (IH (F32.div x MaxFarNearRatio)) as (fronts & Hf & Hlen);
        [lia|exact Hy|].
      eexists. split.
      * apply front_spans_more; [exact G|].
        unfold F32.max. rewrite L. exact Hf.
      * simpl. lia.
    + eexists. split.
      * apply front_spans_more; [exact G|].
        unfold F32.max. rewrite L. apply front_spans_done.
        apply F32Order.ltb_irrefl.
      * simpl. lia.
Qed.

Lemma representable_rank (x : F32.float) :
  representable x -> (rank x <= 277)%nat.
Proof.
  destruct x as [s|s| |s m e]; try contradiction; simpl; [lia|].
  intros [He Hm]. lia.
Qed.

(** X6: For a projection whose near distance is not negative, the loop that
    adds front spans ends after at most 25 spans, whatever finite
    binary32 number the front-most near distance is: 26 tests of the
    loop condition are always enough. *)
Theorem front_span_loop_bounded (projNear : F32.float)
  (merged : list DepthBufferSpan) (b : DepthBufferSpan) (fuel : nat) :
  F32.ltb projNear F32.zero = false ->
  back merged = Some b ->
  representable (span_nearDistance b) ->
  (26 <= fuel)%nat ->
  exists fronts,
    addFrontSpans fuel projNear merged = Some (merged ++ fronts) /\
    (length fronts <= 25)%nat /\
    Forall (fun s => itemCount s = 0) fronts.
Proof.
  intros Hpn Hb Hx Hfuel.
  destruct (@front_spans_count projNear Hpn 24 (span_nearDistance b))
    as (fronts & Hf & Hlen).
  - pose proof (representable_rank _ Hx). lia.
  - exact Hx.
  - exists fronts. split; [|split; [exact Hlen|]].
    + apply (addFrontSpans_complete merged Hf Hb eq_refl). lia.
    + destruct (front_spans_shape Hf) as (Hshape & _).
      eapply Forall_impl; [|exact Hshape]. intros s Hs. apply Hs.
Qed.

(** With a negative near distance the condition of the loop stays true
    once the front-most near distance is a zero or a positive number:
    the quotient by [MaxFarNearRatio] is never negative, so it stays
    above the projection's near distance. *)
Definition not_negative (x : F32.float) : Prop :=
  representable x /\ F32.ltb x F32.zero = false.

Lemma div_ratio_not_negative (x : F32.float) :
  not_negative x -> not_negative (F32.div x MaxFarNearRatio).
Proof.
  unfold not_negative, F32.div, F32.prec, F32.emax.
  rewrite MaxFarNearRatio_value.
  destruct x as [s|s| |s m e]; try (intros [[] _]; fail).
  - intros _. split; [exact I|]. destruct s; reflexivity.
  - intros [[He Hm] Hs].
    assert (s = false) by (destruct s; [discriminate|reflexivity]). subst s.
    destruct (div_by_ratio false m e He Hm) as [E|(m' & e' & E & He' & Hm')];
      rewrite E.
    + split; [exact I|reflexivity].
    + split; [unfold representable; lia|reflexivity].
Qed.

Lemma not_negative_above_negative (projNear x : F32.float) :
  F32.ltb projNear F32.zero = true -> not_negative x ->
  F32.ltb projNear x = true.
Proof.
  intros Hpn [Hx Hs].
  apply F32Order.ltb_leb_trans with (y := F32.zero); [exact Hpn|].
  apply F32Order.not_ltb_leb; [|reflexivity|exact Hs].
  destruct x; try reflexivity. contradiction.
Qed.

(** X7: For a projection with a negative near distance the loop that adds
    front spans does not end once the front-most near distance is a zero
    or a positive finite number: however many tests of its condition are
    allowed, it has not returned. *)
Theorem front_span_loop_diverges (projNear : F32.float) (fuel : nat) :
  F32.ltb projNear F32.zero = true ->
  forall (merged : list DepthBufferSpan) (b : DepthBufferSpan),
    back merged = Some b ->
    not_negative (span_nearDistance b) ->
    addFrontSpans fuel projNear merged = None.
Proof.
  intros Hpn. induction fuel as [|fuel IH]; intros merged b Hb Hx;
    [reflexivity|].
  cbn [addFrontSpans]. rewrite Hb.
  change (F32.gtb (span_nearDistance b) projNear)
    with (F32.ltb projNear (span_nearDistance b)).
  rewrite (@not_negative_above_negative _ _ Hpn Hx).
  pose proof (@div_ratio_not_negative _ Hx) as Hy.
  eapply IH; [apply back_push_back|]. simpl.
  unfold F32.max. rewrite (@not_negative_above_negative _ _ Hpn Hy). exact Hy.
Qed.

(** * Drawing

    The second half of the file sends the spans to the render context
    and to GL.  What the renderer does there is the sequence of calls it
    makes; the model records them in order.  A call that the language
    does not define (an index outside a vector, a null pointer that is
    dereferenced, an [assert] that fails) leaves no result. *)

(** ** Further collaborators *)

Class Drawing {C : Collaborators} : Type := {
  (** virtual methods of [Geometry] that the drawing code asks *)
  isOpaque : Geometry -> bool;
  isShadowCaster : Geometry -> bool;
  isShadowReceiver : Geometry -> bool;
  (** [v.norm()] of a float vector *)
  v3f_norm : Vector3f -> F32.float;
  (** [BoundingSphere<float>]: the default constructor,
      [merge(BoundingSphere<float>(center, radius))], [isEmpty()] and
      [radius()] *)
  BoundingSphere : Type;
  bs_new : BoundingSphere;
  bs_merge : BoundingSphere -> Vector3f -> F32.float -> BoundingSphere;
  bs_isEmpty : BoundingSphere -> bool;
  bs_radius : BoundingSphere -> F32.float;
  (** [Framebuffer::supported()] *)
  framebufferSupported : bool;
  (** the cube map of a reflection region *)
  EnvironmentMap : Type;
  Spectrum : Type;
  (** sky layers: [isVisible()], [drawOrder()], and the values of the
      layer table of a universe in iteration order ([None] is a null
      pointer) *)
  SkyLayer : Type;
  layer_isVisible : SkyLayer -> bool;
  drawOrder : SkyLayer -> Z;
  layers : Universe -> list (option SkyLayer);
  (** [projection.slice(near, far)] and
      [projection.chirality() == PlanarProjection::LeftHanded] *)
  proj_slice : PlanarProjection -> F32.float -> F32.float -> PlanarProjection;
  proj_leftHanded : PlanarProjection -> bool;
  (** [CreateOrthographic(-s, s, -s, s, -s, s)] *)
  shadowProjection : F32.float -> PlanarProjection;
  (** [CreatePerspectiveLH(float(toRadians(90.0)), 1.0f, near, far)] *)
  cubeFaceProjection : F32.float -> F32.float -> PlanarProjection;
  (** [Viewport(size, size)] *)
  squareViewport : Z -> Viewport;
  (** [CubeFaceCameraRotations[face]], the product of quaternions, and
      [q.conjugate()] in double and in single precision *)
  CubeFaceCameraRotations : nat -> Quaterniond;
  q_mul : Quaterniond -> Quaterniond -> Quaterniond;
  qd_conjugate : Quaterniond -> Quaterniond;
  qf_conjugate : Quaternionf -> Quaternionf
}.

(** ** Calls *)

Inductive Pass : Type := OpaquePass | TranslucentPass.
Inductive RendererOutput : Type := FragmentColor | CameraDistance.
Inductive LightType : Type := DirectionalLight | PointLight.
Inductive CullMode : Type := CullFront | CullBack.
Inductive Winding : Type := Clockwise | CounterClockwise.
Inductive Capability : Type :=
| DepthTest | CullFaceTest | Texture2D | Lighting | Normalize.

(** What [bind()] and [unbind()] make the current render target. *)
Inductive RenderTarget : Type :=
| DefaultTarget
| SurfaceTarget (surface : Framebuffer)
| ShadowMapTarget (shadowIndex : Z)
| OmniShadowFaceTarget (shadowIndex : Z) (face : nat)
| CubeMapFaceTarget (face : nat).

Section Calls.
Context {C : Collaborators} {D : Drawing}.

(** [RenderContext::Light(type, position, spectrum, attenuation)]; the
    spectrum is that of the light source, or white for the Sun. *)
Record Light : Type := {
  light_type : LightType;
  light_position : Vector3f;
  light_of : option LightSource;
  light_attenuation : F32.float
}.

Inductive ViewportArg : Type :=
| ViewportOf (v : Viewport)
| ViewportOfShadowMap (shadowIndex : Z)
| ViewportSquare (size : Z).

(** The calls to GL and to the render context, one constructor for each
    function called.  Arguments that are matrices or vectors built with
    Eigen on the spot (the model-view matrix of a shadow map, the
    translation of an item) are not recorded; [TranslateModelView],
    [SetModelTranslation], [Render] and [RenderShadow] name the item
    they are made for, and the calls for a shadow map name its index. *)
Inductive Event : Type :=
| GlViewport (v : ViewportArg)
| GlDepthRange (front back : F32.float)
| GlColorMask (mask : bool * bool * bool * bool)
| GlDepthMask (flag : bool)
| GlEnable (cap : Capability)
| GlDisable (cap : Capability)
| GlCullFace (mode : CullMode)
| GlFrontFace (winding : Winding)
| GlShadeModelSmooth
| GlClear (color depth : bool)
| GlClearColor (red : F32.float)
| Bind (target : RenderTarget)
| SetProjection (p : PlanarProjection)
| PushProjection
| PopProjection
| PushModelView
| PopModelView
| SetModelView
| RotateModelView (q : Quaternionf)
| TranslateModelView (item : VisibleItem)
| SetCameraOrientation (q : Quaternionf)
| SetPixelSize (size : F32.float)
| SetViewportSize (v : Viewport)
| SetPass (pass : Pass)
| SetShadowMapCount (n : Z)
| SetOmniShadowMapCount (n : Z)
| SetEnvironmentMap (map : option EnvironmentMap)
| SetLight (slot : Z) (light : Light)
| SetActiveLightCount (n : Z)
| SetAmbientLight (spectrum : Spectrum)
| SetModelTranslation (item : VisibleItem)
| SetRendererOutput (output : RendererOutput)
| SetShadowMapMatrix (shadowIndex : Z)
| SetShadowMap (shadowIndex : Z)
| SetOmniShadowMap (shadowIndex : Z)
| UnbindShader
| Render (item : VisibleItem)
| RenderShadow (item : VisibleItem)
| RenderSkyLayer (layer : SkyLayer).

(** A computation that makes calls and may have no defined result. *)
Definition Draw (A : Type) : Type := option (A * list Event).

Definition ret {A : Type} (a : A) : Draw A := Some (a, []).

Definition undefined {A : Type} : Draw A := None.

Definition bind {A B : Type} (m : Draw A) (k : A -> Draw B) : Draw B :=
  match m with
  | None => None
  | Some (a, first) =>
      match k a with
      | None => None
      | Some (b, second) => Some (b, first ++ second)
      end
  end.

Definition emit (e : Event) : Draw unit := Some (tt, [e]).

(** Reading a value that may not be there. *)
Definition defined {A : Type} (o : option A) : Draw A :=
  match o with
  | Some a => ret a
  | None => undefined
  end.

End Calls.

Declare Scope draw_scope.
Delimit Scope draw_scope with draw.
Notation "x <- m ;; k" := (bind m (fun x => k))
  (at level 61, m at next level, right associativity) : draw_scope.
Notation "m ;; k" := (bind m (fun _ => k))
  (at level 61, right associativity) : draw_scope.

Section DrawingCode.
Context {C : Collaborators} {Sorter : StdSort} {D : Drawing}.
Open Scope draw_scope.

(** A loop over a vector, with and without a value carried along. *)
Fixpoint forEach {A : Type} (body : A -> Draw unit) (l : list A) :
  Draw unit :=
  match l with
  | [] => ret tt
  | a :: rest => body a ;; forEach body rest
  end.

Fixpoint foldDraw {S A : Type} (body : S -> A -> Draw S) (l : list A)
  (s : S) : Draw S :=
  match l with
  | [] => ret s
  | a :: rest => s' <- body s a ;; foldDraw body rest s'
  end.

(** ** The renderer with the members that drawing uses *)

Record CubeMapFramebuffer : Type := {
  cube_size : Z;
  (** [face(Face(i))]; [None] is a null pointer *)
  cube_face : nat -> option Framebuffer
}.

Record LightingEnvironment : Type := {
  (** the cube maps of [reflectionRegions()] *)
  reflectionRegions : list EnvironmentMap
}.

Record Renderer : Type := {
  members : UniverseRenderer;
  m_omniShadowMaps : list (option CubeMapFramebuffer);
  m_renderSurface : option Framebuffer;
  m_renderViewport : Viewport;
  m_renderColorMask : bool * bool * bool * bool;
  m_depthRangeFront : F32.float;
  m_depthRangeBack : F32.float;
  m_lighting : option LightingEnvironment;
  m_ambientLight : Spectrum
}.

Definition with_members (m : UniverseRenderer) (r : Renderer) : Renderer :=
  {| members := m; m_omniShadowMaps := m_omniShadowMaps r;
     m_renderSurface := m_renderSurface r;
     m_renderViewport := m_renderViewport r;
     m_renderColorMask := m_renderColorMask r;
     m_depthRangeFront := m_depthRangeFront r;
     m_depthRangeBack := m_depthRangeBack r;
     m_lighting := m_lighting r; m_ambientLight := m_ambientLight r |}.

Definition with_omniShadowMaps (maps : list (option CubeMapFramebuffer))
  (r : Renderer) : Renderer :=
  {| members := members r; m_omniShadowMaps := maps;
     m_renderSurface := m_renderSurface r;
     m_renderViewport := m_renderViewport r;
     m_renderColorMask := m_renderColorMask r;
     m_depthRangeFront := m_depthRangeFront r;
     m_depthRangeBack := m_depthRangeBack r;
     m_lighting := m_lighting r; m_ambientLight := m_ambientLight r |}.

Definition with_depthRange (front back : F32.float) (r : Renderer) :
  Renderer :=
  {| members := members r; m_omniShadowMaps := m_omniShadowMaps r;
     m_renderSurface := m_renderSurface r;
     m_renderViewport := m_renderViewport r;
     m_renderColorMask := m_renderColorMask r;
     m_depthRangeFront := front; m_depthRangeBack := back;
     m_lighting := m_lighting r; m_ambientLight := m_ambientLight r |}.

Definition with_lighting (lighting : option LightingEnvironment)
  (r : Renderer) : Renderer :=
  {| members := members r; m_omniShadowMaps := m_omniShadowMaps r;
     m_renderSurface := m_renderSurface r;
     m_renderViewport := m_renderViewport r;
     m_renderColorMask := m_renderColorMask r;
     m_depthRangeFront := m_depthRangeFront r;
     m_depthRangeBack := m_depthRangeBack r;
     m_lighting := lighting; m_ambientLight := m_ambientLight r |}.

Definition with_target (surface : option Framebuffer) (v : Viewport)
  (mask : bool * bool * bool * bool) (r : Renderer) : Renderer :=
  {| members := members r; m_omniShadowMaps := m_omniShadowMaps r;
     m_renderSurface := surface; m_renderViewport := v;
     m_renderColorMask := mask;
     m_depthRangeFront := m_depthRangeFront r;
     m_depthRangeBack := m_depthRangeBack r;
     m_lighting := m_lighting r; m_ambientLight := m_ambientLight r |}.

Definition setAmbientLight (spectrum : Spectrum) (r : Renderer) : Renderer :=
  {| members := members r; m_omniShadowMaps := m_omniShadowMaps r;
     m_renderSurface := m_renderSurface r;
     m_renderViewport := m_renderViewport r;
     m_renderColorMask := m_renderColorMask r;
     m_depthRangeFront := m_depthRangeFront r;
     m_depthRangeBack := m_depthRangeBack r;
     m_lighting := m_lighting r; m_ambientLight := spectrum |}.

(** ** initializeOmniShadowMaps *)

(** What the GL driver answers during [initializeOmniShadowMaps]:
    [omniShadowsSupported()], [GL_MAX_CUBE_MAP_TEXTURE_SIZE_ARB], and the
    result of the [i]-th [CubeMapFramebuffer::CreateCubicReflectionMap]. *)
Record OmniShadowDriver : Type := {
  drv_omniShadowsSupported : bool;
  drv_maxCubeMapTextureSize : Z;
  drv_createCubicReflectionMap : nat -> Z -> option CubeMapFramebuffer
}.

Fixpoint createOmniShadowMaps (drv : OmniShadowDriver) (shadowMapSize : Z)
  (n i : nat) (pool : list (option CubeMapFramebuffer)) :
  option (list (option CubeMapFramebuffer)) :=
  match n with
  | O => Some pool
  | S n' =>
      match drv_createCubicReflectionMap drv i shadowMapSize with
      | None => None
      | Some map =>
          createOmniShadowMaps drv shadowMapSize n' (S i)
            (push_back pool (Some map))
      end
  end.

(** The class constants [MaxShadowMaps] and [MaxOmniShadowMaps] are
    declared in the header and are taken as parameters.  The count is
    compared with the second and replaced by the first. *)
Definition initializeOmniShadowMaps (drv : OmniShadowDriver)
  (MaxShadowMaps MaxOmniShadowMaps : Z) (shadowMapSize shadowMapCount : Z)
  (r : Renderer) : bool * Renderer :=
  match m_renderContext (members r) with
  | None => (false, r)
  | Some _ =>
      if negb (drv_omniShadowsSupported drv) then (false, r)
      else
        let shadowMapCount :=
          if MaxOmniShadowMaps <? shadowMapCount then MaxShadowMaps
          else shadowMapCount in
        let shadowMapSize :=
          Z.min (u32 (drv_maxCubeMapTextureSize drv)) shadowMapSize in
        match
          createOmniShadowMaps drv shadowMapSize (Z.to_nat shadowMapCount) 0 []
        with
        | None => (false, with_omniShadowMaps [] r)
        | Some pool => (true, with_omniShadowMaps pool r)
        end
  end.

(** ** setDepthRange *)

Definition setDepthRange (front back : F32.float) (r : Renderer) :
  Draw Renderer :=
  emit (GlDepthRange front back) ;;
  ret (with_depthRange front back r).

(** ** drawItem *)

(** [256.0f] *)
Definition attenuationScale : F32.float := F32.of_Z 256.

(** One round of the loop over the visible light sources. *)
Definition setupLight (item : VisibleItem) (lightCount : Z)
  (light : VisibleLightSourceItem) : Draw Z :=
  match vls_lightSource light with
  | None =>
      emit (SetLight 0
              {| light_type := DirectionalLight;
                 light_position := v3d_cast (vls_cameraRelativePosition light);
                 light_of := None;
                 light_attenuation := F32.one |}) ;;
      ret (u32 (lightCount + 1))
  | Some source =>
      let lightPosition :=
        v3d_cast (v3d_sub (vls_position light) (item_position item)) in
      let distanceToLight :=
        F32.sub (v3f_norm lightPosition) (item_boundingRadius item) in
      let attenuation :=
        F32.div F32.one
          (F32.mul (F32.mul attenuationScale (range source)) (range source)) in
      if F32.ltb distanceToLight (range source) then
        emit (SetLight lightCount
                {| light_type := PointLight;
                   light_position :=
                     v3d_cast (vls_cameraRelativePosition light);
                   light_of := Some source;
                   light_attenuation := attenuation |}) ;;
        ret (u32 (lightCount + 1))
      else ret lightCount
  end.

Definition drawItem (r : Renderer) (item : VisibleItem) : Draw unit :=
  _ <- defined (m_renderContext (members r)) ;;
  emit (SetModelTranslation item) ;;
  lightCount <-
    match m_lightSources (members r) with
    | [] => ret 0
    | _ :: _ =>
        foldDraw (setupLight item) (m_visibleLightSources (members r)) 0
    end ;;
  emit (SetActiveLightCount lightCount) ;;
  emit PushModelView ;;
  emit (TranslateModelView item) ;;
  emit (RotateModelView (item_orientation item)) ;;
  (if negb (item_outsideFrustum item) then emit (Render item) else ret tt) ;;
  emit PopModelView.

(** ** Shadows *)

Definition beginShadowRendering : Draw unit :=
  emit (GlColorMask (false, false, false, false)) ;;
  emit (GlDepthMask true) ;;
  emit (GlEnable DepthTest) ;;
  emit (GlCullFace CullFront).

Definition beginCubicShadowRendering : Draw unit :=
  emit (GlColorMask (true, false, false, false)) ;;
  emit (GlDepthMask true) ;;
  emit (GlEnable DepthTest) ;;
  emit (GlCullFace CullFront).

Definition finishShadowRendering (renderSurface : option Framebuffer)
  (colorMask : bool * bool * bool * bool) : Draw unit :=
  match renderSurface with
  | Some surface => emit (Bind (SurfaceTarget surface))
  | None => emit (Bind DefaultTarget)
  end ;;
  emit (GlColorMask colorMask) ;;
  emit (GlCullFace CullBack).

(** [setupShadowRendering] for the map at [shadowIndex]; the matrix that
    it returns only reaches [setShadowMapMatrix]. *)
Definition setupShadowRendering (shadowIndex : Z) (shadowMap : Framebuffer)
  (shadowGroupSize : F32.float) : Draw unit :=
  if negb (fb_isValid shadowMap) then ret tt
  else
    emit (Bind (ShadowMapTarget shadowIndex)) ;;
    emit (GlClear false true) ;;
    emit PushProjection ;;
    emit (SetProjection (shadowProjection shadowGroupSize)) ;;
    emit PushModelView ;;
    emit SetModelView ;;
    emit (GlViewport (ViewportOfShadowMap shadowIndex)) ;;
    emit (GlDepthRange F32.zero F32.one).

(** The items [m_visibleItems[span.backItemIndex - i]] for [i] below
    [span.itemCount].  The reads have no effect of their own, so they
    are made at once; one read outside the vector leaves the whole call
    without a result. *)
Fixpoint readItems (items : list VisibleItem) (indices : list Z) :
  option (list VisibleItem) :=
  match indices with
  | [] => Some []
  | j :: rest =>
      match nth_error items (Z.to_nat j), readItems items rest with
      | Some item, Some others => Some (item :: others)
      | _, _ => None
      end
  end.

Definition spanItems (r : Renderer) (span : DepthBufferSpan) :
  Draw (list VisibleItem) :=
  defined (readItems (m_visibleItems (members r)) (spanItemIndices span)).

(** The bounding sphere of the shadow receivers of a span, and whether
    the span has a shadow caster. *)
Definition shadowReceiverBounds (items : list VisibleItem) : BoundingSphere :=
  fold_left
    (fun bounds item =>
       if isShadowReceiver (item_geometry item) then
         bs_merge bounds (v3d_cast (item_cameraRelativePosition item))
           (item_boundingRadius item)
       else bounds)
    items bs_new.

Definition shadowCastersPresent (items : list VisibleItem) : bool :=
  existsb (fun item => isShadowCaster (item_geometry item)) items.

Definition renderShadowOf (item : VisibleItem) : Draw unit :=
  if isShadowCaster (item_geometry item) then
    emit PushModelView ;;
    emit (TranslateModelView item) ;;
    emit (RotateModelView (item_orientation item)) ;;
    emit (RenderShadow item) ;;
    emit PopModelView
  else ret tt.

Definition renderDepthBufferSpanShadows (shadowIndex : Z)
  (span : DepthBufferSpan) (lightPosition : Vector3d) (r : Renderer) :
  Draw bool :=
  if negb (m_shadowsEnabled (members r)) then ret false
  else
    shadowMapPtr <-
      defined (nth_error (m_shadowMaps (members r)) (Z.to_nat shadowIndex)) ;;
    match (if framebufferSupported then shadowMapPtr else None) with
    | None => ret false
    | Some shadowMap =>
        if negb (fb_isValid shadowMap) then ret false
        else
          items <- spanItems r span ;;
          let bounds := shadowReceiverBounds items in
          if negb (shadowCastersPresent items) || bs_isEmpty bounds
          then ret false
          else
            emit (GlDepthRange F32.zero F32.one) ;;
            beginShadowRendering ;;
            _ <- defined (m_renderContext (members r)) ;;
            setupShadowRendering shadowIndex shadowMap (bs_radius bounds) ;;
            forEach renderShadowOf items ;;
            emit PopProjection ;;
            emit PopModelView ;;
            finishShadowRendering (m_renderSurface r) (m_renderColorMask r) ;;
            emit (GlDepthRange (m_depthRangeFront r) (m_depthRangeBack r)) ;;
            emit (GlViewport (ViewportOf (m_renderViewport r))) ;;
            emit (SetShadowMapMatrix shadowIndex) ;;
            emit (SetShadowMap shadowIndex) ;;
            ret true
    end.

(** [1.0e15f] and [0.0001f] *)
Definition farClearDistance : F32.float := F32.of_Z (10 ^ 15).
Definition omniNearRatio : F32.float := F32.div (F32.of_Z 1) (F32.of_Z 10000).

(** One face of an omnidirectional shadow map. *)
Definition renderOmniShadowFace (rc : RenderContext) (shadowIndex : Z)
  (cubeMap : CubeMapFramebuffer) (light : LightSource)
  (lightPosition : Vector3d) (items : list VisibleItem) (face : nat) :
  Draw unit :=
  match cube_face cubeMap face with
  | None => ret tt
  | Some _ =>
      let cameraOrientation := q_cast (CubeFaceCameraRotations face) in
      let faceProjection :=
        cubeFaceProjection (F32.mul (range light) omniNearRatio)
          (range light) in
      let faceFrustum := proj_frustum faceProjection in
      emit (Bind (OmniShadowFaceTarget shadowIndex face)) ;;
      emit (GlDepthMask true) ;;
      emit (GlClear true true) ;;
      emit PushModelView ;;
      emit SetModelView ;;
      emit (RotateModelView (qf_conjugate cameraOrientation)) ;;
      emit (SetCameraOrientation cameraOrientation) ;;
      emit (SetProjection faceProjection) ;;
      forEach
        (fun item =>
           if isShadowCaster (item_geometry item) then
             let itemPosition :=
               v3d_cast
                 (v3d_sub (item_cameraRelativePosition item) lightPosition) in
             let cameraSpacePosition :=
               toCameraSpace cameraOrientation itemPosition in
             if frustum_intersects faceFrustum cameraSpacePosition
                  (range light)
             then
               emit PushModelView ;;
               emit (TranslateModelView item) ;;
               emit (RotateModelView (item_orientation item)) ;;
               emit (RenderShadow item) ;;
               emit PopModelView
             else ret tt
           else ret tt)
        items ;;
      emit PopModelView ;;
      emit (SetCameraOrientation (rc_cameraOrientation rc))
  end.

Definition renderDepthBufferSpanOmniShadows (shadowIndex : Z)
  (span : DepthBufferSpan) (light : LightSource) (lightPosition : Vector3d)
  (r : Renderer) : Draw bool :=
  if negb framebufferSupported || negb (m_shadowsEnabled (members r))
  then ret false
  else
    cubeMapPtr <-
      defined (nth_error (m_omniShadowMaps r) (Z.to_nat shadowIndex)) ;;
    items <- spanItems r span ;;
    let bounds := shadowReceiverBounds items in
    if negb (shadowCastersPresent items) || bs_isEmpty bounds then ret false
    else
      cubeMap <- defined cubeMapPtr ;;
      emit (GlViewport (ViewportSquare (cube_size cubeMap))) ;;
      emit (GlDepthRange F32.zero F32.one) ;;
      beginCubicShadowRendering ;;
      emit (GlFrontFace Clockwise) ;;
      rc <- defined (m_renderContext (members r)) ;;
      emit (SetRendererOutput CameraDistance) ;;
      emit (GlClearColor farClearDistance) ;;
      emit PushProjection ;;
      forEach
        (renderOmniShadowFace rc shadowIndex cubeMap light lightPosition items)
        (seq 0 6) ;;
      emit PopProjection ;;
      emit (SetRendererOutput FragmentColor) ;;
      finishShadowRendering (m_renderSurface r) (m_renderColorMask r) ;;
      emit (GlFrontFace CounterClockwise) ;;
      emit (GlDepthRange (m_depthRangeFront r) (m_depthRangeBack r)) ;;
      emit (GlViewport (ViewportOf (m_renderViewport r))) ;;
      emit (SetOmniShadowMap shadowIndex) ;;
      emit (GlClearColor F32.zero) ;;
      ret true.

(** ** renderDepthBufferSpan *)

(** The loop over the light sources after the first, which counts the
    omnidirectional shadow maps in use. *)
Fixpoint omniShadowLoop (span : DepthBufferSpan) (r : Renderer)
  (lights : list VisibleLightSourceItem) (omniShadowCount : Z) : Draw Z :=
  match lights with
  | [] => ret omniShadowCount
  | light :: rest =>
      if omniShadowCount <? Z.of_nat (length (m_omniShadowMaps r)) then
        source <- defined (vls_lightSource light) ;;
        if light_isShadowCaster source then
          _ <- renderDepthBufferSpanOmniShadows omniShadowCount span source
                 (vls_cameraRelativePosition light) r ;;
          omniShadowLoop span r rest (u32 (omniShadowCount + 1))
        else omniShadowLoop span r rest omniShadowCount
      else ret omniShadowCount
  end.

(** [1.0f + 1.0e-6f] *)
Definition farSafetyFactor : F32.float :=
  F32.add F32.one (F32.div (F32.of_Z 1) (F32.of_Z 1000000)).

Definition environmentMapOf (lighting : option LightingEnvironment) :
  option EnvironmentMap :=
  match lighting with
  | Some l =>
      match reflectionRegions l with
      | region :: _ => Some region
      | [] => None
      end
  | None => None
  end.

Definition inPass (pass : Pass) (item : VisibleItem) : bool :=
  match pass with
  | OpaquePass => true
  | TranslucentPass => negb (isOpaque (item_geometry item))
  end.

(** The body of the loop over the items of the span. *)
Definition drawSpanItem (r : Renderer) (pass : Pass) (shadowsOn : bool)
  (omniShadowCount : Z) (item : VisibleItem) : Draw unit :=
  if inPass pass item then
    emit (SetShadowMapCount
            (if shadowsOn && isShadowReceiver (item_geometry item)
             then 1 else 0)) ;;
    emit (SetOmniShadowMapCount
            (if isShadowReceiver (item_geometry item)
             then omniShadowCount else 0)) ;;
    emit (SetEnvironmentMap (environmentMapOf (m_lighting r))) ;;
    drawItem r item
  else ret tt.

(** The test of the loop over the splittable items. *)
Definition overlapsSpan (span : DepthBufferSpan) (item : VisibleItem) : bool :=
  F32.ltb (item_nearDistance item) (span_farDistance span) &&
  F32.gtb (item_farDistance item) (span_nearDistance span).

Definition drawSplittableItem (r : Renderer) (pass : Pass)
  (span : DepthBufferSpan) (item : VisibleItem) : Draw unit :=
  if overlapsSpan span item then
    if inPass pass item then drawItem r item else ret tt
  else ret tt.

Definition drawPass (r : Renderer) (span : DepthBufferSpan)
  (items : list VisibleItem) (shadowsOn : bool) (omniShadowCount : Z)
  (pass : Pass) : Draw unit :=
  emit (SetPass pass) ;;
  forEach (drawSpanItem r pass shadowsOn omniShadowCount) items ;;
  emit (SetShadowMapCount 0) ;;
  emit (SetOmniShadowMapCount 0) ;;
  forEach (drawSplittableItem r pass span)
    (rev (m_splittableItems (members r))).

Definition spanShadows (r : Renderer) (span : DepthBufferSpan) :
  Draw (bool * Z) :=
  match m_shadowsEnabled (members r), m_visibleLightSources (members r) with
  | true, first :: others =>
      shadowsOn <-
        renderDepthBufferSpanShadows 0 span
          (vls_cameraRelativePosition first) r ;;
      omniShadowCount <- omniShadowLoop span r others 0 ;;
      ret (shadowsOn, omniShadowCount)
  | _, _ => ret (false, 0)
  end.

Definition renderDepthBufferSpan (span : DepthBufferSpan)
  (projection : PlanarProjection) (r : Renderer) : Draw unit :=
  if (itemCount span =? 0) &&
     match m_splittableItems (members r) with [] => true | _ :: _ => false end
  then ret tt
  else
    let nearDistance :=
      F32.max (proj_nearDistance projection) (span_nearDistance span) in
    let farDistance :=
      F32.min (proj_farDistance projection) (span_farDistance span) in
    if F32.leb farDistance nearDistance then ret tt
    else
      shadows <- spanShadows r span ;;
      let safeFarDistance := F32.mul farDistance farSafetyFactor in
      _ <- defined (m_renderContext (members r)) ;;
      emit (SetProjection (proj_slice projection nearDistance safeFarDistance)) ;;
      items <- spanItems r span ;;
      forEach (drawPass r span items (fst shadows) (snd shadows))
        [OpaquePass; TranslucentPass].

(** ** The drawing part of renderView *)

Definition skyLayerOrderPredicate (layer0 layer1 : SkyLayer) : bool :=
  drawOrder layer0 <? drawOrder layer1.

(** One round of the loop over the layer table; the vector is sorted
    again in every round. *)
Definition collectSkyLayer (visibleLayers : list SkyLayer)
  (entry : option SkyLayer) : list SkyLayer :=
  let visibleLayers :=
    match entry with
    | Some layer =>
        if layer_isVisible layer then push_back visibleLayers layer
        else visibleLayers
    | None => visibleLayers
    end in
  sort skyLayerOrderPredicate visibleLayers.

Definition visibleSkyLayers (universe : Universe) : list SkyLayer :=
  fold_left collectSkyLayer (layers universe) [].

Definition drawSkyLayers (universe : Universe) (r : Renderer) : Draw unit :=
  if m_skyLayersEnabled (members r) then
    forEach (fun layer => emit (GlDisable Lighting) ;;
                          emit (RenderSkyLayer layer))
      (visibleSkyLayers universe)
  else ret tt.

(** One round of the loop over the merged spans; [spanIndex] is an
    [unsigned int] and is converted to [float] for the products. *)
Definition drawSpan (projection : PlanarProjection) (spanRange : F32.float)
  (state : Renderer * Z) (span : DepthBufferSpan) : Draw (Renderer * Z) :=
  let '(r, spanIndex) := state in
  r <- setDepthRange (F32.mul (F32.of_Z spanIndex) spanRange)
         (F32.mul (F32.of_Z (u32 (spanIndex + 1))) spanRange) r ;;
  renderDepthBufferSpan span projection r ;;
  ret (r, u32 (spanIndex - 1)).

Definition drawSpans (projection : PlanarProjection) (r : Renderer) :
  Draw Renderer :=
  let merged := m_mergedDepthBufferSpans (members r) in
  let spanIndex := u32 (Z.of_nat (length merged) - 1) in
  let spanRange :=
    match merged with
    | [] => F32.one
    | _ :: _ => F32.div F32.one (F32.of_Z (Z.of_nat (length merged)))
    end in
  state <- foldDraw (drawSpan projection spanRange) merged (r, spanIndex) ;;
  setDepthRange F32.zero F32.one (fst state).

(** [0.1f] *)
Definition skyNearDistance : F32.float := F32.div (F32.of_Z 1) (F32.of_Z 10).

(** [renderView] with its calls.  The lists and the spans are those of
    [renderView] above; [colorWriteMask] is what
    [glGetBooleanv(GL_COLOR_WRITEMASK)] answers. *)
Definition drawView (fuel : nat) (lighting : option LightingEnvironment)
  (view : View) (renderSurface : option Framebuffer)
  (colorWriteMask : bool * bool * bool * bool) (r : Renderer) :
  Draw (RenderStatus * Renderer) :=
  match m_universe (members r) with
  | None => ret (RenderNoViewSet, r)
  | Some universe =>
      let r := with_target renderSurface (viewport view) colorWriteMask r in
      emit (GlViewport (ViewportOf (viewport view))) ;;
      (if proj_leftHanded (projection view)
       then emit (GlFrontFace Clockwise) else ret tt) ;;
      emit GlShadeModelSmooth ;;
      emit (GlEnable CullFaceTest) ;;
      _ <- defined (m_renderContext (members r)) ;;
      emit (SetCameraOrientation (q_cast (cameraOrientation view))) ;;
      emit (SetPixelSize (pixelSizeOf (projection view) (viewport view))) ;;
      emit (SetViewportSize (viewport view)) ;;
      emit PushModelView ;;
      emit (RotateModelView (q_cast (qd_conjugate (cameraOrientation view)))) ;;
      emit (GlDepthMask false) ;;
      emit (GlDisable DepthTest) ;;
      emit (GlDisable Texture2D) ;;
      emit (SetProjection
              (proj_slice (projection view) skyNearDistance F32.one)) ;;
      drawSkyLayers universe r ;;
      emit (GlEnable DepthTest) ;;
      emit (GlDepthMask true) ;;
      emit (GlEnable Normalize) ;;
      emit (GlEnable Lighting) ;;
      emit (SetActiveLightCount 1) ;;
      emit (SetAmbientLight (m_ambientLight r)) ;;
      result <- defined (renderView fuel view (members r)) ;;
      let r := with_lighting lighting (with_members (snd result) r) in
      r <- drawSpans (projection view) r ;;
      emit PopModelView ;;
      emit UnbindShader ;;
      emit (GlFrontFace CounterClockwise) ;;
      ret (RenderOk, with_lighting None r)
  end.

(** ** Cube maps *)

(** The loop of [renderCubeMap] over the faces from [face] on. *)
Fixpoint renderCubeMapFaces (fuel : nat)
  (lighting : option LightingEnvironment) (position : Vector3d)
  (cubeMap : CubeMapFramebuffer) (faceProjection : PlanarProjection)
  (rotation : Quaterniond) (colorWriteMask : bool * bool * bool * bool)
  (faces : list nat) (r : Renderer) : Draw (RenderStatus * Renderer) :=
  match faces with
  | [] =>
      emit (Bind DefaultTarget) ;;
      ret (RenderOk, r)
  | face :: rest =>
      match cube_face cubeMap face with
      | None =>
          renderCubeMapFaces fuel lighting position cubeMap faceProjection
            rotation colorWriteMask rest r
      | Some fb =>
          emit (Bind (CubeMapFaceTarget face)) ;;
          emit (GlDepthMask true) ;;
          emit (GlClear true true) ;;
          result <-
            drawView fuel lighting
              {| cameraPosition := position;
                 cameraOrientation :=
                   q_mul rotation (CubeFaceCameraRotations face);
                 projection := faceProjection;
                 viewport := squareViewport (cube_size cubeMap) |}
              (Some fb) colorWriteMask r ;;
          match fst result with
          | RenderOk =>
              renderCubeMapFaces fuel lighting position cubeMap
                faceProjection rotation colorWriteMask rest (snd result)
          | status =>
              emit (Bind DefaultTarget) ;;
              ret (status, snd result)
          end
      end
  end.

(** [renderCubeMap]; [faceProjection] is
    [CreatePerspectiveLH(float(toRadians(90.0)), 1.0f, nearDistance,
    farDistance)]. *)
Definition renderCubeMap (fuel : nat) (lighting : option LightingEnvironment)
  (position : Vector3d) (cubeMap : CubeMapFramebuffer)
  (faceProjection : PlanarProjection) (rotation : Quaterniond)
  (colorWriteMask : bool * bool * bool * bool) (r : Renderer) :
  Draw (RenderStatus * Renderer) :=
  renderCubeMapFaces fuel lighting position cubeMap faceProjection rotation
    colorWriteMask (seq 0 6) r.

(** The loop of [renderShadowCubeMap], which leaves by [break]. *)
Fixpoint renderShadowCubeMapFaces (fuel : nat)
  (lighting : option LightingEnvironment) (position : Vector3d)
  (cubeMap : CubeMapFramebuffer) (colorWriteMask : bool * bool * bool * bool)
  (faces : list nat) (status : RenderStatus) (r : Renderer) :
  Draw (RenderStatus * Renderer) :=
  match faces with
  | [] => ret (status, r)
  | face :: rest =>
      match cube_face cubeMap face with
      | None =>
          renderShadowCubeMapFaces fuel lighting position cubeMap
            colorWriteMask rest status r
      | Some fb =>
          emit (Bind (CubeMapFaceTarget face)) ;;
          emit (GlDepthMask true) ;;
          emit (GlClear true true) ;;
          result <-
            drawView fuel lighting
              {| cameraPosition := position;
                 cameraOrientation := CubeFaceCameraRotations face;
                 projection :=
                   cubeFaceProjection MinimumNearPlaneDistance
                     MaximumFarPlaneDistance;
                 viewport := squareViewport (cube_size cubeMap) |}
              (Some fb) colorWriteMask r ;;
          match fst result with
          | RenderOk =>
              renderShadowCubeMapFaces fuel lighting position cubeMap
                colorWriteMask rest RenderOk (snd result)
          | status => ret (status, snd result)
          end
      end
  end.

Definition renderShadowCubeMap (fuel : nat)
  (lighting : option LightingEnvironment) (position : Vector3d)
  (cubeMap : CubeMapFramebuffer) (colorWriteMask : bool * bool * bool * bool)
  (r : Renderer) : Draw (RenderStatus * Renderer) :=
  _ <- defined (m_renderContext (members r)) ;;
  emit (SetRendererOutput CameraDistance) ;;
  result <-
    renderShadowCubeMapFaces fuel lighting position cubeMap colorWriteMask
      (seq 0 6) RenderOk r ;;
  emit (Bind DefaultTarget) ;;
  emit (SetRendererOutput FragmentColor) ;;
  ret result.

End DrawingCode.

(** ** Reading a sequence of calls *)

Section Observers.
Context {C : Collaborators} {D : Drawing}.

(** The items whose geometry is rendered, in order. *)
Definition rendered (events : list Event) : list VisibleItem :=
  flat_map (fun e => match e with Render item => [item] | _ => [] end) events.

(** The items whose shadow is rendered, in order. *)
Definition shadowsRendered (events : list Event) : list VisibleItem :=
  flat_map (fun e => match e with RenderShadow item => [item] | _ => [] end)
    events.

(** The light slots that are set, in order, and the counts of active
    lights that are announced. *)
Definition lightSlots (events : list Event) : list Z :=
  flat_map (fun e => match e with SetLight slot _ => [slot] | _ => [] end)
    events.

Definition activeLightCounts (events : list Event) : list Z :=
  flat_map (fun e => match e with SetActiveLightCount n => [n] | _ => [] end)
    events.

(** By how much the calls raise the model-view stack and the projection
    stack. *)
Definition stackDelta (push pop : Event -> bool) (events : list Event) : Z :=
  fold_right
    (fun e d => (if push e then 1 else 0) - (if pop e then 1 else 0) + d)
    0 events.

Definition isPushModelView (e : Event) : bool :=
  match e with PushModelView => true | _ => false end.
Definition isPopModelView (e : Event) : bool :=
  match e with PopModelView => true | _ => false end.
Definition isPushProjection (e : Event) : bool :=
  match e with PushProjection => true | _ => false end.
Definition isPopProjection (e : Event) : bool :=
  match e with PopProjection => true | _ => false end.

Definition modelViewDelta : list Event -> Z :=
  stackDelta isPushModelView isPopModelView.
Definition projectionDelta : list Event -> Z :=
  stackDelta isPushProjection isPopProjection.

(** The GL state that the shadow passes change and put back. *)
Record GLState : Type := {
  gl_target : RenderTarget;
  gl_colorMask : bool * bool * bool * bool;
  gl_cullFace : CullMode;
  gl_frontFace : Winding;
  gl_depthRange : F32.float * F32.float;
  gl_viewport : ViewportArg;
  gl_clearColor : F32.float;
  gl_output : RendererOutput
}.

Definition applyEvent (g : GLState) (e : Event) : GLState :=
  match e with
  | Bind target =>
      {| gl_target := target; gl_colorMask := gl_colorMask g;
         gl_cullFace := gl_cullFace g; gl_frontFace := gl_frontFace g;
         gl_depthRange := gl_depthRange g; gl_viewport := gl_viewport g;
         gl_clearColor := gl_clearColor g; gl_output := gl_output g |}
  | GlColorMask mask =>
      {| gl_target := gl_target g; gl_colorMask := mask;
         gl_cullFace := gl_cullFace g; gl_frontFace := gl_frontFace g;
         gl_depthRange := gl_depthRange g; gl_viewport := gl_viewport g;
         gl_clearColor := gl_clearColor g; gl_output := gl_output g |}
  | GlCullFace mode =>
      {| gl_target := gl_target g; gl_colorMask := gl_colorMask g;
         gl_cullFace := mode; gl_frontFace := gl_frontFace g;
         gl_depthRange := gl_depthRange g; gl_viewport := gl_viewport g;
         gl_clearColor := gl_clearColor g; gl_output := gl_output g |}
  | GlFrontFace winding =>
      {| gl_target := gl_target g; gl_colorMask := gl_colorMask g;
         gl_cullFace := gl_cullFace g; gl_frontFace := winding;
         gl_depthRange := gl_depthRange g; gl_viewport := gl_viewport g;
         gl_clearColor := gl_clearColor g; gl_output := gl_output g |}
  | GlDepthRange front back =>
      {| gl_target := gl_target g; gl_colorMask := gl_colorMask g;
         gl_cullFace := gl_cullFace g; gl_frontFace := gl_frontFace g;
         gl_depthRange := (front, back); gl_viewport := gl_viewport g;
         gl_clearColor := gl_clearColor g; gl_output := gl_output g |}
  | GlViewport v =>
      {| gl_target := gl_target g; gl_colorMask := gl_colorMask g;
         gl_cullFace := gl_cullFace g; gl_frontFace := gl_frontFace g;
         gl_depthRange := gl_depthRange g; gl_viewport := v;
         gl_clearColor := gl_clearColor g; gl_output := gl_output g |}
  | GlClearColor red =>
      {| gl_target := gl_target g; gl_colorMask := gl_colorMask g;
         gl_cullFace := gl_cullFace g; gl_frontFace := gl_frontFace g;
         gl_depthRange := gl_depthRange g; gl_viewport := gl_viewport g;
         gl_clearColor := red; gl_output := gl_output g |}
  | SetRendererOutput output =>
      {| gl_target := gl_target g; gl_colorMask := gl_colorMask g;
         gl_cullFace := gl_cullFace g; gl_frontFace := gl_frontFace g;
         gl_depthRange := gl_depthRange g; gl_viewport := gl_viewport g;
         gl_clearColor := gl_clearColor g; gl_output := output |}
  | _ => g
  end.

Definition applyEvents (events : list Event) (g : GLState) : GLState :=
  fold_left applyEvent events g.

Lemma stackDelta_app (push pop : Event -> bool) (a b : list Event) :
  stackDelta push pop (a ++ b) = stackDelta push pop a + stackDelta push pop b.
Proof.
  induction a as [|e a IH]; simpl; [reflexivity|]. rewrite IH. lia.
Qed.

Lemma modelViewDelta_app (a b : list Event) :
  modelViewDelta (a ++ b) = modelViewDelta a + modelViewDelta b.
Proof. apply stackDelta_app. Qed.

Lemma projectionDelta_app (a b : list Event) :
  projectionDelta (a ++ b) = projectionDelta a + projectionDelta b.
Proof. apply stackDelta_app. Qed.

Lemma rendered_app (a b : list Event) :
  rendered (a ++ b) = rendered a ++ rendered b.
Proof. apply flat_map_app. Qed.

Lemma shadowsRendered_app (a b : list Event) :
  shadowsRendered (a ++ b) = shadowsRendered a ++ shadowsRendered b.
Proof. apply flat_map_app. Qed.

Lemma lightSlots_app (a b : list Event) :
  lightSlots (a ++ b) = lightSlots a ++ lightSlots b.
Proof. apply flat_map_app. Qed.

Lemma activeLightCounts_app (a b : list Event) :
  activeLightCounts (a ++ b) = activeLightCounts a ++ activeLightCounts b.
Proof. apply flat_map_app. Qed.

Lemma applyEvents_app (a b : list Event) (g : GLState) :
  applyEvents (a ++ b) g = applyEvents b (applyEvents a g).
Proof. apply fold_left_app. Qed.

(** *** Computations that return *)

Lemma bind_Some {A B : Type} (m : Draw A) (k : A -> Draw B) (b : B)
  (events : list Event) :
  bind m k = Some (b, events) <->
  exists a first second,
    m = Some (a, first) /\ k a = Some (b, second) /\
    events = first ++ second.
Proof.
  unfold bind. split.
  - destruct m as [[a first]|]; [|discriminate].
    destruct (k a) as [[b' second]|] eqn:E; [|discriminate].
    intros [= <- <-]. exists a, first, second. auto.
  - intros (a & first & second & -> & -> & ->). reflexivity.
Qed.

Lemma bind_None_l {A B : Type} (m : Draw A) (k : A -> Draw B) :
  m = None -> bind m k = None.
Proof. intros ->. reflexivity. Qed.

Lemma bind_None_r {A B : Type} (m : Draw A) (k : A -> Draw B) :
  (forall a, k a = None) -> bind m k = None.
Proof.
  intros H. unfold bind. destruct m as [[a first]|]; [|reflexivity].
  now rewrite H.
Qed.

Lemma bind_ret {A B : Type} (a : A) (k : A -> Draw B) :
  bind (ret a) k = k a.
Proof.
  unfold bind, ret. destruct (k a) as [[b second]|]; reflexivity.
Qed.

End Observers.

(** ** drawItem *)

Section DrawItem.
Context {C : Collaborators} {D : Drawing}.

(** Whether [drawItem] hands a visible light to the render context for
    [item]: the Sun always, another light when the item's bounding
    sphere reaches into its range. *)
Definition lit (item : VisibleItem) (light : VisibleLightSourceItem) : bool :=
  match vls_lightSource light with
  | None => true
  | Some source =>
      F32.ltb
        (F32.sub
           (v3f_norm
              (v3d_cast (v3d_sub (vls_position light) (item_position item))))
           (item_boundingRadius item))
        (range source)
  end.

Definition isSetLight (e : Event) : Prop :=
  exists slot light, e = SetLight slot light.

Lemma only_lights (events : list Event) :
  Forall isSetLight events ->
  rendered events = [] /\ activeLightCounts events = [] /\
  modelViewDelta events = 0 /\ projectionDelta events = 0.
Proof.
  induction 1 as [|e events (slot & light & ->) _ IH]; [repeat split|].
  destruct IH as (H1 & H2 & H3 & H4).
  unfold rendered, activeLightCounts, modelViewDelta, projectionDelta in *.
  simpl. rewrite H3, H4. auto.
Qed.

Lemma u32_succ (n : Z) : 0 <= n -> n + 1 < 2 ^ 32 -> u32 (n + 1) = n + 1.
Proof. intros. unfold u32. apply Z.mod_small. lia. Qed.

(** The loop over the visible lights, started with [lightCount] lights
    already set. *)
Lemma setupLights_spec (item : VisibleItem)
  (lights : list VisibleLightSourceItem) :
  forall lightCount,
    0 <= lightCount ->
    lightCount + Z.of_nat (length lights) < 2 ^ 32 ->
    exists events,
      foldDraw (setupLight item) lights lightCount =
        Some (lightCount + Z.of_nat (length (filter (lit item) lights)),
              events) /\
      Forall isSetLight events /\
      (Forall (fun l => vls_lightSource l <> None) lights ->
       lightSlots events =
       map (fun i => lightCount + Z.of_nat i)
         (seq 0 (length (filter (lit item) lights)))).
Proof.
  induction lights as [|light lights IH]; intros lightCount H0 Hlt.
  - exists []. simpl. rewrite Z.add_0_r. repeat split; constructor.
  - simpl length in Hlt.
    assert (Hstep : exists first,
      setupLight item lightCount light =
        Some (if lit item light then lightCount + 1 else lightCount, first) /\
      Forall isSetLight first /\
      (vls_lightSource light <> None ->
       lightSlots first = if lit item light then [lightCount] else [])).
    { unfold setupLight, lit.
      destruct (vls_lightSource light) as [source|].
      - match goal with |- context [F32.ltb ?a ?b] =>
          destruct (F32.ltb a b) end.
        + eexists. cbn. rewrite u32_succ by lia.
          split; [reflexivity|]. split; [|reflexivity].
          constructor; [|constructor]. eexists _, _. reflexivity.
        + eexists. cbn. split; [reflexivity|]. split; [constructor|].
          reflexivity.
      - eexists. cbn. rewrite u32_succ by lia.
        split; [reflexivity|]. split; [|congruence].
        constructor; [|constructor]. eexists _, _. reflexivity. }
    destruct Hstep as (first & E1 & F1 & S1).
    destruct (IH (if lit item light then lightCount + 1 else lightCount))
      as (second & E2 & F2 & S2).
    { destruct (lit item light); lia. }
    { destruct (lit item light); lia. }
    exists (first ++ second). split; [|split].
    + cbn [foldDraw]. unfold bind. rewrite E1, E2. simpl filter.
      destruct (lit item light);
        [simpl length; rewrite Nat2Z.inj_succ|]; do 2 f_equal; lia.
    + apply Forall_app. split; assumption.
    + intros Hall. inversion Hall as [|? ? Hl Hrest]; subst.
      rewrite lightSlots_app, (S1 Hl), (S2 Hrest). simpl filter.
      destruct (lit item light); simpl; [|reflexivity].
      rewrite Z.add_0_r. f_equal.
      rewrite <- seq_shift, map_map. apply map_ext. intros i. lia.
Qed.

Lemma setupLight_sun (item : VisibleItem) (lightCount : Z)
  (sun : VisibleLightSourceItem) :
  vls_lightSource sun = None ->
  setupLight item lightCount sun =
  Some (u32 (lightCount + 1),
        [SetLight 0
           {| light_type := DirectionalLight;
              light_position := v3d_cast (vls_cameraRelativePosition sun);
              light_of := None; light_attenuation := F32.one |}]).
Proof. intros H. unfold setupLight. rewrite H. reflexivity. Qed.

Lemma lit_sun (item : VisibleItem) (sun : VisibleLightSourceItem) :
  vls_lightSource sun = None -> lit item sun = true.
Proof. intros H. unfold lit. rewrite H. reflexivity. Qed.



(** The calls of [drawItem] around the lights. *)
Lemma drawItem_calls (r : Renderer) (item : VisibleItem)
  (rc : RenderContext) (lightCount : Z) (lights : list Event) :
  m_renderContext (members r) = Some rc ->
  match m_lightSources (members r) with
  | [] => ret 0
  | _ :: _ => foldDraw (setupLight item) (m_visibleLightSources (members r)) 0
  end = Some (lightCount, lights) ->
  drawItem r item =
  Some (tt,
        SetModelTranslation item :: lights ++
        [SetActiveLightCount lightCount; PushModelView;
         TranslateModelView item; RotateModelView (item_orientation item)] ++
        (if item_outsideFrustum item then [] else [Render item]) ++
        [PopModelView]).
Proof.
  intros Hrc Hl. unfold drawItem. rewrite Hrc, Hl.
  destruct (item_outsideFrustum item); cbn;
    rewrite ?app_nil_r; reflexivity.
Qed.

(** X8: With a render context, [drawItem] returns.  It announces as many
    active lights as there are visible lights that reach the item (none
    when the master light list is empty), it renders the geometry if and
    only if the item is not marked as outside the frustum, and it leaves
    the two matrix stacks as high as it found them. *)
Theorem drawItem_spec (r : Renderer) (item : VisibleItem) :
  m_renderContext (members r) <> None ->
  Z.of_nat (length (m_visibleLightSources (members r))) < 2 ^ 32 ->
  exists events,
    drawItem r item = Some (tt, events) /\
    rendered events = (if item_outsideFrustum item then [] else [item]) /\
    activeLightCounts events =
      [match m_lightSources (members r) with
       | [] => 0
       | _ :: _ =>
           Z.of_nat
             (length (filter (lit item) (m_visibleLightSources (members r))))
       end] /\
    modelViewDelta events = 0 /\ projectionDelta events = 0.
Proof.
  intros Hrc Hlen.
  destruct (m_renderContext (members r)) as [rc|] eqn:Erc; [|contradiction].
  assert (Hl : exists lights,
    match m_lightSources (members r) with
    | [] => ret 0
    | _ :: _ =>
        foldDraw (setupLight item) (m_visibleLightSources (members r)) 0
    end =
    Some (match m_lightSources (members r) with
          | [] => 0
          | _ :: _ =>
              Z.of_nat
                (length (filter (lit item)
                           (m_visibleLightSources (members r))))
          end, lights) /\
    Forall isSetLight lights).
  { destruct (m_lightSources (members r)).
    - exists []. split; [reflexivity|constructor].
    - destruct (@setupLights_spec item (m_visibleLightSources (members r)) 0)
        as (lights & E & F & _); [lia|lia|].
      exists lights. split; [exact E|exact F]. }
  destruct Hl as (lights & El & Fl).
  destruct (only_lights Fl) as (R1 & R2 & R3 & R4).
  eexists. split; [exact (drawItem_calls r item Erc El)|].
  change (SetModelTranslation item :: lights ++ ?rest)
    with ([SetModelTranslation item] ++ lights ++ rest).
  rewrite !rendered_app, !activeLightCounts_app, !modelViewDelta_app,
    !projectionDelta_app, R1, R2, R3, R4.
  destruct (item_outsideFrustum item); repeat split; reflexivity.
Qed.

(** X9: When the Sun is the first visible light (and the only entry with a
    null light source), the lights that reach the item are put into the
    slots 0, 1, 2, ... in the order of the visible light list, one light
    per slot. *)
Theorem drawItem_light_slots (r : Renderer) (item : VisibleItem)
  (sun : VisibleLightSourceItem) (others : list VisibleLightSourceItem) :
  m_renderContext (members r) <> None ->
  m_lightSources (members r) <> [] ->
  m_visibleLightSources (members r) = sun :: others ->
  vls_lightSource sun = None ->
  Forall (fun l => vls_lightSource l <> None) others ->
  Z.of_nat (length others) + 1 < 2 ^ 32 ->
  exists events,
    drawItem r item = Some (tt, events) /\
    lightSlots events =
      map Z.of_nat
        (seq 0 (length (filter (lit item) (sun :: others)))).
Proof.
  intros Hrc Hls Hvis Hsun Hothers Hlen.
  destruct (m_renderContext (members r)) as [rc|] eqn:Erc; [|contradiction].
  destruct (@setupLights_spec item others 1) as (rest & E & F & S);
    [lia|lia|].
  assert (El :
    match m_lightSources (members r) with
    | [] => ret 0
    | _ :: _ =>
        foldDraw (setupLight item) (m_visibleLightSources (members r)) 0
    end =
    Some (1 + Z.of_nat (length (filter (lit item) others)),
          SetLight 0
            {| light_type := DirectionalLight;
               light_position := v3d_cast (vls_cameraRelativePosition sun);
               light_of := None; light_attenuation := F32.one |} :: rest)).
  { destruct (m_lightSources (members r)); [contradiction|].
    rewrite Hvis. cbn [foldDraw]. rewrite (@setupLight_sun item 0 sun Hsun).
    unfold bind. change (u32 (0 + 1)) with 1. rewrite E. reflexivity. }
  eexists. split; [exact (drawItem_calls r item Erc El)|].
  change (SetModelTranslation item :: ?l ++ ?rest)
    with ([SetModelTranslation item] ++ l ++ rest).
  change (SetLight 0 ?l :: rest) with ([SetLight 0 l] ++ rest).
  rewrite !lightSlots_app, (S Hothers).
  simpl filter. rewrite (@lit_sun item sun Hsun).
  destruct (item_outsideFrustum item); cbn -[Z.add Z.of_nat];
    rewrite ?app_nil_r.
  all: change (Z.of_nat 0) with 0; f_equal.
  all: rewrite <- seq_shift, map_map; apply map_ext; intros i; lia.
Qed.


End DrawItem.

(** ** renderDepthBufferSpan *)

Section RenderSpan.
Context {C : Collaborators} {Sorter : StdSort} {D : Drawing}.

(** Calls that leave both matrix stacks as high as they were. *)
Definition balanced (events : list Event) : Prop :=
  modelViewDelta events = 0 /\ projectionDelta events = 0.

Lemma balanced_app (a b : list Event) :
  balanced a -> balanced b -> balanced (a ++ b).
Proof.
  unfold balanced. rewrite modelViewDelta_app, projectionDelta_app. lia.
Qed.

(** A loop whose rounds all return: what [observe] sees of its calls,
    and a property of call sequences that holds of nothing and of two
    sequences put together. *)
Lemma forEach_spec {A X : Type} (observe : Event -> list X)
  (P : list Event -> Prop) (body : A -> Draw unit) (result : A -> list X)
  (l : list A) :
  P [] -> (forall a b, P a -> P b -> P (a ++ b)) ->
  (forall a, In a l ->
     exists events,
       body a = Some (tt, events) /\
       flat_map observe events = result a /\ P events) ->
  exists events,
    forEach body l = Some (tt, events) /\
    flat_map observe events = flat_map result l /\ P events.
Proof.
  intros Hnil Happ. induction l as [|a l IH]; intros H.
  - exists []. repeat split. exact Hnil.
  - destruct (H a (or_introl eq_refl)) as (first & E1 & O1 & P1).
    destruct IH as (second & E2 & O2 & P2);
      [intros x Hx; apply H; now right|].
    exists (first ++ second). split; [|split].
    + simpl. unfold bind. rewrite E1, E2. reflexivity.
    + rewrite flat_map_app, O1, O2. reflexivity.
    + apply Happ; assumption.
Qed.

Lemma flat_map_filter {A : Type} (p : A -> bool) (l : list A) :
  flat_map (fun a => if p a then [a] else []) l = filter p l.
Proof.
  induction l as [|a l IH]; [reflexivity|]. simpl. rewrite IH.
  destruct (p a); reflexivity.
Qed.

(** Whether [renderDepthBufferSpan] returns at once: a span without
    items when there is no splittable item, or a span that the
    projection's near and far distances leave nothing of. *)
Definition spanSkipped (span : DepthBufferSpan) (projection : PlanarProjection)
  (r : Renderer) : bool :=
  ((itemCount span =? 0) &&
   match m_splittableItems (members r) with [] => true | _ :: _ => false end)
  || F32.leb (F32.min (proj_farDistance projection) (span_farDistance span))
       (F32.max (proj_nearDistance projection) (span_nearDistance span)).

(** The items whose geometry one pass over the span renders: first the
    items of the span, then the splittable items that overlap the span,
    from the back of their list to its front. *)
Definition drawnInPass (r : Renderer) (span : DepthBufferSpan)
  (items : list VisibleItem) (pass : Pass) : list VisibleItem :=
  filter (fun it => inPass pass it && negb (item_outsideFrustum it)) items ++
  filter (fun it => overlapsSpan span it && inPass pass it &&
                    negb (item_outsideFrustum it))
    (rev (m_splittableItems (members r))).

Lemma drawItem_rendered (r : Renderer) (item : VisibleItem) :
  m_renderContext (members r) <> None ->
  Z.of_nat (length (m_visibleLightSources (members r))) < 2 ^ 32 ->
  exists events,
    drawItem r item = Some (tt, events) /\
    rendered events = (if negb (item_outsideFrustum item) then [item] else [])
    /\ balanced events.
Proof.
  intros Hrc Hlen.
  destruct (drawItem_spec r item Hrc Hlen) as (events & E & R & _ & B1 & B2).
  exists events. split; [exact E|]. split; [|split; assumption].
  rewrite R. destruct (item_outsideFrustum item); reflexivity.
Qed.

Lemma drawPass_spec (r : Renderer) (span : DepthBufferSpan)
  (items : list VisibleItem) (shadowsOn : bool) (omniShadowCount : Z)
  (pass : Pass) :
  m_renderContext (members r) <> None ->
  Z.of_nat (length (m_visibleLightSources (members r))) < 2 ^ 32 ->
  exists events,
    drawPass r span items shadowsOn omniShadowCount pass =
      Some (tt, events) /\
    rendered events = drawnInPass r span items pass /\ balanced events.
Proof.
  intros Hrc Hlen.
  destruct (@forEach_spec _ _
              (fun e => match e with Render item => [item] | _ => [] end)
              balanced (drawSpanItem r pass shadowsOn omniShadowCount)
              (fun it => if inPass pass it && negb (item_outsideFrustum it)
                         then [it] else [])
              items)
    as (e1 & E1 & R1 & B1);
    [split; reflexivity|apply balanced_app| |].
  { intros item _. unfold drawSpanItem.
    destruct (drawItem_rendered r item Hrc Hlen) as (ev & E & R & B).
    destruct (inPass pass item).
    - eexists. cbn [bind emit]. unfold bind. rewrite E.
      split; [reflexivity|]. split.
      + cbn [flat_map app]. exact R.
      + destruct B as [B1 B2]. split; cbn; assumption.
    - exists []. repeat split. }
  destruct (@forEach_spec _ _
              (fun e => match e with Render item => [item] | _ => [] end)
              balanced (drawSplittableItem r pass span)
              (fun it => if overlapsSpan span it && inPass pass it &&
                            negb (item_outsideFrustum it)
                         then [it] else [])
              (rev (m_splittableItems (members r))))
    as (e2 & E2 & R2 & B2);
    [split; reflexivity|apply balanced_app| |].
  { intros item _. unfold drawSplittableItem.
    destruct (drawItem_rendered r item Hrc Hlen) as (ev & E & R & B).
    destruct (overlapsSpan span item); [|exists []; repeat split].
    destruct (inPass pass item); [|exists []; repeat split].
    exists ev. repeat split; try apply B; assumption. }
  exists (SetPass pass :: e1 ++
          [SetShadowMapCount 0; SetOmniShadowMapCount 0] ++ e2).
  split; [|split].
  - unfold drawPass. cbn [bind emit]. unfold bind. rewrite E1, E2.
    reflexivity.
  - unfold rendered, drawnInPass.
    change (SetPass pass :: ?l) with ([SetPass pass] ++ l).
    rewrite !flat_map_app, R1, R2, <- !flat_map_filter. reflexivity.
  - change (SetPass pass :: ?l) with ([SetPass pass] ++ l).
    repeat apply balanced_app; try assumption; split; reflexivity.
Qed.

Lemma renderDepthBufferSpan_calls (span : DepthBufferSpan)
  (projection : PlanarProjection) (r : Renderer)
  (items : list VisibleItem) :
  m_shadowsEnabled (members r) = false ->
  m_renderContext (members r) <> None ->
  Z.of_nat (length (m_visibleLightSources (members r))) < 2 ^ 32 ->
  readItems (m_visibleItems (members r)) (spanItemIndices span) = Some items ->
  exists events,
    renderDepthBufferSpan span projection r = Some (tt, events) /\
    rendered events =
      (if spanSkipped span projection r then []
       else drawnInPass r span items OpaquePass ++
            drawnInPass r span items TranslucentPass) /\
    balanced events.
Proof.
  intros Hsh Hrc Hlen Hitems.
  unfold renderDepthBufferSpan, spanSkipped.
  match goal with |- context [if ?c then ret tt else _] =>
    destruct c eqn:Hskip1 end.
  { exists []. repeat split. }
  cbv zeta.
  match goal with |- context [if F32.leb ?a ?b then ret tt else _] =>
    destruct (F32.leb a b) eqn:Hskip2 end.
  { exists []. repeat split. }
  cbn [orb].
  destruct (drawPass_spec r span items false 0 OpaquePass Hrc Hlen)
    as (e1 & E1 & R1 & B1).
  destruct (drawPass_spec r span items false 0 TranslucentPass Hrc Hlen)
    as (e2 & E2 & R2 & B2).
  destruct (m_renderContext (members r)) as [rc|] eqn:Erc; [|contradiction].
  eexists. split; [|split].
  - unfold spanShadows. rewrite Hsh. rewrite bind_ret.
    cbn [defined]. rewrite bind_ret.
    unfold spanItems. rewrite Hitems. cbn [defined fst snd forEach].
    unfold bind. cbn [emit ret]. rewrite E1, E2. reflexivity.
  - cbn [app]. change (SetProjection ?p :: ?l) with ([SetProjection p] ++ l).
    rewrite !rendered_app, R1, R2. cbn. now rewrite app_nil_r.
  - change (SetProjection ?p :: ?l) with ([SetProjection p] ++ l).
    repeat apply balanced_app; try assumption; split; reflexivity.
Qed.

(** X11: With shadows disabled, a render context, and the items of the span
    inside the item vector, [renderDepthBufferSpan] returns.  Unless the
    span is skipped, it renders in a first pass the items of the span
    from the back to the front and then the splittable items that
    overlap the span, and in a second pass those of them that are not
    opaque once more; items marked as outside the frustum are never
    rendered.  The matrix stacks end as high as they began. *)
Theorem renderDepthBufferSpan_rendered (span : DepthBufferSpan)
  (projection : PlanarProjection) (r : Renderer)
  (items : list VisibleItem) :
  m_shadowsEnabled (members r) = false ->
  m_renderContext (members r) <> None ->
  Z.of_nat (length (m_visibleLightSources (members r))) < 2 ^ 32 ->
  readItems (m_visibleItems (members r)) (spanItemIndices span) = Some items ->
  exists events,
    renderDepthBufferSpan span projection r = Some (tt, events) /\
    rendered events =
      (if spanSkipped span projection r then []
       else drawnInPass r span items OpaquePass ++
            drawnInPass r span items TranslucentPass) /\
    balanced events.
Proof. apply renderDepthBufferSpan_calls. Qed.

(** The lights among [lights] that cast shadows and are not the Sun. *)
Definition castingLights (lights : list VisibleLightSourceItem) :
  list VisibleLightSourceItem :=
  filter (fun l => match vls_lightSource l with
                   | Some source => light_isShadowCaster source
                   | None => false
                   end) lights.

Lemma u32_le (n : Z) : 0 <= n -> 0 <= u32 n <= n.
Proof.
  intros H. unfold u32. split; [apply Z.mod_pos_bound; lia|].
  apply Z.mod_le; lia.
Qed.

Lemma omniShadowLoop_sun (span : DepthBufferSpan) (r : Renderer)
  (sun : VisibleLightSourceItem) (after : list VisibleLightSourceItem) :
  vls_lightSource sun = None ->
  forall (before : list VisibleLightSourceItem) (omniShadowCount : Z),
    0 <= omniShadowCount ->
    Forall (fun l => vls_lightSource l <> None) before ->
    omniShadowCount + Z.of_nat (length (castingLights before)) <
      Z.of_nat (length (m_omniShadowMaps r)) ->
    omniShadowLoop span r (before ++ sun :: after) omniShadowCount = None.
Proof.
  intros Hsun. induction before as [|light before IH];
    intros count H0 Hall Hlt.
  - simpl in Hlt. cbn [app omniShadowLoop].
    assert (E : (count <? Z.of_nat (length (m_omniShadowMaps r))) = true)
      by (apply Z.ltb_lt; lia).
    rewrite E, Hsun. reflexivity.
  - inversion Hall as [|? ? Hl Hrest]; subst.
    cbn [app omniShadowLoop].
    unfold castingLights in Hlt. simpl filter in Hlt.
    fold (castingLights before) in Hlt.
    destruct (vls_lightSource light) as [source|] eqn:El; [|contradiction].
    assert (Hc : 0 <= Z.of_nat (length (castingLights before))) by lia.
    assert (E : (count <? Z.of_nat (length (m_omniShadowMaps r))) = true).
    { apply Z.ltb_lt. destruct (light_isShadowCaster source);
        simpl length in Hlt; lia. }
    rewrite E. cbn [defined]. rewrite bind_ret.
    destruct (light_isShadowCaster source).
    + apply bind_None_r. intros _. simpl length in Hlt.
      pose proof (@u32_le (count + 1) ltac:(lia)).
      apply IH; [lia|exact Hrest|lia].
    + apply IH; [exact H0|exact Hrest|exact Hlt].
Qed.

(** X12: With shadows enabled, the loop over the light sources after the
    first asks every one of them whether it casts shadows, through its
    light source.  When the Sun, whose light source is null, is not the
    first visible light, and there are more omnidirectional shadow maps
    than shadow-casting lights between the first light and the Sun, the
    loop reaches the Sun and dereferences the null pointer: a span that
    is not skipped is then drawn with no defined result. *)
Theorem renderDepthBufferSpan_sun_not_first (span : DepthBufferSpan)
  (projection : PlanarProjection) (r : Renderer)
  (first sun : VisibleLightSourceItem)
  (before after : list VisibleLightSourceItem) :
  m_shadowsEnabled (members r) = true ->
  m_visibleLightSources (members r) = first :: before ++ sun :: after ->
  vls_lightSource sun = None ->
  Forall (fun l => vls_lightSource l <> None) before ->
  Z.of_nat (length (castingLights before)) <
    Z.of_nat (length (m_omniShadowMaps r)) ->
  spanSkipped span projection r = false ->
  renderDepthBufferSpan span projection r = None.
Proof.
  intros Hsh Hvis Hsun Hbefore Hmaps Hskip.
  unfold spanSkipped in Hskip. apply orb_false_iff in Hskip.
  destruct Hskip as [Hs1 Hs2].
  unfold renderDepthBufferSpan. rewrite Hs1. cbv zeta. rewrite Hs2.
  apply bind_None_l. unfold spanShadows. rewrite Hsh, Hvis.
  apply bind_None_r. intros shadowsOn. apply bind_None_l.
  apply omniShadowLoop_sun; [exact Hsun|lia|exact Hbefore|lia].
Qed.

End RenderSpan.

(** ** The shadow pass of a span *)

Section ShadowPass.
Context {C : Collaborators} {D : Drawing}.

(** The render target that [finishShadowRendering] makes current. *)
Definition savedTarget (r : Renderer) : RenderTarget :=
  match m_renderSurface r with
  | Some surface => SurfaceTarget surface
  | None => DefaultTarget
  end.

(** Calls that render no geometry, keep the matrix stacks, and leave the
    GL state alone. *)
Definition quiet (events : list Event) : Prop :=
  rendered events = [] /\ balanced events /\
  forall g, applyEvents events g = g.

Lemma quiet_app (a b : list Event) : quiet a -> quiet b -> quiet (a ++ b).
Proof.
  intros (R1 & B1 & G1) (R2 & B2 & G2). split; [|split].
  - rewrite rendered_app, R1, R2. reflexivity.
  - apply balanced_app; assumption.
  - intros g. rewrite applyEvents_app, G1, G2. reflexivity.
Qed.

Lemma renderShadows_spec (items : list VisibleItem) :
  exists events,
    forEach renderShadowOf items = Some (tt, events) /\
    shadowsRendered events =
      filter (fun it => isShadowCaster (item_geometry it)) items /\
    quiet events.
Proof.
  unfold shadowsRendered. rewrite <- flat_map_filter.
  apply forEach_spec.
  - repeat split.
  - apply quiet_app.
  - intros item _. unfold renderShadowOf.
    destruct (isShadowCaster (item_geometry item)).
    + eexists. split; [reflexivity|]. repeat split.
    + exists []. repeat split.
Qed.

(** The calls of a shadow pass that draws. *)
Definition shadowPassCalls (shadowIndex : Z) (radius : F32.float)
  (r : Renderer) (shadows : list Event) : list Event :=
  [GlDepthRange F32.zero F32.one;
   GlColorMask (false, false, false, false); GlDepthMask true;
   GlEnable DepthTest; GlCullFace CullFront;
   Bind (ShadowMapTarget shadowIndex); GlClear false true;
   PushProjection; SetProjection (shadowProjection radius);
   PushModelView; SetModelView;
   GlViewport (ViewportOfShadowMap shadowIndex);
   GlDepthRange F32.zero F32.one] ++
  shadows ++
  [PopProjection; PopModelView;
   Bind (savedTarget r); GlColorMask (m_renderColorMask r);
   GlCullFace CullBack;
   GlDepthRange (m_depthRangeFront r) (m_depthRangeBack r);
   GlViewport (ViewportOf (m_renderViewport r));
   SetShadowMapMatrix shadowIndex; SetShadowMap shadowIndex].

(** What a shadow pass that returns has done. *)
Lemma renderDepthBufferSpanShadows_cases (shadowIndex : Z)
  (span : DepthBufferSpan) (lightPosition : Vector3d) (r : Renderer)
  (shadowsOn : bool) (events : list Event) :
  renderDepthBufferSpanShadows shadowIndex span lightPosition r =
    Some (shadowsOn, events) ->
  (shadowsOn = false /\ events = []) \/
  (shadowsOn = true /\
   m_shadowsEnabled (members r) = true /\
   exists items shadows,
     readItems (m_visibleItems (members r)) (spanItemIndices span) =
       Some items /\
     shadowCastersPresent items = true /\
     bs_isEmpty (shadowReceiverBounds items) = false /\
     forEach renderShadowOf items = Some (tt, shadows) /\
     events =
       shadowPassCalls shadowIndex (bs_radius (shadowReceiverBounds items))
         r shadows).
Proof.
  unfold renderDepthBufferSpanShadows.
  destruct (m_shadowsEnabled (members r)); cbn [negb];
    [|intros [= <- <-]; now left].
  destruct (nth_error (m_shadowMaps (members r)) (Z.to_nat shadowIndex))
    as [shadowMapPtr|]; cbn [defined]; [|discriminate].
  rewrite bind_ret.
  destruct (if framebufferSupported then shadowMapPtr else None)
    as [shadowMap|]; [|intros [= <- <-]; now left].
  destruct (fb_isValid shadowMap) eqn:Hvalid; cbn [negb];
    [|intros [= <- <-]; now left].
  unfold spanItems.
  destruct (readItems (m_visibleItems (members r)) (spanItemIndices span))
    as [items|] eqn:Hitems; cbn [defined]; [|discriminate].
  rewrite bind_ret.
  destruct (negb (shadowCastersPresent items) ||
            bs_isEmpty (shadowReceiverBounds items)) eqn:Hnone;
    [intros [= <- <-]; now left|].
  apply orb_false_iff in Hnone. destruct Hnone as [Hcast Hempty].
  apply negb_false_iff in Hcast.
  destruct (renderShadows_spec items) as (shadows & Eloop & _).
  unfold setupShadowRendering, beginShadowRendering, finishShadowRendering.
  rewrite Hvalid. cbn [negb].
  destruct (m_renderContext (members r)) as [rc|]; cbn [defined].
  - unfold bind. cbn [emit ret]. rewrite Eloop.
    unfold shadowPassCalls, savedTarget.
    destruct (m_renderSurface r); cbn [emit app];
      intros [= <- <-]; right; (split; [reflexivity|]);
      (split; [reflexivity|]);
      exists items, shadows.
    all: split; [reflexivity|].
    all: split; [exact Hcast|]. 
    all: split; [exact Hempty|].
    all: split; [exact Eloop|reflexivity].
  - unfold bind. cbn [emit ret undefined]. discriminate.
Qed.

(** X13: A shadow pass that returns [false] has made no call at all.  One
    that returns [true] found a shadow caster among the items of the
    span and has rendered the shadows of exactly the casters, from the
    back to the front, and no geometry; it leaves the matrix stacks as
    high as they were, and it leaves the render target, the colour mask,
    the depth range and the viewport as [renderView] had saved them,
    with back faces culled; winding, clear colour and renderer output
    are untouched. *)
Theorem renderDepthBufferSpanShadows_spec (shadowIndex : Z)
  (span : DepthBufferSpan) (lightPosition : Vector3d) (r : Renderer)
  (shadowsOn : bool) (events : list Event) :
  renderDepthBufferSpanShadows shadowIndex span lightPosition r =
    Some (shadowsOn, events) ->
  if shadowsOn then
    (exists items,
       readItems (m_visibleItems (members r)) (spanItemIndices span) =
         Some items /\
       shadowCastersPresent items = true /\
       shadowsRendered events =
         filter (fun it => isShadowCaster (item_geometry it)) items) /\
    rendered events = [] /\ balanced events /\
    forall g,
      gl_target (applyEvents events g) = savedTarget r /\
      gl_colorMask (applyEvents events g) = m_renderColorMask r /\
      gl_cullFace (applyEvents events g) = CullBack /\
      gl_depthRange (applyEvents events g) =
        (m_depthRangeFront r, m_depthRangeBack r) /\
      gl_viewport (applyEvents events g) = ViewportOf (m_renderViewport r) /\
      gl_frontFace (applyEvents events g) = gl_frontFace g /\
      gl_clearColor (applyEvents events g) = gl_clearColor g /\
      gl_output (applyEvents events g) = gl_output g
  else events = [].
Proof.
  intros H. apply renderDepthBufferSpanShadows_cases in H.
  destruct H as [[-> ->]|(-> & _ & items & shadows & Hi & Hc & _ & El & ->)];
    [reflexivity|].
  destruct (renderShadows_spec items) as (shadows' & El' & Hs & Hr & Hb & Hg).
  rewrite El in El'. injection El' as <-.
  unfold shadowPassCalls. split; [|split; [|split]].
  - exists items. split; [exact Hi|]. split; [exact Hc|].
    rewrite !shadowsRendered_app, Hs. cbn. now rewrite app_nil_r.
  - rewrite !rendered_app, Hr. reflexivity.
  - destruct Hb as [Hb1 Hb2]. unfold balanced.
    rewrite !modelViewDelta_app, !projectionDelta_app, Hb1, Hb2.
    split; reflexivity.
  - intros g. rewrite !applyEvents_app, Hg. cbn. repeat split.
Qed.

End ShadowPass.

(** ** The omnidirectional shadow pass of a span *)

Section OmniShadowPass.
Context {C : Collaborators} {D : Drawing}.

(** Calls that render no geometry, keep the matrix stacks, and change
    nothing of the GL state but the render target. *)
Definition retargeting (events : list Event) : Prop :=
  rendered events = [] /\ balanced events /\
  forall g,
    gl_colorMask (applyEvents events g) = gl_colorMask g /\
    gl_cullFace (applyEvents events g) = gl_cullFace g /\
    gl_frontFace (applyEvents events g) = gl_frontFace g /\
    gl_depthRange (applyEvents events g) = gl_depthRange g /\
    gl_viewport (applyEvents events g) = gl_viewport g /\
    gl_clearColor (applyEvents events g) = gl_clearColor g /\
    gl_output (applyEvents events g) = gl_output g.

Lemma retargeting_app (a b : list Event) :
  retargeting a -> retargeting b -> retargeting (a ++ b).
Proof.
  intros (R1 & B1 & G1) (R2 & B2 & G2). split; [|split].
  - rewrite rendered_app, R1, R2. reflexivity.
  - apply balanced_app; assumption.
  - intros g. rewrite applyEvents_app.
    destruct (G2 (applyEvents a g)) as (H1 & H2 & H3 & H4 & H5 & H6 & H7).
    destruct (G1 g) as (K1 & K2 & K3 & K4 & K5 & K6 & K7).
    repeat split; congruence.
Qed.

Lemma quiet_retargeting (events : list Event) :
  quiet events -> retargeting events.
Proof.
  intros (R & B & G). split; [exact R|]. split; [exact B|].
  intros g. rewrite G. repeat split.
Qed.

Lemma renderOmniShadowFace_spec (rc : RenderContext) (shadowIndex : Z)
  (cubeMap : CubeMapFramebuffer) (light : LightSource)
  (lightPosition : Vector3d) (items : list VisibleItem) (face : nat) :
  exists events,
    renderOmniShadowFace rc shadowIndex cubeMap light lightPosition items
      face = Some (tt, events) /\
    retargeting events.
Proof.
  unfold renderOmniShadowFace.
  destruct (cube_face cubeMap face) as [fb|];
    [|exists []; split; [reflexivity|repeat split]].
  cbv zeta.
  match goal with |- context [forEach ?body items] =>
    destruct (@forEach_spec _ _ _ VisibleItem (fun _ => []) quiet body
                (fun _ => []) items) as (inner & Ei & _ & Hq)
  end.
  - repeat split.
  - apply quiet_app.
  - intros item _.
    destruct (isShadowCaster (item_geometry item));
      [|exists []; repeat split].
    match goal with |- context [if ?c then _ else ret tt] =>
      destruct c end; [|exists []; repeat split].
    eexists. split; [reflexivity|]. repeat split.
  - eexists. split.
    + rewrite Ei. reflexivity.
    + cbn [app].
      match goal with |- retargeting (?a :: ?b :: ?c :: ?d :: ?e :: ?f ::
                                       ?g :: ?h :: inner ++ ?post) =>
        change (retargeting ([a; b; c; d; e; f; g; h] ++ inner ++ post))
      end.
      destruct Hq as (R & [B1 B2] & G). split; [|split].
      * rewrite !rendered_app, R. reflexivity.
      * unfold balanced.
        rewrite !modelViewDelta_app, !projectionDelta_app, B1, B2.
        split; reflexivity.
      * intros g. rewrite !applyEvents_app, G. cbn. repeat split.
Qed.

(** X14: An omnidirectional shadow pass that returns [false] has made no call
    at all.  One that returns [true] has rendered no geometry and leaves
    the matrix stacks as high as they were; it leaves the render target,
    the colour mask, the depth range and the viewport as [renderView]
    had saved them, with back faces culled.  The winding, the clear
    colour and the renderer output are not put back but set: to
    counter-clockwise, to black and to fragment colour, whatever they
    were before. *)
Theorem renderDepthBufferSpanOmniShadows_spec (shadowIndex : Z)
  (span : DepthBufferSpan) (light : LightSource) (lightPosition : Vector3d)
  (r : Renderer) (shadowsOn : bool) (events : list Event) :
  renderDepthBufferSpanOmniShadows shadowIndex span light lightPosition r =
    Some (shadowsOn, events) ->
  if shadowsOn then
    rendered events = [] /\ balanced events /\
    forall g,
      gl_target (applyEvents events g) = savedTarget r /\
      gl_colorMask (applyEvents events g) = m_renderColorMask r /\
      gl_cullFace (applyEvents events g) = CullBack /\
      gl_depthRange (applyEvents events g) =
        (m_depthRangeFront r, m_depthRangeBack r) /\
      gl_viewport (applyEvents events g) = ViewportOf (m_renderViewport r) /\
      gl_frontFace (applyEvents events g) = CounterClockwise /\
      gl_clearColor (applyEvents events g) = F32.zero /\
      gl_output (applyEvents events g) = FragmentColor
  else events = [].
Proof.
  unfold renderDepthBufferSpanOmniShadows.
  destruct (negb framebufferSupported ||
            negb (m_shadowsEnabled (members r)));
    [intros [= <- <-]; reflexivity|].
  destruct (nth_error (m_omniShadowMaps r) (Z.to_nat shadowIndex))
    as [cubeMapPtr|]; cbn [defined]; [|discriminate].
  rewrite bind_ret. unfold spanItems.
  destruct (readItems (m_visibleItems (members r)) (spanItemIndices span))
    as [items|]; cbn [defined]; [|discriminate].
  rewrite bind_ret.
  destruct (negb (shadowCastersPresent items) ||
            bs_isEmpty (shadowReceiverBounds items));
    [intros [= <- <-]; reflexivity|].
  destruct cubeMapPtr as [cubeMap|]; cbn [defined]; [|discriminate].
  rewrite bind_ret.
  destruct (m_renderContext (members r)) as [rc|]; cbn [defined];
    [|unfold beginCubicShadowRendering, bind; cbn [emit];
      discriminate].
  destruct (@forEach_spec _ _ _ VisibleItem (fun _ => []) retargeting
              (renderOmniShadowFace rc shadowIndex cubeMap light
                 lightPosition items)
              (fun _ => []) (seq 0 6)) as (faces & Ef & _ & Hf).
  { repeat split. }
  { apply retargeting_app. }
  { intros face _.
    destruct (renderOmniShadowFace_spec rc shadowIndex cubeMap light
                lightPosition items face) as (ev & E & H).
    exists ev. split; [exact E|]. split; [|exact H].
    clear. induction ev as [|e ev IH]; [reflexivity|exact IH]. }
  unfold beginCubicShadowRendering, finishShadowRendering, bind.
  cbn [emit ret]. rewrite Ef.
  unfold savedTarget.
  destruct Hf as (R & [B1 B2] & G).
  destruct (m_renderSurface r) as [surface|]; cbn [app]; intros [= <- <-].
  all: match goal with
       |- context [?a :: ?b :: ?c :: ?d :: ?e :: ?f :: ?g :: ?h ::
                   ?i :: ?j :: ?fs ++ ?post] =>
         change (a :: b :: c :: d :: e :: f :: g :: h :: i :: j ::
                 fs ++ post)
           with ([a; b; c; d; e; f; g; h; i; j] ++ fs ++ post)
       end.
  all: split; [rewrite !rendered_app, R; reflexivity|].
  all: split;
    [unfold balanced;
     rewrite !modelViewDelta_app, !projectionDelta_app, B1, B2;
     split; reflexivity|].
  all: intros g0; rewrite !applyEvents_app; cbn; repeat split.
Qed.

End OmniShadowPass.

(** ** The loop over the merged spans *)

Section DrawSpans.
Context {C : Collaborators} {Sorter : StdSort} {D : Drawing}.
Open Scope draw_scope.







(** Whatever the number of spans, the loop changes no member but the
    saved depth range. *)
Lemma foldDraw_drawSpan_frame (projection : PlanarProjection)
  (spanRange : F32.float) (spans : list DepthBufferSpan) :
  forall (rcur rlast : Renderer) (i j : Z) (events : list Event),
    foldDraw (drawSpan projection spanRange) spans (rcur, i) =
      Some ((rlast, j), events) ->
    forall a b, with_depthRange a b rlast = with_depthRange a b rcur.
Proof.
  induction spans as [|span spans IH]; intros rcur rlast i j events H a b.
  - simpl in H. injection H as <- <- <-. reflexivity.
  - cbn [foldDraw] in H. apply bind_Some in H.
    destruct H as ([r1 i1] & e1 & e2 & H1 & H2 & _).
    erewrite IH by exact H2.
    unfold drawSpan, setDepthRange in H1.
    apply bind_Some in H1. destruct H1 as (r2 & f1 & f2 & K1 & K2 & _).
    apply bind_Some in K1. destruct K1 as ([] & g1 & g2 & _ & K1 & _).
    injection K1 as <- _.
    apply bind_Some in K2. destruct K2 as ([] & h1 & h2 & _ & K2 & _).
    injection K2 as <- _ _. reflexivity.
Qed.

Lemma drawSpans_frame (projection : PlanarProjection) (r r' : Renderer)
  (events : list Event) :
  drawSpans projection r = Some (r', events) ->
  r' = with_depthRange F32.zero F32.one r.
Proof.
  unfold drawSpans. intros H. apply bind_Some in H.
  destruct H as ([rlast j] & e1 & e2 & H1 & H2 & _).
  unfold setDepthRange in H2. cbn [fst] in H2.
  apply bind_Some in H2. destruct H2 as ([] & f1 & f2 & _ & H2 & _).
  injection H2 as <- _.
  eapply foldDraw_drawSpan_frame; exact H1.
Qed.

(** X16: What a [renderView] that returns leaves in the members.  Outside a
    view set it has made no call and changed nothing.  Inside one, the
    lists and spans are those of the visibility part; the render
    surface, the viewport and the colour mask are the ones of this call;
    the saved depth range is [0, 1]; the lighting environment is not
    kept; the pool of omnidirectional shadow maps and the ambient light
    are as before. *)
Theorem drawView_frame (fuel : nat) (lighting : option LightingEnvironment)
  (view : View) (renderSurface : option Framebuffer)
  (colorWriteMask : bool * bool * bool * bool) (r r' : Renderer)
  (status : RenderStatus) (events : list Event) :
  drawView fuel lighting view renderSurface colorWriteMask r =
    Some ((status, r'), events) ->
  match m_universe (members r) with
  | None => status = RenderNoViewSet /\ r' = r /\ events = []
  | Some _ =>
      status = RenderOk /\
      renderView fuel view (members r) = Some (RenderOk, members r') /\
      m_lighting r' = None /\
      m_renderSurface r' = renderSurface /\
      m_renderViewport r' = viewport view /\
      m_renderColorMask r' = colorWriteMask /\
      m_depthRangeFront r' = F32.zero /\ m_depthRangeBack r' = F32.one /\
      m_omniShadowMaps r' = m_omniShadowMaps r /\
      m_ambientLight r' = m_ambientLight r
  end.
Proof.
  unfold drawView.
  destruct (m_universe (members r)) as [universe|] eqn:Hu;
    [|intros [= <- <- <-]; auto].
  cbv zeta. intros H.
  repeat match type of H with
         | bind _ _ = Some _ =>
             let Hm := fresh "Hm" in
             apply bind_Some in H; destruct H as (? & ? & ? & Hm & H & _)
         end.
  injection H as <- <- _.
  match goal with
  | Hs : drawSpans _ _ = Some _ |- _ => apply drawSpans_frame in Hs; subst
  end.
  match goal with
  | Hv : defined (renderView _ _ _) = Some _ |- _ =>
      cbn [members with_target] in Hv;
      destruct (renderView fuel view (members r)) as [[status2 m2]|] eqn:Erv;
      [|discriminate];
      cbn [defined ret] in Hv; injection Hv as <- _
  end.
  pose proof (renderView_result _ _ _ Erv) as Hres. rewrite Hu in Hres.
  destruct Hres as (-> & _).
  cbn. repeat split.
Qed.

End DrawSpans.

(** ** A whole view without shadows *)

Section DrawViewSafe.
Context {C : Collaborators} {Sorter : StdSort} {D : Drawing}.
Open Scope draw_scope.

(** A span whose reads stay inside the item vector. *)
Definition span_in_range (items : list VisibleItem) (s : DepthBufferSpan) :
  Prop :=
  itemCount s = 0 \/
  (0 <= itemCount s <= backItemIndex s + 1 /\
   backItemIndex s < Z.of_nat (length items)).

Lemma readItems_defined (items : list VisibleItem) (indices : list Z) :
  Forall (fun j => 0 <= j < Z.of_nat (length items)) indices ->
  exists read, readItems items indices = Some read.
Proof.
  induction 1 as [|j rest Hj _ IH]; [now exists []|].
  destruct IH as (others & E). simpl. rewrite E.
  destruct (nth_error items (Z.to_nat j)) as [item|] eqn:En.
  - now exists (item :: others).
  - apply nth_error_None in En. lia.
Qed.

Lemma span_in_range_readable (items : list VisibleItem)
  (s : DepthBufferSpan) :
  Z.of_nat (length items) < 2 ^ 32 -> span_in_range items s ->
  exists read, readItems items (spanItemIndices s) = Some read.
Proof.
  intros Hlen [H0|[Hc Hb]]; unfold spanItemIndices.
  - rewrite H0. now exists [].
  - apply readItems_defined. apply Forall_forall. intros j Hj.
    apply in_map_iff in Hj. destruct Hj as (i & <- & Hi).
    apply in_seq in Hi. unfold u32. rewrite Z.mod_small; lia.
Qed.

Lemma merged_in_range (items : list VisibleItem) :
  Z.of_nat (length items) < 2 ^ 31 ->
  Forall (span_in_range items)
    (coalesceDepthBufferSpans (splitDepthBufferSpans items)).
Proof.
  intros Hlen.
  destruct (splitDepthBufferSpans_contiguous items Hlen) as [Hc Hs].
  pose proof (grouping_contiguous
                (coalesceDepthBufferSpans_grouping
                   (splitDepthBufferSpans items)) _ Hc) as Hm.
  destruct (grouping_sum
              (coalesceDepthBufferSpans_grouping
                 (splitDepthBufferSpans items))
              (contiguous_counts _ _ Hc)) as [_ Hms]; [lia|].
  specialize (Hm ltac:(lia)).
  pose proof (@contiguous_bounds _ _ Hm ltac:(lia)) as Hb.
  eapply Forall_impl; [|exact Hb]. intros s Hs'. right. simpl in Hs'. lia.
Qed.

Lemma addFrontSpans_in_range (items : list VisibleItem)
  (projNear : F32.float) (fuel : nat) :
  forall merged out,
    Forall (span_in_range items) merged ->
    addFrontSpans fuel projNear merged = Some out ->
    Forall (span_in_range items) out.
Proof.
  induction fuel as [|fuel IH]; intros merged out Hm H; [discriminate|].
  cbn [addFrontSpans] in H.
  destruct (back merged) as [last|]; [|discriminate].
  destruct (F32.gtb (span_nearDistance last) projNear).
  - eapply IH; [|exact H]. apply Forall_push_back.
    split; [exact Hm|]. now left.
  - now injection H as <-.
Qed.

Lemma extendForSplittable_in_range (items : list VisibleItem)
  (fuel : nat) (projNear projFar : F32.float)
  (splittable : list VisibleItem) (spans merged out : list DepthBufferSpan) :
  Forall (span_in_range items) merged ->
  extendForSplittable fuel projNear projFar splittable spans merged =
    Some out ->
  Forall (span_in_range items) out.
Proof.
  intros Hm. unfold extendForSplittable.
  destruct splittable as [|s splittable]; [now intros [= <-]|].
  destruct (addBackSpan projNear projFar (s :: splittable) spans merged)
    as [m1|] eqn:E1; [|discriminate].
  destruct (addFrontSpans fuel projNear m1) as [m2|] eqn:E2; [|discriminate].
  intros E3.
  assert (H1 : Forall (span_in_range items) m1).
  { unfold addBackSpan in E1. cbn [front] in E1.
    destruct spans.
    - injection E1 as <-. apply Forall_push_back. split; [exact Hm|now left].
    - destruct (front merged) as [f|]; [|discriminate].
      destruct (F32.gtb _ _); injection E1 as <-; [|exact Hm].
      constructor; [now left|exact Hm]. }
  pose proof (addFrontSpans_in_range _ _ H1 E2) as H2.
  unfold addOuterBackSpan in E3.
  destruct (front m2); [|discriminate]. injection E3 as <-.
  constructor; [now left|exact H2].
Qed.

(** What one span contributes to the picture when shadows are disabled:
    nothing if it is skipped, else the two passes over its items and the
    overlapping splittable items. *)
Definition spanRendered (projection : PlanarProjection) (r : Renderer)
  (span : DepthBufferSpan) : list VisibleItem :=
  if spanSkipped span projection r then []
  else
    match readItems (m_visibleItems (members r)) (spanItemIndices span) with
    | Some items =>
        drawnInPass r span items OpaquePass ++
        drawnInPass r span items TranslucentPass
    | None => []
    end.

Lemma drawSpans_rendered_loop (projection : PlanarProjection)
  (spanRange : F32.float) (r : Renderer) :
  m_shadowsEnabled (members r) = false ->
  m_renderContext (members r) <> None ->
  Z.of_nat (length (m_visibleItems (members r))) < 2 ^ 32 ->
  Z.of_nat (length (m_visibleLightSources (members r))) < 2 ^ 32 ->
  forall (spans : list DepthBufferSpan) (rcur : Renderer) (i : Z),
    members rcur = members r ->
    Forall (span_in_range (m_visibleItems (members r))) spans ->
    exists state events,
      foldDraw (drawSpan projection spanRange) spans (rcur, i) =
        Some (state, events) /\
      rendered events = flat_map (spanRendered projection r) spans /\
      balanced events.
Proof.
  intros Hsh Hrc Hitems Hlights.
  induction spans as [|span spans IH]; intros rcur i Hm Hall.
  - exists (rcur, i), []. repeat split.
  - inversion Hall as [|? ? Hspan Hrest]; subst.
    destruct (span_in_range_readable Hitems Hspan) as (read & Hread).
    set (rnext := with_depthRange (F32.mul (F32.of_Z i) spanRange)
                    (F32.mul (F32.of_Z (u32 (i + 1))) spanRange) rcur).
    assert (Hm' : members rnext = members r) by exact Hm.
    destruct (renderDepthBufferSpan_calls) with (span := span)
      (projection := projection) (r := rnext) (items := read)
      as (e1 & E1 & R1 & B1); try (rewrite Hm'; assumption).
    destruct (IH rnext (u32 (i - 1)) Hm' Hrest) as (state & e2 & E2 & R2 & B2).
    exists state, ((GlDepthRange (F32.mul (F32.of_Z i) spanRange)
                      (F32.mul (F32.of_Z (u32 (i + 1))) spanRange) :: e1)
                   ++ e2).
    split; [|split].
    + cbn [foldDraw]. apply bind_Some.
      exists (rnext, u32 (i - 1)),
        (GlDepthRange (F32.mul (F32.of_Z i) spanRange)
           (F32.mul (F32.of_Z (u32 (i + 1))) spanRange) :: e1), e2.
      split; [|split; [exact E2|reflexivity]].
      unfold drawSpan, setDepthRange. fold rnext.
      unfold bind. cbn [emit ret]. rewrite E1. cbn [app].
      rewrite app_nil_r. reflexivity.
    + rewrite rendered_app. cbn [flat_map]. rewrite <- R2. f_equal.
      change (GlDepthRange ?a ?b :: e1) with ([GlDepthRange a b] ++ e1).
      rewrite rendered_app. cbn [rendered flat_map app]. rewrite R1.
      unfold spanRendered, spanSkipped, drawnInPass.
      rewrite Hm', Hread. reflexivity.
    + apply balanced_app; [|exact B2].
      change (GlDepthRange ?a ?b :: e1) with ([GlDepthRange a b] ++ e1).
      apply balanced_app; [split; reflexivity|exact B1].
Qed.

Lemma spanRendered_members (projection : PlanarProjection) (a b : Renderer)
  (span : DepthBufferSpan) :
  members a = members b ->
  spanRendered projection a span = spanRendered projection b span.
Proof.
  intros H. unfold spanRendered, spanSkipped, drawnInPass. now rewrite H.
Qed.

Lemma drawSkyLayers_quiet (universe : Universe) (r : Renderer) :
  exists events,
    drawSkyLayers universe r = Some (tt, events) /\
    rendered events = [] /\ balanced events.
Proof.
  unfold drawSkyLayers. destruct (m_skyLayersEnabled (members r)).
  - destruct (@forEach_spec _ _ SkyLayer VisibleItem
                (fun e => match e with Render item => [item] | _ => [] end)
                balanced
                (fun layer => emit (GlDisable Lighting) ;;
                              emit (RenderSkyLayer layer))
                (fun _ => []) (visibleSkyLayers universe))
      as (events & E & R & B).
    + split; reflexivity.
    + apply balanced_app.
    + intros layer _. eexists. split; [reflexivity|].
      split; [reflexivity|split; reflexivity].
    + exists events. split; [exact E|]. split; [|exact B].
      unfold rendered. rewrite R. clear E R.
      induction (visibleSkyLayers universe) as [|layer rest IH];
        [reflexivity|exact IH].
  - exists []. repeat split.
Qed.

(** X17: With shadows disabled, [renderView] completes whenever its
    visibility part does and the item vector has fewer than [2^31]
    entries: no span, merged or added for splittable items, makes it
    read outside the item vector.  It returns [RenderOk], and the
    geometry it renders is, span after span in the order of the merged
    list (farthest first), what [spanRendered] tells; sky layers are
    drawn but no item is rendered for them.  Both matrix stacks end as
    high as they began. *)
Theorem drawView_without_shadows (fuel : nat)
  (lighting : option LightingEnvironment) (view : View)
  (renderSurface : option Framebuffer)
  (colorWriteMask : bool * bool * bool * bool) (r : Renderer)
  (status : RenderStatus) (members' : UniverseRenderer) :
  m_shadowsEnabled (members r) = false ->
  m_universe (members r) <> None ->
  renderView fuel view (members r) = Some (status, members') ->
  Z.of_nat (length (m_visibleItems members')) < 2 ^ 31 ->
  Z.of_nat (length (m_visibleLightSources members')) < 2 ^ 32 ->
  exists r' events,
    drawView fuel lighting view renderSurface colorWriteMask r =
      Some ((RenderOk, r'), events) /\
    members r' = members' /\
    rendered events =
      flat_map (spanRendered (projection view) r')
        (m_mergedDepthBufferSpans members') /\
    balanced events.
Proof.
  intros Hsh Hu Hrv Hitems Hlights.
  pose proof (renderView_result _ _ _ Hrv) as Hres.
  destruct (m_universe (members r)) as [universe|] eqn:Eu; [|contradiction].
  cbv zeta in Hres.
  destruct Hres as (-> & Hrc & Hsur & _ & _ & Hraw & Hext).
  assert (Hset : m_shadowsEnabled members' = false /\
                 m_renderContext members' <> None).
  { unfold surroundings in Hsur. injection Hsur as Hc _ _ Hs _ _ _ _ _ _.
    rewrite Hc, Hs. split; [exact Hsh|].
    unfold litView, prepareView. simpl.
    destruct (m_renderContext (members r)); [discriminate|contradiction]. }
  destruct Hset as [Hsh' Hrc'].
  assert (Hrange : Forall (span_in_range (m_visibleItems members'))
                     (m_mergedDepthBufferSpans members')).
  { eapply extendForSplittable_in_range; [|exact Hext].
    rewrite Hraw. apply merged_in_range. exact Hitems. }
  set (r0 := with_target renderSurface (viewport view) colorWriteMask r).
  set (r1 := with_lighting lighting (with_members members' r0)).
  destruct (drawSkyLayers_quiet universe r0) as (sky & Esky & Rsky & Bsky).
  destruct (@drawSpans_rendered_loop (projection view)
              match m_mergedDepthBufferSpans members' with
              | [] => F32.one
              | _ :: _ =>
                  F32.div F32.one
                    (F32.of_Z
                       (Z.of_nat (length (m_mergedDepthBufferSpans members'))))
              end r1 Hsh' Hrc' ltac:(simpl; lia) Hlights
              (m_mergedDepthBufferSpans members') r1
              (u32 (Z.of_nat (length (m_mergedDepthBufferSpans members')) - 1))
              eq_refl Hrange)
    as ([rlast j] & spans & Espans & Rspans & Bspans).
  assert (Hframe : forall a b,
             with_depthRange a b rlast = with_depthRange a b r1)
    by (eapply foldDraw_drawSpan_frame; exact Espans).
  destruct (m_renderContext (members r)) as [rc|] eqn:Erc; [|contradiction].
  exists (with_lighting None (with_depthRange F32.zero F32.one r1)).
  exists ((GlViewport (ViewportOf (viewport view))
           :: (if proj_leftHanded (projection view)
               then [GlFrontFace Clockwise] else []) ++
           [GlShadeModelSmooth; GlEnable CullFaceTest;
            SetCameraOrientation (q_cast (cameraOrientation view));
            SetPixelSize (pixelSizeOf (projection view) (viewport view));
            SetViewportSize (viewport view);
            PushModelView;
            RotateModelView (q_cast (qd_conjugate (cameraOrientation view)));
            GlDepthMask false; GlDisable DepthTest; GlDisable Texture2D;
            SetProjection
              (proj_slice (projection view) skyNearDistance F32.one)]) ++
          sky ++
          [GlEnable DepthTest; GlDepthMask true; GlEnable Normalize;
           GlEnable Lighting; SetActiveLightCount 1;
           SetAmbientLight (m_ambientLight r)] ++
          spans ++
          [GlDepthRange F32.zero F32.one; PopModelView; UnbindShader;
           GlFrontFace CounterClockwise]).
  split; [|split; [reflexivity|split]].
  - unfold drawView. rewrite Eu. cbv zeta. fold r0.
    change (members r0) with (members r). rewrite Erc, Hrv, Esky.
    unfold drawSpans, setDepthRange, bind.
    cbn [emit ret defined snd fst]. fold r1.
    change (members r1) with members'. rewrite Espans.
    cbn [fst]. rewrite Hframe.
    destruct (proj_leftHanded (projection view)); cbn [emit ret app];
      rewrite <- ?app_assoc; cbn [app]; rewrite ?app_nil_r; reflexivity.
  - rewrite !rendered_app, Rsky, Rspans.
    destruct (proj_leftHanded (projection view)); cbn [rendered flat_map app];
      rewrite app_nil_r; apply flat_map_ext; intros span;
      apply spanRendered_members; reflexivity.
  - unfold balanced in *.
    rewrite !modelViewDelta_app, !projectionDelta_app.
    destruct Bsky as [-> ->]. destruct Bspans as [-> ->].
    destruct (proj_leftHanded (projection view)); split; reflexivity.
Qed.

End DrawViewSafe.

(** ** Sky layers *)

Section SkyLayers.
Context {C : Collaborators} {Sorter : StdSort} {D : Drawing}.
Open Scope draw_scope.

(** The layers of the table that are there and visible, in table
    order. *)
Definition shownLayers (table : list (option SkyLayer)) : list SkyLayer :=
  flat_map
    (fun entry =>
       match entry with
       | Some layer => if layer_isVisible layer then [layer] else []
       | None => []
       end)
    table.

(** The sky layers that are rendered, in order. *)
Definition skyRendered (events : list Event) : list SkyLayer :=
  flat_map (fun e => match e with RenderSkyLayer layer => [layer] | _ => [] end)
    events.

Lemma skyLayerOrderPredicate_strict_weak_order :
  strict_weak_order skyLayerOrderPredicate.
Proof.
  unfold strict_weak_order, skyLayerOrderPredicate.
  split; [|split].
  - intros x. apply Z.ltb_irrefl.
  - intros x y z H1 H2. apply Z.ltb_lt in H1, H2. apply Z.ltb_lt. lia.
  - intros x y z H1 H2. apply Z.ltb_ge in H1, H2. apply Z.ltb_ge. lia.
Qed.

Lemma collectSkyLayer_fold (table : list (option SkyLayer)) :
  forall visibleLayers,
    Permutation (fold_left collectSkyLayer table visibleLayers)
      (visibleLayers ++ shownLayers table) /\
    (sorted_by skyLayerOrderPredicate visibleLayers ->
     sorted_by skyLayerOrderPredicate
       (fold_left collectSkyLayer table visibleLayers)).
Proof.
  induction table as [|entry table IH]; intros visibleLayers.
  - simpl. rewrite app_nil_r. split; [reflexivity|auto].
  - cbn [fold_left shownLayers flat_map].
    destruct (IH (collectSkyLayer visibleLayers entry)) as [IHp IHs].
    split.
    + rewrite IHp. fold (shownLayers table). rewrite app_assoc.
      apply Permutation_app_tail. unfold collectSkyLayer.
      rewrite <- sort_permutation.
      destruct entry as [layer|]; [|now rewrite app_nil_r].
      destruct (layer_isVisible layer); [reflexivity|now rewrite app_nil_r].
    + intros _. apply IHs. unfold collectSkyLayer.
      apply sort_sorted. apply skyLayerOrderPredicate_strict_weak_order.
Qed.

(** X18: The sky layer part of [renderView] returns.  With sky layers
    enabled it renders every layer of the table that is non-null and
    visible, each once, in an order in which the draw order never
    decreases; with sky layers disabled it renders none.  It renders no
    item and leaves the matrix stacks alone. *)
Theorem drawSkyLayers_sorted (universe : Universe) (r : Renderer) :
  exists events,
    drawSkyLayers universe r = Some (tt, events) /\
    skyRendered events =
      (if m_skyLayersEnabled (members r) then visibleSkyLayers universe
       else []) /\
    Permutation (visibleSkyLayers universe) (shownLayers (layers universe)) /\
    StronglySorted (fun a b => drawOrder a <= drawOrder b)
      (visibleSkyLayers universe).
Proof.
  destruct (collectSkyLayer_fold (layers universe) []) as [Hp Hs].
  assert (Hsorted : StronglySorted (fun a b => drawOrder a <= drawOrder b)
                      (visibleSkyLayers universe)).
  { specialize (Hs ltac:(constructor)). unfold sorted_by in Hs.
    unfold visibleSkyLayers. clear Hp.
    induction Hs as [|a l Hl IH Ha]; [constructor|].
    constructor; [exact IH|].
    eapply Forall_impl; [|exact Ha]. intros b Hb.
    unfold skyLayerOrderPredicate in Hb. apply Z.ltb_ge in Hb. exact Hb. }
  unfold drawSkyLayers. destruct (m_skyLayersEnabled (members r)).
  - destruct (@forEach_spec _ _ SkyLayer SkyLayer
                (fun e => match e with RenderSkyLayer l => [l] | _ => [] end)
                (fun _ => True)
                (fun layer => emit (GlDisable Lighting) ;;
                              emit (RenderSkyLayer layer))
                (fun layer => [layer]) (visibleSkyLayers universe))
      as (events & E & R & _); auto.
    + intros layer _. eexists. split; [reflexivity|]. split; [reflexivity|auto].
    + exists events. split; [exact E|]. split; [|split; assumption].
      unfold skyRendered. rewrite R.
      clear. induction (visibleSkyLayers universe) as [|a l IH];
        [reflexivity|]. simpl. now rewrite IH.
  - exists []. repeat split; assumption.
Qed.

End SkyLayers.

(** ** The pool of omnidirectional shadow maps *)

Section OmniShadowPool.
Context {C : Collaborators} {Sorter : StdSort} {D : Drawing}.

Lemma createOmniShadowMaps_pool (drv : OmniShadowDriver) (size : Z)
  (n : nat) :
  forall i pool out,
    createOmniShadowMaps drv size n i pool = Some out ->
    exists created,
      out = pool ++ created /\ length created = n /\
      Forall (fun map => map <> None) created /\
      forall k, (k < n)%nat ->
        drv_createCubicReflectionMap drv (i + k) size <> None.
Proof.
  induction n as [|n IH]; intros i pool out H.
  - injection H as <-. exists []. rewrite app_nil_r.
    repeat split; [constructor|lia].
  - cbn [createOmniShadowMaps] in H.
    destruct (drv_createCubicReflectionMap drv i size) as [map|] eqn:E;
      [|discriminate].
    apply IH in H. destruct H as (created & -> & Hlen & Hall & Hdrv).
    exists (Some map :: created). unfold push_back.
    rewrite <- app_assoc. repeat split.
    + simpl. now rewrite Hlen.
    + constructor; [discriminate|exact Hall].
    + intros [|k] Hk.
      * rewrite Nat.add_0_r, E. discriminate.
      * replace (i + S k)%nat with (S i + k)%nat by lia. apply Hdrv. lia.
Qed.

Lemma createOmniShadowMaps_fails (drv : OmniShadowDriver) (size : Z)
  (n : nat) :
  forall i pool,
    createOmniShadowMaps drv size n i pool = None ->
    exists k, (k < n)%nat /\
      drv_createCubicReflectionMap drv (i + k) size = None.
Proof.
  induction n as [|n IH]; intros i pool H; [discriminate|].
  cbn [createOmniShadowMaps] in H.
  destruct (drv_createCubicReflectionMap drv i size) as [map|] eqn:E.
  - apply IH in H. destruct H as (k & Hk & Hnone). exists (S k).
    split; [lia|]. replace (i + S k)%nat with (S i + k)%nat by lia.
    exact Hnone.
  - exists 0%nat. split; [lia|]. now rewrite Nat.add_0_r.
Qed.

(** X19: [initializeOmniShadowMaps] changes nothing but the pool of cube
    maps.  It succeeds exactly when graphics are initialised, the
    driver supports omnidirectional shadows and every cube map can be
    created; the pool then holds only non-null maps, as many as were
    asked for, or [MaxShadowMaps] of them when more than
    [MaxOmniShadowMaps] were asked for.  When a cube map cannot be
    created the pool is left empty; in the two other cases of failure it
    is left as it was. *)
Theorem initializeOmniShadowMaps_spec (drv : OmniShadowDriver)
  (MaxShadowMaps MaxOmniShadowMaps shadowMapSize shadowMapCount : Z)
  (r : Renderer) :
  let result :=
    initializeOmniShadowMaps drv MaxShadowMaps MaxOmniShadowMaps
      shadowMapSize shadowMapCount r in
  let count :=
    if MaxOmniShadowMaps <? shadowMapCount then MaxShadowMaps
    else shadowMapCount in
  let size := Z.min (u32 (drv_maxCubeMapTextureSize drv)) shadowMapSize in
  (forall maps, with_omniShadowMaps maps (snd result) =
                with_omniShadowMaps maps r) /\
  (fst result = true <->
   m_renderContext (members r) <> None /\
   drv_omniShadowsSupported drv = true /\
   forall k, (k < Z.to_nat count)%nat ->
     drv_createCubicReflectionMap drv k size <> None) /\
  (fst result = true ->
   length (m_omniShadowMaps (snd result)) = Z.to_nat count /\
   Forall (fun map => map <> None) (m_omniShadowMaps (snd result))) /\
  (fst result = false ->
   if match m_renderContext (members r) with
      | Some _ => drv_omniShadowsSupported drv
      | None => false
      end
   then m_omniShadowMaps (snd result) = []
   else snd result = r).
Proof.
  cbv zeta. unfold initializeOmniShadowMaps.
  destruct (m_renderContext (members r)) as [rc|].
  2: { cbn. repeat split; try discriminate; try reflexivity.
       intros (H & _). contradiction. }
  destruct (drv_omniShadowsSupported drv); cbn [negb].
  2: { cbn. repeat split; try discriminate; try reflexivity.
       intros (_ & H & _). discriminate. }
  match goal with |- context [createOmniShadowMaps ?d ?s ?n ?i ?p] =>
    destruct (createOmniShadowMaps d s n i p) as [pool|] eqn:E
  end; cbn [fst snd].
  - apply createOmniShadowMaps_pool in E.
    destruct E as (created & -> & Hlen & Hall & Hdrv).
    cbn [app m_omniShadowMaps with_omniShadowMaps].
    repeat split; try discriminate; try assumption.
  - apply createOmniShadowMaps_fails in E. destruct E as (k & Hk & Hnone).
    repeat split; try discriminate; try reflexivity.
    intros (_ & _ & H). exfalso. apply (H k Hk). exact Hnone.
Qed.

End OmniShadowPool.

(** ** Cube maps *)

Section CubeMaps.
Context {C : Collaborators} {Sorter : StdSort} {D : Drawing}.
Open Scope draw_scope.

(** The first face of a cube map that is not a null pointer. *)
Definition firstFace (cubeMap : CubeMapFramebuffer) (faces : list nat) :
  option nat :=
  find (fun face => match cube_face cubeMap face with
                    | Some _ => true
                    | None => false
                    end) faces.

Lemma drawView_no_view_set (fuel : nat)
  (lighting : option LightingEnvironment) (view : View)
  (renderSurface : option Framebuffer)
  (colorWriteMask : bool * bool * bool * bool) (r : Renderer) :
  m_universe (members r) = None ->
  drawView fuel lighting view renderSurface colorWriteMask r =
    Some ((RenderNoViewSet, r), []).
Proof. intros H. unfold drawView. now rewrite H. Qed.

Lemma renderCubeMapFaces_no_view_set (fuel : nat)
  (lighting : option LightingEnvironment) (position : Vector3d)
  (cubeMap : CubeMapFramebuffer) (faceProjection : PlanarProjection)
  (rotation : Quaterniond) (colorWriteMask : bool * bool * bool * bool)
  (r : Renderer) (faces : list nat) :
  m_universe (members r) = None ->
  renderCubeMapFaces fuel lighting position cubeMap faceProjection rotation
    colorWriteMask faces r =
  match firstFace cubeMap faces with
  | None => Some ((RenderOk, r), [Bind DefaultTarget])
  | Some face =>
      Some ((RenderNoViewSet, r),
            [Bind (CubeMapFaceTarget face); GlDepthMask true;
             GlClear true true; Bind DefaultTarget])
  end.
Proof.
  intros Hu. induction faces as [|face faces IH]; [reflexivity|].
  cbn [renderCubeMapFaces firstFace find].
  destruct (cube_face cubeMap face) as [fb|]; [|exact IH].
  rewrite drawView_no_view_set by exact Hu. reflexivity.
Qed.

(** X20: Outside a view set, [renderCubeMap] does not draw and leaves the
    renderer as it was, and it ends with the default framebuffer
    bound.  If every face of the cube map is a null pointer it answers
    [RenderOk]; otherwise it answers [RenderNoViewSet], after it has
    bound and cleared the first face that is there, and only that
    one. *)
Theorem renderCubeMap_no_view_set (fuel : nat)
  (lighting : option LightingEnvironment) (position : Vector3d)
  (cubeMap : CubeMapFramebuffer) (faceProjection : PlanarProjection)
  (rotation : Quaterniond) (colorWriteMask : bool * bool * bool * bool)
  (r : Renderer) :
  m_universe (members r) = None ->
  renderCubeMap fuel lighting position cubeMap faceProjection rotation
    colorWriteMask r =
  match firstFace cubeMap (seq 0 6) with
  | None => Some ((RenderOk, r), [Bind DefaultTarget])
  | Some face =>
      Some ((RenderNoViewSet, r),
            [Bind (CubeMapFaceTarget face); GlDepthMask true;
             GlClear true true; Bind DefaultTarget])
  end.
Proof. intros Hu. now apply renderCubeMapFaces_no_view_set. Qed.

Lemma renderShadowCubeMapFaces_no_view_set (fuel : nat)
  (lighting : option LightingEnvironment) (position : Vector3d)
  (cubeMap : CubeMapFramebuffer) (colorWriteMask : bool * bool * bool * bool)
  (r : Renderer) (faces : list nat) :
  m_universe (members r) = None ->
  renderShadowCubeMapFaces fuel lighting position cubeMap colorWriteMask
    faces RenderOk r =
  match firstFace cubeMap faces with
  | None => Some ((RenderOk, r), [])
  | Some face =>
      Some ((RenderNoViewSet, r),
            [Bind (CubeMapFaceTarget face); GlDepthMask true;
             GlClear true true])
  end.
Proof.
  intros Hu. induction faces as [|face faces IH]; [reflexivity|].
  cbn [renderShadowCubeMapFaces firstFace find].
  destruct (cube_face cubeMap face) as [fb|]; [|exact IH].
  rewrite drawView_no_view_set by exact Hu. reflexivity.
Qed.

(** In a view set [renderView] answers [RenderOk], so the loops over
    the faces run to the end. *)
Lemma drawView_universe (fuel : nat) (lighting : option LightingEnvironment)
  (view : View) (renderSurface : option Framebuffer)
  (colorWriteMask : bool * bool * bool * bool) (r r' : Renderer)
  (status : RenderStatus) (events : list Event) :
  m_universe (members r) <> None ->
  drawView fuel lighting view renderSurface colorWriteMask r =
    Some ((status, r'), events) ->
  status = RenderOk /\ m_universe (members r') = m_universe (members r) /\
  m_renderContext (members r') <> None.
Proof.
  intros Hu H. pose proof (drawView_frame _ _ _ _ _ _ H) as F.
  destruct (m_universe (members r)) as [universe|] eqn:Eu;
    [|contradiction].
  destruct F as (-> & Hrv & _). split; [reflexivity|].
  pose proof (renderView_result _ _ _ Hrv) as Hres. rewrite Eu in Hres.
  cbv zeta in Hres. destruct Hres as (_ & Hrc & Hsur & _).
  unfold surroundings in Hsur. injection Hsur as Hc Hun _ _ _ _ _ _ _ _.
  rewrite Hun, Hc. split.
  - unfold litView, prepareView. simpl. exact Eu.
  - unfold litView, prepareView. simpl.
    destruct (m_renderContext (members r)); [discriminate|contradiction].
Qed.

Lemma renderCubeMapFaces_ok (fuel : nat)
  (lighting : option LightingEnvironment) (position : Vector3d)
  (cubeMap : CubeMapFramebuffer) (faceProjection : PlanarProjection)
  (rotation : Quaterniond) (colorWriteMask : bool * bool * bool * bool)
  (faces : list nat) :
  forall (r r' : Renderer) (status : RenderStatus) (events : list Event),
    renderCubeMapFaces fuel lighting position cubeMap faceProjection
      rotation colorWriteMask faces r = Some ((status, r'), events) ->
    (exists before, events = before ++ [Bind DefaultTarget]) /\
    (m_universe (members r) <> None ->
     status = RenderOk /\ m_universe (members r') = m_universe (members r)).
Proof.
  induction faces as [|face faces IH]; intros r r' status events H.
  - cbn in H. injection H as <- <- <-. split; [now exists []|auto].
  - cbn [renderCubeMapFaces] in H.
    destruct (cube_face cubeMap face) as [fb|]; [|now apply IH].
    repeat match type of H with
           | bind (emit _) _ = Some _ =>
               apply bind_Some in H;
               destruct H as ([] & ? & ? & [= <-] & H & ->)
           end.
    apply bind_Some in H.
    destruct H as ([status1 r1] & e1 & e2 & Hview & H & ->).
    cbn [fst snd] in H.
    assert (Hok : m_universe (members r) <> None ->
                  status1 = RenderOk /\
                  m_universe (members r1) = m_universe (members r)).
    { intros Hu. pose proof Hview as Hv.
      eapply drawView_universe in Hv; [|exact Hu].
      destruct Hv as (-> & Hu1 & _). auto. }
    destruct status1.
    1: { apply IH in H. destruct H as [(before & ->) Hrest]. split.
         - eexists. cbn [app]. rewrite !app_comm_cons, app_assoc.
           reflexivity.
         - intros Hu. destruct (Hok Hu) as [_ Hu1].
           rewrite Hu1 in Hrest. apply Hrest. exact Hu. }
    all: cbn in H; injection H as <- <- <-; split;
      [eexists; cbn [app]; rewrite !app_comm_cons; reflexivity
      |intros Hu; destruct (Hok Hu) as [Hs _]; discriminate].
Qed.

(** X21: Whenever [renderCubeMap] returns, the default framebuffer is bound
    at the end, whatever was bound before the call.  In a view set it
    answers [RenderOk] and the view set stays open. *)
Theorem renderCubeMap_unbinds (fuel : nat)
  (lighting : option LightingEnvironment) (position : Vector3d)
  (cubeMap : CubeMapFramebuffer) (faceProjection : PlanarProjection)
  (rotation : Quaterniond) (colorWriteMask : bool * bool * bool * bool)
  (r r' : Renderer) (status : RenderStatus) (events : list Event) :
  renderCubeMap fuel lighting position cubeMap faceProjection rotation
    colorWriteMask r = Some ((status, r'), events) ->
  (forall g, gl_target (applyEvents events g) = DefaultTarget) /\
  (m_universe (members r) <> None ->
   status = RenderOk /\ m_universe (members r') = m_universe (members r)).
Proof.
  intros H. apply renderCubeMapFaces_ok in H.
  destruct H as [(before & ->) Hok]. split; [|exact Hok].
  intros g. rewrite applyEvents_app. reflexivity.
Qed.

Lemma renderShadowCubeMapFaces_ok (fuel : nat)
  (lighting : option LightingEnvironment) (position : Vector3d)
  (cubeMap : CubeMapFramebuffer) (colorWriteMask : bool * bool * bool * bool)
  (faces : list nat) :
  forall (r r' : Renderer) (status : RenderStatus) (events : list Event),
    renderShadowCubeMapFaces fuel lighting position cubeMap colorWriteMask
      faces RenderOk r = Some ((status, r'), events) ->
    m_universe (members r) <> None ->
    status = RenderOk /\ m_universe (members r') = m_universe (members r).
Proof.
  induction faces as [|face faces IH]; intros r r' status events H Hu.
  - cbn in H. injection H as <- <- <-. auto.
  - cbn [renderShadowCubeMapFaces] in H.
    destruct (cube_face cubeMap face) as [fb|]; [|now apply IH in H].
    repeat match type of H with
           | bind (emit _) _ = Some _ =>
               apply bind_Some in H;
               destruct H as ([] & ? & ? & [= <-] & H & ->)
           end.
    apply bind_Some in H.
    destruct H as ([status1 r1] & e1 & e2 & Hview & H & ->).
    cbn [fst snd] in H.
    pose proof Hview as Hv.
    eapply drawView_universe in Hv; [|exact Hu].
    destruct Hv as (-> & Hu1 & _).
    apply IH in H; [|now rewrite Hu1].
    destruct H as [-> Hu2]. now rewrite Hu2.
Qed.

(** X22: [renderShadowCubeMap] has no defined result without a render
    context.  When it returns, the default framebuffer is bound and the
    renderer output is [FragmentColor] at the end, whatever they were
    before the call.  Outside a view set the renderer is left as it was
    and the answer is [RenderOk] only for a cube map without faces; in a
    view set the answer is [RenderOk]. *)
Theorem renderShadowCubeMap_spec (fuel : nat)
  (lighting : option LightingEnvironment) (position : Vector3d)
  (cubeMap : CubeMapFramebuffer) (colorWriteMask : bool * bool * bool * bool)
  (r : Renderer) :
  match
    renderShadowCubeMap fuel lighting position cubeMap colorWriteMask r
  with
  | None => True
  | Some ((status, r'), events) =>
      m_renderContext (members r) <> None /\
      (forall g,
         gl_target (applyEvents events g) = DefaultTarget /\
         gl_output (applyEvents events g) = FragmentColor) /\
      match m_universe (members r) with
      | None =>
          r' = r /\ rendered events = [] /\
          (status = RenderOk <-> firstFace cubeMap (seq 0 6) = None) /\
          (status = RenderOk \/ status = RenderNoViewSet)
      | Some _ => status = RenderOk
      end
  end /\
  (m_renderContext (members r) = None ->
   renderShadowCubeMap fuel lighting position cubeMap colorWriteMask r =
     None).
Proof.
  unfold renderShadowCubeMap.
  destruct (m_renderContext (members r)) as [rc|] eqn:Erc;
    [|split; [exact I|reflexivity]].
  split; [|discriminate].
  cbn [defined]. rewrite bind_ret.
  destruct (m_universe (members r)) as [universe|] eqn:Eu.
  - destruct (renderShadowCubeMapFaces fuel lighting position cubeMap
                colorWriteMask (seq 0 6) RenderOk r)
      as [[[status r'] faces]|] eqn:Ef; [|exact I].
    unfold bind. cbn [emit ret app].
    split; [discriminate|]. split.
    + intros g.
      change (SetRendererOutput CameraDistance
              :: faces ++ [Bind DefaultTarget; SetRendererOutput FragmentColor])
        with ([SetRendererOutput CameraDistance] ++ faces ++
              [Bind DefaultTarget; SetRendererOutput FragmentColor]).
      rewrite !applyEvents_app. split; reflexivity.
    + apply renderShadowCubeMapFaces_ok in Ef; [|now rewrite Eu].
      apply Ef.
  - rewrite renderShadowCubeMapFaces_no_view_set by exact Eu.
    destruct (firstFace cubeMap (seq 0 6)) as [face|];
      cbn; (split; [discriminate|]); (split; [intros g; split; reflexivity|]);
      repeat split; try discriminate; auto.
Qed.

End CubeMaps.

(** * Drawing on the axis

    The axial collaborators are completed for drawing: every geometry
    is opaque, casts and receives shadows; a bounding sphere is the
    interval that it covers on the axis; the layer table holds a layer
    with draw order 2, a null pointer, a layer with draw order 1 and a
    hidden layer. *)

Definition axial_merge (bounds : option (F32.float * F32.float))
  (center radius : F32.float) : option (F32.float * F32.float) :=
  let low := F32.sub center radius in
  let high := F32.add center radius in
  match bounds with
  | None => Some (low, high)
  | Some (l, h) => Some (F32.min l low, F32.max h high)
  end.

#[local] Instance AxialDrawing : @Drawing Axial := {|
  isOpaque := fun _ => true;
  isShadowCaster := fun _ => true;
  isShadowReceiver := fun _ => true;
  v3f_norm := SFabs;
  BoundingSphere := option (F32.float * F32.float);
  bs_new := None;
  bs_merge := axial_merge;
  bs_isEmpty := fun b => match b with None => true | Some _ => false end;
  bs_radius :=
    fun b => match b with
             | None => F32.zero
             | Some (l, h) => F32.div (F32.sub h l) F32.two
             end;
  framebufferSupported := true;
  EnvironmentMap := unit;
  Spectrum := unit;
  SkyLayer := Z * bool;
  layer_isVisible := snd;
  drawOrder := fst;
  layers := fun _ => [Some (2, true); None; Some (1, true); Some (0, false)];
  proj_slice :=
    fun p near far =>
      {| ax_near := near; ax_far := far; ax_pixelSize := ax_pixelSize p;
         ax_nearAdjust := ax_nearAdjust p |};
  proj_leftHanded := fun _ => false;
  shadowProjection :=
    fun s => {| ax_near := F32.opp s; ax_far := s; ax_pixelSize := F32.one;
                ax_nearAdjust := F32.one |};
  cubeFaceProjection :=
    fun near far => {| ax_near := near; ax_far := far;
                       ax_pixelSize := F32.one; ax_nearAdjust := F32.one |};
  squareViewport := fun _ => tt;
  CubeFaceCameraRotations := fun _ => tt;
  q_mul := fun _ _ => tt;
  qd_conjugate := fun q => q;
  qf_conjugate := fun q => q
|}.

(** A renderer over the members [m], with no cube maps, drawing to the
    default framebuffer. *)
Definition onScreen (m : @UniverseRenderer Axial) : Renderer :=
  {| members := m; m_omniShadowMaps := []; m_renderSurface := None;
     m_renderViewport := tt;
     m_renderColorMask := (true, true, true, true);
     m_depthRangeFront := F32.zero; m_depthRangeBack := F32.one;
     m_lighting := None; m_ambientLight := tt |}.

(** The Sun and a lamp of range 50 as visible lights. *)
Definition sunLight : @VisibleLightSourceItem Axial :=
  {| vls_lightSource := None; vls_position := F32.zero;
     vls_cameraRelativePosition := F32.zero |}.

Definition lampLight (depth : Z) (caster : bool) :
  @VisibleLightSourceItem Axial :=
  {| vls_lightSource :=
       Some {| range := F32.of_Z 50; light_isShadowCaster := caster |};
     vls_position := F32.of_Z (- depth);
     vls_cameraRelativePosition := F32.of_Z (- depth) |}.

(** Members in a view set with the given visible lights, the two
    spheres as visible items and one merged span that holds both. *)
Definition bothSpheres : DepthBufferSpan :=
  {| backItemIndex := 1; itemCount := 2;
     span_nearDistance := F32.of_Z 8; span_farDistance := F32.of_Z 100000 |}.

Definition staged (shadows : bool)
  (lights : list (@VisibleLightSourceItem Axial)) : @UniverseRenderer Axial :=
  {| m_renderContext := Some halfUnitContext;
     m_universe := Some lampScene;
     m_currentTime := tt;
     m_shadowsEnabled := shadows;
     m_visualizersEnabled := true;
     m_skyLayersEnabled := true;
     m_shadowMaps := [Some {| fb_isValid := true |}];
     m_lightSources := [sunItem];
     m_visibleLightSources := lights;
     m_visibleItems := twoSpheres;
     m_splittableItems := [];
     m_depthBufferSpans := splitDepthBufferSpans twoSpheres;
     m_mergedDepthBufferSpans := [bothSpheres];
     m_viewFrustum := (F32.of_Z 1, F32.of_Z 1000) |}.

Definition nearSphere : @VisibleItem Axial :=
  sphereItem PreserveDepthPrecision 9 1.

Lemma beginViewSet_light_list_witness :
  beginViewSet (C := Axial) (Some lampScene) tt readyRenderer =
    (RenderOk, openRenderer lampScene) /\
  m_lightSources (openRenderer lampScene) =
    sunItem :: flat_map (entityLights tt) (entities lampScene) /\
  Forall (fun l => lsi_lightSource l <> None)
    (flat_map (entityLights (C := Axial) tt) (entities lampScene)) /\
  m_universe (openRenderer lampScene) = Some lampScene /\
  m_currentTime (openRenderer lampScene) = tt.
Proof.
  split; [reflexivity|].
  apply (@beginViewSet_light_list Axial lampScene tt readyRenderer
           (openRenderer lampScene)).
  reflexivity.
Defined.

Lemma view_set_round_trip_witness :
  m_renderContext readyRenderer <> None /\
  m_universe readyRenderer = None /\
  exists r1,
    beginViewSet (C := Axial) (Some lampScene) tt readyRenderer =
      (RenderOk, r1) /\
    fst (endViewSet (snd (endViewSet r1))) = RenderNoViewSet.
Proof.
  assert (H1 : m_renderContext readyRenderer <> None) by (simpl; discriminate).
  assert (H2 : m_universe readyRenderer = None) by reflexivity.
  split; [exact H1|]. split; [exact H2|].
  destruct (@view_set_round_trip Axial lampScene tt readyRenderer H1 H2)
    as (r1 & E1 & _ & E3 & _).
  exists r1. split; assumption.
Defined.


Lemma span_items_partition_witness :
  Z.of_nat (length twoSpheres) < 2 ^ 31 /\
  concat (map spanItemIndices (splitDepthBufferSpans twoSpheres)) =
    map Z.of_nat (rev (seq 0 (length twoSpheres))) /\
  concat (map spanItemIndices
            (coalesceDepthBufferSpans (splitDepthBufferSpans twoSpheres))) =
    map Z.of_nat (rev (seq 0 (length twoSpheres))).
Proof.
  assert (H : Z.of_nat (length twoSpheres) < 2 ^ 31)
    by (vm_compute; reflexivity).
  split; [exact H|]. exact (span_items_partition twoSpheres H).
Defined.

Lemma items_within_spans_witness :
  Forall item_proper twoSpheres /\
  sorted_by_farDistance twoSpheres /\
  Z.of_nat (length twoSpheres) < 2 ^ 31 /\
  Forall (span_holds twoSpheres) (splitDepthBufferSpans twoSpheres) /\
  Forall (span_holds twoSpheres)
    (coalesceDepthBufferSpans (splitDepthBufferSpans twoSpheres)).
Proof.
  assert (H1 : Forall item_proper twoSpheres) by (repeat constructor).
  assert (H2 : sorted_by_farDistance twoSpheres) by (repeat constructor).
  assert (H3 : Z.of_nat (length twoSpheres) < 2 ^ 31)
    by (vm_compute; reflexivity).
  split; [exact H1|]. split; [exact H2|]. split; [exact H3|].
  exact (items_within_spans H1 H2 H3).
Defined.

Definition unitToHundred : DepthBufferSpan :=
  {| backItemIndex := 0; itemCount := 1;
     span_nearDistance := F32.of_Z 100; span_farDistance := F32.of_Z 1000 |}.

Lemma front_span_loop_bounded_witness :
  F32.ltb (F32.of_Z 1) F32.zero = false /\
  back [unitToHundred] = Some unitToHundred /\
  representable (span_nearDistance unitToHundred) /\
  (26 <= 26)%nat /\
  exists fronts,
    addFrontSpans 26 (F32.of_Z 1) [unitToHundred] =
      Some ([unitToHundred] ++ fronts) /\
    (length fronts <= 25)%nat /\
    Forall (fun s => itemCount s = 0) fronts.
Proof.
  assert (H1 : F32.ltb (F32.of_Z 1) F32.zero = false) by reflexivity.
  assert (H2 : back [unitToHundred] = Some unitToHundred) by reflexivity.
  assert (H3 : representable (span_nearDistance unitToHundred))
    by (apply finite_valid_representable; vm_compute; reflexivity).
  assert (H4 : (26 <= 26)%nat) by lia.
  split; [exact H1|]. split; [exact H2|]. split; [exact H3|].
  split; [exact H4|].
  exact (@front_span_loop_bounded (F32.of_Z 1) [unitToHundred] unitToHundred
           26 H1 H2 H3 H4).
Defined.

Lemma front_span_loop_diverges_witness :
  F32.ltb (F32.of_Z (-1)) F32.zero = true /\
  back [unitToHundred] = Some unitToHundred /\
  not_negative (span_nearDistance unitToHundred) /\
  addFrontSpans 1000 (F32.of_Z (-1)) [unitToHundred] = None.
Proof.
  assert (H1 : F32.ltb (F32.of_Z (-1)) F32.zero = true) by reflexivity.
  assert (H2 : back [unitToHundred] = Some unitToHundred) by reflexivity.
  assert (H3 : not_negative (span_nearDistance unitToHundred)).
  { split; [|reflexivity].
    apply finite_valid_representable. vm_compute. reflexivity. }
  split; [exact H1|]. split; [exact H2|]. split; [exact H3|].
  exact (@front_span_loop_diverges (F32.of_Z (-1)) 1000 H1 [unitToHundred]
           unitToHundred H2 H3).
Defined.

Lemma drawItem_spec_witness :
  let r := onScreen (staged false [sunLight; lampLight 10 false]) in
  m_renderContext (members r) <> None /\
  Z.of_nat (length (m_visibleLightSources (members r))) < 2 ^ 32 /\
  exists events,
    drawItem r nearSphere = Some (tt, events) /\
    rendered events = [nearSphere] /\
    activeLightCounts events = [2].
Proof.
  intros r.
  assert (H1 : m_renderContext (members r) <> None) by (simpl; discriminate).
  assert (H2 : Z.of_nat (length (m_visibleLightSources (members r))) < 2 ^ 32)
    by (simpl; lia).
  split; [exact H1|]. split; [exact H2|].
  destruct (drawItem_spec r nearSphere H1 H2) as (events & E & R & A & _).
  exists events. split; [exact E|]. split; [exact R|].
  rewrite A. reflexivity.
Defined.

Lemma drawItem_light_slots_witness :
  let r := onScreen (staged false [sunLight; lampLight 10 false]) in
  m_renderContext (members r) <> None /\
  m_lightSources (members r) <> [] /\
  m_visibleLightSources (members r) = sunLight :: [lampLight 10 false] /\
  vls_lightSource sunLight = None /\
  Forall (fun l => vls_lightSource l <> None) [lampLight 10 false] /\
  Z.of_nat (length [lampLight 10 false]) + 1 < 2 ^ 32 /\
  exists events,
    drawItem r nearSphere = Some (tt, events) /\
    lightSlots events = [0; 1].
Proof.
  intros r.
  assert (H1 : m_renderContext (members r) <> None) by (simpl; discriminate).
  assert (H2 : m_lightSources (members r) <> []) by (simpl; discriminate).
  assert (H3 : m_visibleLightSources (members r) =
               sunLight :: [lampLight 10 false]) by reflexivity.
  assert (H4 : vls_lightSource sunLight = None) by reflexivity.
  assert (H5 : Forall (fun l => vls_lightSource l <> None)
                 [lampLight 10 false])
    by (repeat constructor; simpl; discriminate).
  assert (H6 : Z.of_nat (length [lampLight 10 false]) + 1 < 2 ^ 32)
    by (simpl; lia).
  split; [exact H1|]. split; [exact H2|]. split; [exact H3|].
  split; [exact H4|]. split; [exact H5|]. split; [exact H6|].
  destruct (drawItem_light_slots r nearSphere H1 H2 H3 H4 H5 H6)
    as (events & E & S).
  exists events. split; [exact E|]. rewrite S. reflexivity.
Defined.


Definition farSphere : @VisibleItem Axial :=
  sphereItem PreserveDepthPrecision 99999 1.

(** A cube map with all six faces. *)
Definition fullCube : CubeMapFramebuffer :=
  {| cube_size := 512; cube_face := fun _ => Some {| fb_isValid := true |} |}.

Lemma renderDepthBufferSpan_rendered_witness :
  let r := onScreen (staged false [sunLight]) in
  m_shadowsEnabled (members r) = false /\
  m_renderContext (members r) <> None /\
  Z.of_nat (length (m_visibleLightSources (members r))) < 2 ^ 32 /\
  readItems (m_visibleItems (members r)) (spanItemIndices bothSpheres) =
    Some [farSphere; nearSphere] /\
  exists events,
    renderDepthBufferSpan bothSpheres demoProjection r = Some (tt, events) /\
    rendered events = [farSphere; nearSphere] /\
    balanced events.
Proof.
  intros r.
  assert (H1 : m_shadowsEnabled (members r) = false) by reflexivity.
  assert (H2 : m_renderContext (members r) <> None) by (simpl; discriminate).
  assert (H3 : Z.of_nat (length (m_visibleLightSources (members r))) < 2 ^ 32)
    by (simpl; lia).
  assert (H4 : readItems (m_visibleItems (members r))
                 (spanItemIndices bothSpheres) =
               Some [farSphere; nearSphere]) by reflexivity.
  split; [exact H1|]. split; [exact H2|]. split; [exact H3|].
  split; [exact H4|].
  destruct (@renderDepthBufferSpan_rendered Axial AxialDrawing
              bothSpheres demoProjection r [farSphere; nearSphere]
              H1 H2 H3 H4) as (events & E & R & B).
  exists events. split; [exact E|]. split; [|exact B].
  rewrite R. reflexivity.
Defined.

Lemma renderDepthBufferSpan_sun_not_first_witness :
  let r :=
    with_omniShadowMaps [Some fullCube]
      (onScreen (staged true [lampLight 10 true; sunLight])) in
  m_shadowsEnabled (members r) = true /\
  m_visibleLightSources (members r) =
    lampLight 10 true :: [] ++ sunLight :: [] /\
  vls_lightSource sunLight = None /\
  Z.of_nat (length (castingLights (C := Axial) [])) <
    Z.of_nat (length (m_omniShadowMaps r)) /\
  spanSkipped bothSpheres demoProjection r = false /\
  renderDepthBufferSpan bothSpheres demoProjection r =
    None.
Proof.
  intros r.
  assert (H1 : m_shadowsEnabled (members r) = true) by reflexivity.
  assert (H2 : m_visibleLightSources (members r) =
               lampLight 10 true :: [] ++ sunLight :: []) by reflexivity.
  assert (H3 : vls_lightSource sunLight = None) by reflexivity.
  assert (H4 : Forall (fun l : @VisibleLightSourceItem Axial =>
                         vls_lightSource l <> None) []) by constructor.
  assert (H5 : Z.of_nat (length (castingLights (C := Axial) [])) <
               Z.of_nat (length (m_omniShadowMaps r))) by (simpl; lia).
  assert (H6 : spanSkipped bothSpheres demoProjection r = false)
    by (vm_compute; reflexivity).
  split; [exact H1|]. split; [exact H2|]. split; [exact H3|].
  split; [exact H5|]. split; [exact H6|].
  exact (@renderDepthBufferSpan_sun_not_first Axial AxialDrawing
           bothSpheres demoProjection r (lampLight 10 true) sunLight [] []
           H1 H2 H3 H4 H5 H6).
Defined.

Lemma renderDepthBufferSpanShadows_spec_witness :
  let r := onScreen (staged true [sunLight]) in
  exists events,
    renderDepthBufferSpanShadows 0 bothSpheres F32.zero r =
      Some (true, events) /\
    rendered events = [] /\ balanced events /\
    forall g,
      gl_target (applyEvents events g) = DefaultTarget /\
      gl_cullFace (applyEvents events g) = CullBack /\
      gl_frontFace (applyEvents events g) = gl_frontFace g.
Proof.
  intros r.
  assert (Hon :
    option_map fst (renderDepthBufferSpanShadows 0 bothSpheres F32.zero r) =
    Some true) by (vm_compute; reflexivity).
  destruct (renderDepthBufferSpanShadows (C := Axial) 0 bothSpheres F32.zero
              r)
    as [[shadowsOn events]|] eqn:E; [|discriminate].
  simpl in Hon. injection Hon as ->.
  exists events. split; [reflexivity|].
  pose proof E as H. apply renderDepthBufferSpanShadows_spec in H.
  cbv iota in H. destruct H as (_ & R & B & G).
  split; [exact R|]. split; [exact B|].
  intros g. destruct (G g) as (G1 & _ & G3 & _ & _ & G6 & _).
  split; [exact G1|]. split; [exact G3|exact G6].
Defined.

Lemma renderDepthBufferSpanOmniShadows_spec_witness :
  let r :=
    with_omniShadowMaps [Some fullCube]
      (onScreen (staged true [sunLight; lampLight 10 true])) in
  let light := {| range := F32.of_Z 50; light_isShadowCaster := true |} in
  exists events,
    renderDepthBufferSpanOmniShadows 0 bothSpheres light (F32.of_Z (-10)) r =
      Some (true, events) /\
    rendered events = [] /\ balanced events /\
    forall g,
      gl_target (applyEvents events g) = DefaultTarget /\
      gl_frontFace (applyEvents events g) = CounterClockwise /\
      gl_output (applyEvents events g) = FragmentColor.
Proof.
  intros r light.
  assert (Hon :
    option_map fst
      (renderDepthBufferSpanOmniShadows 0 bothSpheres light (F32.of_Z (-10))
         r) = Some true) by (vm_compute; reflexivity).
  destruct (renderDepthBufferSpanOmniShadows (C := Axial) 0 bothSpheres light
              (F32.of_Z (-10)) r)
    as [[shadowsOn events]|] eqn:E; [|discriminate].
  simpl in Hon. injection Hon as ->.
  exists events. split; [reflexivity|].
  pose proof E as H. apply renderDepthBufferSpanOmniShadows_spec in H.
  cbv iota in H. destruct H as (R & B & G).
  split; [exact R|]. split; [exact B|].
  intros g. destruct (G g) as (G1 & _ & _ & _ & _ & G6 & _ & G8).
  split; [exact G1|]. split; [exact G6|exact G8].
Defined.


(** The solar scene, in a view set, seen through the default view. *)
Definition solarRenderer : Renderer := onScreen (openRenderer solarScene).

Lemma drawView_frame_witness :
  exists r' events,
    drawView (Sorter := ForwardSort) 30 None defaultView None
      (true, true, true, true) solarRenderer =
      Some ((RenderOk, r'), events) /\
    renderView (Sorter := ForwardSort) 30 defaultView (members solarRenderer) =
      Some (RenderOk, members r') /\
    m_lighting r' = None /\
    m_depthRangeFront r' = F32.zero /\ m_depthRangeBack r' = F32.one.
Proof.
  assert (Hok :
    option_map (fun p => fst (fst p))
      (drawView (C := Axial) (Sorter := ForwardSort) 30 None defaultView None
         (true, true, true, true) solarRenderer) = Some RenderOk)
    by (vm_compute; reflexivity).
  destruct (drawView (C := Axial) (Sorter := ForwardSort) 30 None defaultView
              None (true, true, true, true) solarRenderer)
    as [[[status r'] events]|] eqn:E; [|discriminate].
  simpl in Hok. injection Hok as ->.
  exists r', events. split; [reflexivity|].
  pose proof E as H. apply drawView_frame in H. simpl in H.
  destruct H as (_ & Hrv & Hl & _ & _ & _ & Hf & Hb & _).
  repeat split; assumption.
Defined.

Lemma drawView_without_shadows_witness :
  m_shadowsEnabled (members solarRenderer) = false /\
  m_universe (members solarRenderer) <> None /\
  exists members' r' events,
    renderView (Sorter := ForwardSort) 30 defaultView (members solarRenderer) =
      Some (RenderOk, members') /\
    Z.of_nat (length (m_visibleItems members')) < 2 ^ 31 /\
    Z.of_nat (length (m_visibleLightSources members')) < 2 ^ 32 /\
    drawView (Sorter := ForwardSort) 30 None defaultView None
      (true, true, true, true) solarRenderer =
      Some ((RenderOk, r'), events) /\
    members r' = members' /\
    rendered events =
      flat_map (spanRendered defaultProjection r')
        (m_mergedDepthBufferSpans members') /\
    balanced events.
Proof.
  assert (H1 : m_shadowsEnabled (members solarRenderer) = false)
    by reflexivity.
  assert (H2 : m_universe (members solarRenderer) <> None)
    by (simpl; discriminate).
  split; [exact H1|]. split; [exact H2|].
  assert (Hok :
    option_map
      (fun p => (fst p, length (m_visibleItems (snd p)),
                 length (m_visibleLightSources (snd p))))
      (renderView (C := Axial) (Sorter := ForwardSort) 30 defaultView
         (members solarRenderer)) = Some (RenderOk, 2%nat, 3%nat))
    by (vm_compute; reflexivity).
  destruct (renderView (C := Axial) (Sorter := ForwardSort) 30 defaultView
              (members solarRenderer)) as [[status members']|] eqn:E;
    [|discriminate].
  simpl in Hok. injection Hok as -> Hitems Hlights.
  assert (H3 : Z.of_nat (length (m_visibleItems members')) < 2 ^ 31)
    by (rewrite Hitems; simpl; lia).
  assert (H4 : Z.of_nat (length (m_visibleLightSources members')) < 2 ^ 32)
    by (rewrite Hlights; simpl; lia).
  destruct (@drawView_without_shadows Axial ForwardSort AxialDrawing 30 None
              defaultView None (true, true, true, true) solarRenderer
              RenderOk members' H1 H2 E H3 H4)
    as (r' & events & Hd & Hm & Hr & Hb).
  exists members', r', events.
  split; [reflexivity|]. split; [exact H3|]. split; [exact H4|].
  split; [exact Hd|]. split; [exact Hm|]. split; [exact Hr|exact Hb].
Defined.

Lemma renderCubeMap_no_view_set_witness :
  m_universe (members (onScreen readyRenderer)) = None /\
  renderCubeMap (Sorter := ForwardSort) 30 None F32.zero fullCube
    demoProjection tt (true, true, true, true) (onScreen readyRenderer) =
    Some ((RenderNoViewSet, onScreen readyRenderer),
          [Bind (CubeMapFaceTarget 0); GlDepthMask true; GlClear true true;
           Bind DefaultTarget]).
Proof.
  assert (H : m_universe (members (onScreen readyRenderer)) = None)
    by reflexivity.
  split; [exact H|].
  exact (@renderCubeMap_no_view_set Axial ForwardSort AxialDrawing 30 None
           F32.zero fullCube demoProjection tt (true, true, true, true)
           (onScreen readyRenderer) H).
Defined.

Lemma renderCubeMap_unbinds_witness :
  exists r' events,
    renderCubeMap (Sorter := ForwardSort) 30 None F32.zero fullCube
      defaultProjection tt (true, true, true, true) solarRenderer =
      Some ((RenderOk, r'), events) /\
    (forall g, gl_target (applyEvents events g) = DefaultTarget) /\
    m_universe (members r') = Some solarScene.
Proof.
  assert (Hok :
    option_map (fun p => fst (fst p))
      (renderCubeMap (C := Axial) (Sorter := ForwardSort) 30 None F32.zero
         fullCube defaultProjection tt (true, true, true, true)
         solarRenderer) = Some RenderOk)
    by (vm_compute; reflexivity).
  destruct (renderCubeMap (C := Axial) (Sorter := ForwardSort) 30 None
              F32.zero fullCube defaultProjection tt (true, true, true, true)
              solarRenderer)
    as [[[status r'] events]|] eqn:E; [|discriminate].
  simpl in Hok. injection Hok as ->.
  exists r', events. split; [reflexivity|].
  pose proof E as H. apply renderCubeMap_unbinds in H.
  destruct H as [Hg Hu]. split; [exact Hg|].
  destruct Hu as [_ Hu]; [simpl; discriminate|]. rewrite Hu. reflexivity.
Defined.
